(** * EduBtM page splitting: [edubtm_SplitInternal] and [edubtm_SplitLeaf]

    A shallow embedding of [4-EduBtM_64bit/edubtm_Split.c].  Pages are
    slotted: a byte-addressed entry area [data] that grows forward and a
    slot directory [slot] that grows backward ([slot p i] stands for the C
    expression [p->slot[-i]]).  The two splitters walk the [nSlots + 1]
    entries of the overflowing page plus the new item and redistribute them
    between the page itself and a freshly allocated sibling.

    Conventions of the embedding
    - [Two] and [Four] are the signed 16- and 32-bit integers of the C code;
      they are carried as [Z] and every assignment to a variable of those
      types goes through [toTwo] / [toFour].
    - Memory areas ([data], the images of [item] and [ritem]) are total maps
      from byte offsets to bytes.  The capacity of a page (PAGESIZE and the
      header sizes of EduBtM_Internal.h) is not part of the translated
      sources, so the embedding does not bound the offsets; the header, the
      entry area and the slot directory are kept as three separate
      components of a page.  A copy that in C starts in front of the entry
      area or runs past its end, into the header, the slot directory or
      another buffer, is therefore outside what the embedding describes:
      the properties that depend on what the copies leave in the pages are
      stated for the calls that [valid_internal_split] and
      [valid_leaf_split] admit, in which every offset and every length of a
      copy lies between 0 and [MAX_Two].
    - Multi-byte fields are little endian (the code base targets x86-64).
    - A [BtreeInternal *] / [BtreeLeaf *] is the number of the buffer that
      holds the page; the buffer pool maps buffer numbers to page values, so
      two pointers to the same buffer alias.

    The k-d tree of [5-KDtree/kdtree.h], with the points of [point.h], is
    embedded in the module [KDTree]; its conventions are stated there. *)

From Stdlib Require Import ZArith List Lia Bool.
From Stdlib Require Floats.
From coqutil Require Import Byte Word.LittleEndianList.
Import ListNotations.
Local Open Scope Z_scope.

(* ------------------------------------------------------------------ *)
(** ** Machine integers *)

Definition swrap (w z : Z) : Z := (z + 2 ^ (w - 1)) mod 2 ^ w - 2 ^ (w - 1).

(** Conversion to [Two] (signed 16 bit) and [Four] (signed 32 bit). *)
Definition toTwo (z : Z) : Z := swrap 16 z.
Definition toFour (z : Z) : Z := swrap 32 z.

Definition MAX_Two : Z := 32767.

(** Conversion to [size_t] (unsigned 64 bit), which a [Two] undergoes when
    it is passed to memcpy as the number of bytes to copy. *)
Definition size_t (z : Z) : Z := z mod 2 ^ 64.

Definition sizeof_ShortPageID : Z := 4.
Definition sizeof_Two : Z := 2.

Definition eNOERROR : Z := 0.

(* ------------------------------------------------------------------ *)
(** ** Byte-addressed memory areas *)

Definition Mem : Type := Z -> byte.

(** The [n] bytes found at offsets [a], [a+1], ... *)
Definition read (m : Mem) (a n : Z) : list byte :=
  map (fun i => m (a + Z.of_nat i)) (seq 0 (Z.to_nat n)).

(** [memcpy(dst + d, src + s, n)] for a number of bytes [n] of type
    [size_t]; the areas never overlap in the code (source and destination
    are different objects).  Where the code passes the [Two] [entryLen],
    the call sites below convert it with [size_t], so that a negative
    [entryLen] stands for a copy of almost [2 ^ 64] bytes, as in C; such a
    copy leaves the entry area, and what it does to the rest of the page
    is not described here. *)
Definition memcpy (dst : Mem) (d : Z) (src : Mem) (s n : Z) : Mem :=
  fun x => if (d <=? x) && (x <? d + n) then src (s + (x - d)) else dst x.

Definition get_Two (m : Mem) (a : Z) : Z :=
  toTwo (le_combine (read m a sizeof_Two)).

Definition get_Four (m : Mem) (a : Z) : Z :=
  toFour (le_combine (read m a sizeof_ShortPageID)).

Definition put_Four (m : Mem) (a v : Z) : Mem :=
  fun x => if (a <=? x) && (x <? a + 4)
           then nth (Z.to_nat (x - a)) (le_split 4 v) Byte.x00
           else m x.

(** A memory area holding the bytes of [l] from offset 0 on. *)
Definition mem_of (l : list byte) : Mem :=
  fun x => if x <? 0 then Byte.x00 else nth (Z.to_nat x) l Byte.x00.

(* ------------------------------------------------------------------ *)
(** ** Pages and the buffer pool *)

Record PageID : Type := { pageNo : Z; volNo : Z }.

(** Modelled from the spec: the page header of EduBtM_Internal.h, which is
    not among the translated sources: "header contains: page identifier,
    slot count, free-space offset, leftmost-child pointer (internal) or
    prev/next leaf page identifiers (leaf)".  BtreeInternal and BtreeLeaf
    are the two members of the C union BtreePage; one record carries the
    header fields of both. *)
Record BtreePageHdr : Type := {
  pid : PageID;
  p0 : Z;
  nSlots : Z;
  free : Z;
  prevPage : Z;
  nextPage : Z
}.

Record BtreePage : Type := {
  hdr : BtreePageHdr;
  data : Mem;
  slot : Z -> Z
}.

Definition BtreeInternal : Type := BtreePage.
Definition BtreeLeaf : Type := BtreePage.

Definition with_free (h : BtreePageHdr) (x : Z) : BtreePageHdr :=
  {| pid := pid h; p0 := p0 h; nSlots := nSlots h; free := x;
     prevPage := prevPage h; nextPage := nextPage h |}.

Definition with_nSlots (h : BtreePageHdr) (x : Z) : BtreePageHdr :=
  {| pid := pid h; p0 := p0 h; nSlots := x; free := free h;
     prevPage := prevPage h; nextPage := nextPage h |}.

Definition with_p0 (h : BtreePageHdr) (x : Z) : BtreePageHdr :=
  {| pid := pid h; p0 := x; nSlots := nSlots h; free := free h;
     prevPage := prevPage h; nextPage := nextPage h |}.

Definition with_prevPage (h : BtreePageHdr) (x : Z) : BtreePageHdr :=
  {| pid := pid h; p0 := p0 h; nSlots := nSlots h; free := free h;
     prevPage := x; nextPage := nextPage h |}.

Definition with_nextPage (h : BtreePageHdr) (x : Z) : BtreePageHdr :=
  {| pid := pid h; p0 := p0 h; nSlots := nSlots h; free := free h;
     prevPage := prevPage h; nextPage := x |}.

Definition set_hdr (p : BtreePage) (h : BtreePageHdr) : BtreePage :=
  {| hdr := h; data := data p; slot := slot p |}.

Definition set_data (p : BtreePage) (d : Mem) : BtreePage :=
  {| hdr := hdr p; data := d; slot := slot p |}.

(** [p->slot[-i] = x] *)
Definition set_slot (p : BtreePage) (i x : Z) : BtreePage :=
  {| hdr := hdr p; data := data p;
     slot := fun t => if t =? i then x else slot p t |}.

(** The buffers of the buffer manager, by buffer (page) number. *)
Definition BufferPool : Type := Z -> BtreePage.

(** Write through a page pointer. *)
Definition upd (b : BufferPool) (ptr : Z) (p : BtreePage) : BufferPool :=
  fun q => if q =? ptr then p else b q.

(* ------------------------------------------------------------------ *)
(** ** The page store: allocation, initialisation, pinning *)

(** Modelled from the spec: the external collaborators of section 6
    (btm_AllocPage, edubtm_InitInternal, edubtm_InitLeaf, BfM_GetTrain,
    BfM_FreeTrain are not among the translated sources).  One record fixes
    what they answer during one call of a splitter: the status of each call,
    the page identifier handed out by the allocator, the bytes that the
    fresh buffer happens to contain (initialisation sets the header and
    leaves the entry area and the slot directory as they are), and what the
    buffer holds when the initialisation fails. *)
Record PageStore : Type := {
  AllocPage_status : Z;
  AllocPage_newPid : PageID;
  Init_status : Z;
  Init_data : Mem;
  Init_slot : Z -> Z;
  Init_failed : BtreePage;
  GetTrain_status : Z;
  FreeTrain_status : Z
}.

(** The null page number that an initialised page carries in its links. *)
Definition NIL : Z := -1.

(** Modelled from the spec: "allocate_page(tree_handle, near_page_id) ->
    page_id; fails with AllocationError if the store is exhausted". *)
Definition btm_AllocPage (ps : PageStore) (near : PageID) : Z * PageID :=
  (AllocPage_status ps, AllocPage_newPid ps).

(** Modelled from the spec: "init_page(page_id, is_leaf, is_root=false)":
    the page becomes an empty page carrying its own identifier; after a
    failed initialisation the buffer of the new page holds anything. *)
Definition init_page (ps : PageStore) (newPid : PageID) : BtreePage :=
  {| hdr := {| pid := newPid; p0 := NIL; nSlots := 0; free := 0;
               prevPage := NIL; nextPage := NIL |};
     data := Init_data ps;
     slot := Init_slot ps |}.

(** Modelled from the spec: init_page for an internal page. *)
Definition edubtm_InitInternal (ps : PageStore) (newPid : PageID)
    (b : BufferPool) : Z * BufferPool :=
  if Init_status ps <? 0
  then (Init_status ps, upd b (pageNo newPid) (Init_failed ps))
  else (Init_status ps, upd b (pageNo newPid) (init_page ps newPid)).

(** Modelled from the spec: init_page for a leaf page. *)
Definition edubtm_InitLeaf (ps : PageStore) (newPid : PageID)
    (b : BufferPool) : Z * BufferPool :=
  if Init_status ps <? 0
  then (Init_status ps, upd b (pageNo newPid) (Init_failed ps))
  else (Init_status ps, upd b (pageNo newPid) (init_page ps newPid)).

(** Modelled from the spec: "pin(page_id) -> page_handle"; the handle is the
    buffer that holds the page. *)
Definition BfM_GetTrain (ps : PageStore) (newPid : PageID) : Z * Z :=
  (GetTrain_status ps, pageNo newPid).

(** Modelled from the spec: "unpin(page_id)"; only its status is used. *)
Definition BfM_FreeTrain (ps : PageStore) (newPid : PageID) : Z :=
  FreeTrain_status ps.

(* ------------------------------------------------------------------ *)
(** ** The loop [for (i = 0; i < maxLoop; i++)] *)

(** [i] is a [Two] that stays below [maxLoop <= 32767], so [i++] never
    wraps: the body runs for [i = 0 .. maxLoop - 1], and not at all when
    [maxLoop <= 0]. *)
Fixpoint for_loop {S : Type} (body : Z -> S -> S) (n : nat) (s : S) : S :=
  match n with
  | O => s
  | Datatypes.S n' => body (Z.of_nat n') (for_loop body n' s)
  end.

(** The variables that live across iterations, with the buffer pool the two
    page pointers point into.  [j] and [k] count iterations and stay below
    [maxLoop], so [j++] and [k++] never wrap; the offsets and [sum] go
    through [toTwo] and [toFour]. *)
Record SplitVars : Type := {
  pool : BufferPool;
  j : Z;
  k : Z;
  sum : Z;
  fEntryOffset : Z;
  nEntryOffset : Z
}.

Definition split_init (b : BufferPool) : SplitVars :=
  {| pool := b; j := 0; k := 0; sum := 0;
     fEntryOffset := 0; nEntryOffset := 0 |}.

(* ------------------------------------------------------------------ *)
(** ** Entry layout *)

(** Modelled from the spec: "Internal entry bytes: [child_page_id : 4 bytes]
    [key_length : 2 bytes][key_bytes]" (btm_InternalEntry and InternalItem
    of EduBtM_Internal.h): [spid] at offset 0, [klen] at offset 4. *)
Definition IE_klen : Z := sizeof_ShortPageID.

(** Modelled from the spec: "Leaf entry bytes: [record_count : 2 bytes]
    [key_length : 2 bytes][key_bytes][record_pointer_array]"
    (btm_LeafEntry): [nObjects] at offset 0, [klen] at offset 2. *)
Definition LE_klen : Z := sizeof_Two.

(** Constants, macros and structure layouts of EduBtM_common.h and
    EduBtM_Internal.h, which are not among the translated sources: the
    alignment unit behind ALIGNED_LENGTH, the two half-fill thresholds, two
    structure sizes, and the offsets of the fields [oid] and [nObjects] in
    a LeafItem. *)
Record Layout : Type := {
  ALIGN : Z;
  BI_HALF : Z;
  BL_HALF : Z;
  sizeof_ObjectID : Z;
  sizeof_InternalItem : Z;
  LI_oid : Z;
  LI_nObjects : Z
}.

Section Splitters.

Variable cfg : Layout.
Local Abbreviation ALIGN := (ALIGN cfg).
Local Abbreviation BI_HALF := (BI_HALF cfg).
Local Abbreviation BL_HALF := (BL_HALF cfg).
Local Abbreviation sizeof_ObjectID := (sizeof_ObjectID cfg).
Local Abbreviation sizeof_InternalItem := (sizeof_InternalItem cfg).
Local Abbreviation LI_oid := (LI_oid cfg).
Local Abbreviation LI_nObjects := (LI_nObjects cfg).

(** Modelled from the spec: "key_bytes : key_length, length-aligned"; the
    macro rounds a length up to the next multiple of the alignment unit. *)
Definition ALIGNED_LENGTH (len : Z) : Z :=
  if len mod ALIGN =? 0 then len else len - len mod ALIGN + ALIGN.

(** The code copies the entry part of a LeafItem from [&item->nObjects] as
    a btm_LeafEntry, so [klen] follows [nObjects]. *)
Definition LI_klen : Z := LI_nObjects + sizeof_Two.

(* ------------------------------------------------------------------ *)
(** *** edubtm_SplitInternal *)

(** One iteration of the loop of edubtm_SplitInternal (lines 111-170).
    [tpage] is the snapshot taken on entry, [fpage] and [npage] are the two
    page pointers, [item] is the image of the InternalItem to insert.  The
    test [sum < BI_HALF] compares a [sum] that is never negative with the
    threshold as integers. *)
Definition SplitInternal_body (tpage : BtreeInternal) (item : Mem)
    (high : Z) (fpage npage : Z) (i : Z) (v : SplitVars) : SplitVars :=
  if sum v <? BI_HALF then
    let F := pool v fpage in
    let '(F, entryLen) :=
      if i + 1 <? high then
        let fEntry := slot tpage i in
        let entryLen := toTwo (sizeof_ShortPageID + sizeof_Two
                               + get_Two (data tpage) (fEntry + IE_klen)) in
        (set_data F (memcpy (data F) (fEntryOffset v)
                            (data tpage) (slot tpage i)
                            (size_t entryLen)), entryLen)
      else if i + 1 =? high then
        let entryLen := toTwo (sizeof_ShortPageID + sizeof_Two
                               + ALIGNED_LENGTH (get_Two item IE_klen)) in
        (set_data F (memcpy (data F) (fEntryOffset v) item 0
                            (size_t entryLen)),
         entryLen)
      else
        let fEntry := slot tpage (i - 1) in
        let entryLen := toTwo (sizeof_ShortPageID + sizeof_Two
                               + get_Two (data tpage) (fEntry + IE_klen)) in
        (set_data F (memcpy (data F) (fEntryOffset v)
                            (data tpage) (slot tpage (i - 1))
                            (size_t entryLen)),
         entryLen) in
    let F := set_slot F (j v) (fEntryOffset v) in
    let fEntryOffset' := toTwo (fEntryOffset v + entryLen) in
    let F := set_hdr F (with_free (hdr F) fEntryOffset') in
    {| pool := upd (pool v) fpage F;
       j := j v + 1;
       k := k v;
       sum := toFour (sum v + entryLen + sizeof_Two);
       fEntryOffset := fEntryOffset';
       nEntryOffset := nEntryOffset v |}
  else
    let N := pool v npage in
    let '(N, entryLen) :=
      if i + 1 <? high then
        let nEntry := slot tpage i in
        let entryLen := toTwo (sizeof_ShortPageID + sizeof_Two
                               + get_Two (data tpage) (nEntry + IE_klen)) in
        (set_data N (memcpy (data N) (nEntryOffset v)
                            (data tpage) (slot tpage i)
                            (size_t entryLen)), entryLen)
      else if i + 1 =? high then
        let entryLen := toTwo (sizeof_ShortPageID + sizeof_Two
                               + get_Two item IE_klen) in
        (set_data N (memcpy (data N) (nEntryOffset v) item 0
                            (size_t entryLen)),
         entryLen)
      else
        let nEntry := slot tpage (i - 1) in
        let entryLen := toTwo (sizeof_ShortPageID + sizeof_Two
                               + get_Two (data tpage) (nEntry + IE_klen)) in
        (set_data N (memcpy (data N) (nEntryOffset v)
                            (data tpage) (slot tpage (i - 1))
                            (size_t entryLen)),
         entryLen) in
    let N := set_slot N (k v) (nEntryOffset v) in
    let nEntryOffset' := toTwo (nEntryOffset v + entryLen) in
    let N := set_hdr N (with_free (hdr N) nEntryOffset') in
    {| pool := upd (pool v) npage N;
       j := j v;
       k := k v + 1;
       sum := toFour (sum v + entryLen + sizeof_Two);
       fEntryOffset := fEntryOffset v;
       nEntryOffset := nEntryOffset' |}.

(** What edubtm_SplitInternal does once the sibling is pinned (lines
    110-177): the loop, the leftmost pointer, the slot counts, the
    up-entry. *)
Definition SplitInternal_pinned (b : BufferPool) (tpage : BtreeInternal)
    (fpage npage : Z) (high : Z) (item ritem : Mem) : BufferPool * Mem :=
  let maxLoop := toTwo (nSlots (hdr (b fpage)) + 1) in
  let v := for_loop (SplitInternal_body tpage item high fpage npage)
                    (Z.to_nat maxLoop) (split_init b) in
  let b := pool v in
  let nEntry := slot (b npage) 0 in
  let b := upd b npage
             (set_hdr (b npage)
                (with_p0 (hdr (b npage))
                   (get_Four (data (b npage)) nEntry))) in
  let b := upd b fpage
             (set_hdr (b fpage) (with_nSlots (hdr (b fpage)) (j v))) in
  let b := upd b npage
             (set_hdr (b npage) (with_nSlots (hdr (b npage)) (k v))) in
  let ritem := memcpy ritem 0 (data (b npage)) nEntry sizeof_InternalItem in
  (b, ritem).

(** edubtm_SplitInternal: status, buffer pool and [ritem] on return.
    [ERR(e)] returns [e]. *)
Definition edubtm_SplitInternal (ps : PageStore) (b : BufferPool)
    (fpage : Z) (high : Z) (item ritem : Mem) : Z * BufferPool * Mem :=
  let tpage := b fpage in
  let '(e, newPid) := btm_AllocPage ps (pid (hdr (b fpage))) in
  if e <? 0 then (e, b, ritem) else
  let '(e, b) := edubtm_InitInternal ps newPid b in
  if e <? 0 then (e, b, ritem) else
  let '(e, npage) := BfM_GetTrain ps newPid in
  if e <? 0 then (e, b, ritem) else
  let '(b, ritem) :=
    SplitInternal_pinned b tpage fpage npage high item ritem in
  let e := BfM_FreeTrain ps newPid in
  if e <? 0 then (e, b, ritem) else
  (eNOERROR, b, ritem).

(* ------------------------------------------------------------------ *)
(** *** edubtm_SplitLeaf *)

(** One iteration of the loop of edubtm_SplitLeaf (lines 259-324). *)
Definition SplitLeaf_body (tpage : BtreeLeaf) (item : Mem)
    (high : Z) (fpage npage : Z) (i : Z) (v : SplitVars) : SplitVars :=
  if sum v <? BL_HALF then
    let F := pool v fpage in
    let '(F, entryLen) :=
      if i + 1 <? high then
        let fEntry := slot tpage i in
        let entryLen :=
          toTwo (2 * sizeof_Two
                 + ALIGNED_LENGTH (get_Two (data tpage) (fEntry + LE_klen))
                 + sizeof_ObjectID) in
        (set_data F (memcpy (data F) (fEntryOffset v)
                            (data tpage) (slot tpage i)
                            (size_t entryLen)), entryLen)
      else if i + 1 =? high then
        let fEntry := LI_nObjects in
        let entryLen := toTwo (2 * sizeof_Two
                               + ALIGNED_LENGTH (get_Two item LI_klen)) in
        let F := set_data F (memcpy (data F) (fEntryOffset v)
                                    item fEntry (size_t entryLen)) in
        let F := set_data F (memcpy (data F) (fEntryOffset v + entryLen)
                                    item LI_oid sizeof_ObjectID) in
        (F, toTwo (entryLen + sizeof_ObjectID))
      else
        let fEntry := slot tpage (i - 1) in
        let entryLen :=
          toTwo (2 * sizeof_Two
                 + ALIGNED_LENGTH (get_Two (data tpage) (fEntry + LE_klen))
                 + sizeof_ObjectID) in
        (set_data F (memcpy (data F) (fEntryOffset v)
                            (data tpage) (slot tpage (i - 1))
                            (size_t entryLen)),
         entryLen) in
    let F := set_slot F (j v) (fEntryOffset v) in
    let fEntryOffset' := toTwo (fEntryOffset v + entryLen) in
    let F := set_hdr F (with_free (hdr F) fEntryOffset') in
    {| pool := upd (pool v) fpage F;
       j := j v + 1;
       k := k v;
       sum := toFour (sum v + entryLen + sizeof_Two);
       fEntryOffset := fEntryOffset';
       nEntryOffset := nEntryOffset v |}
  else
    let N := pool v npage in
    let '(N, entryLen) :=
      if i + 1 <? high then
        let nEntry := slot tpage i in
        let entryLen :=
          toTwo (2 * sizeof_Two
                 + ALIGNED_LENGTH (get_Two (data tpage) (nEntry + LE_klen))
                 + sizeof_ObjectID) in
        (set_data N (memcpy (data N) (nEntryOffset v)
                            (data tpage) (slot tpage i)
                            (size_t entryLen)), entryLen)
      else if i + 1 =? high then
        let fEntry := LI_nObjects in
        let entryLen := toTwo (2 * sizeof_Two
                               + ALIGNED_LENGTH (get_Two item LI_klen)) in
        let N := set_data N (memcpy (data N) (nEntryOffset v)
                                    item fEntry (size_t entryLen)) in
        let N := set_data N (memcpy (data N) (nEntryOffset v + entryLen)
                                    item LI_oid sizeof_ObjectID) in
        (N, toTwo (entryLen + sizeof_ObjectID))
      else
        let nEntry := slot tpage (i - 1) in
        let entryLen :=
          toTwo (2 * sizeof_Two
                 + ALIGNED_LENGTH (get_Two (data tpage) (nEntry + LE_klen))
                 + sizeof_ObjectID) in
        (set_data N (memcpy (data N) (nEntryOffset v)
                            (data tpage) (slot tpage (i - 1))
                            (size_t entryLen)),
         entryLen) in
    let N := set_slot N (k v) (nEntryOffset v) in
    let nEntryOffset' := toTwo (nEntryOffset v + entryLen) in
    let N := set_hdr N (with_free (hdr N) nEntryOffset') in
    {| pool := upd (pool v) npage N;
       j := j v;
       k := k v + 1;
       sum := toFour (sum v + entryLen + sizeof_Two);
       fEntryOffset := fEntryOffset v;
       nEntryOffset := nEntryOffset' |}.

(** What edubtm_SplitLeaf does once the sibling is pinned (lines 257-336):
    the loop, the slot counts, the leaf chain, the up-entry. *)
Definition SplitLeaf_pinned (b : BufferPool) (tpage : BtreeLeaf)
    (fpage npage : Z) (high : Z) (item ritem : Mem) : BufferPool * Mem :=
  let maxLoop := toTwo (nSlots (hdr (b fpage)) + 1) in
  let v := for_loop (SplitLeaf_body tpage item high fpage npage)
                    (Z.to_nat maxLoop) (split_init b) in
  let b := pool v in
  let b := upd b fpage
             (set_hdr (b fpage) (with_nSlots (hdr (b fpage)) (j v))) in
  let b := upd b npage
             (set_hdr (b npage) (with_nSlots (hdr (b npage)) (k v))) in
  let b := upd b npage
             (set_hdr (b npage)
                (with_prevPage (hdr (b npage))
                   (pageNo (pid (hdr (b fpage)))))) in
  let b := upd b npage
             (set_hdr (b npage)
                (with_nextPage (hdr (b npage)) (nextPage (hdr (b fpage))))) in
  let b := upd b fpage
             (set_hdr (b fpage)
                (with_nextPage (hdr (b fpage))
                   (pageNo (pid (hdr (b npage)))))) in
  let ritem := put_Four ritem 0 (pageNo (pid (hdr (b npage)))) in
  let nEntry := slot (b npage) 0 in
  let ritem := memcpy ritem IE_klen (data (b npage)) (nEntry + LE_klen)
                      (sizeof_InternalItem - sizeof_ShortPageID) in
  (b, ritem).

(** edubtm_SplitLeaf: status, buffer pool and [ritem] on return.  The
    parameter [root] of the C function is never read. *)
Definition edubtm_SplitLeaf (ps : PageStore) (b : BufferPool)
    (fpage : Z) (high : Z) (item ritem : Mem) : Z * BufferPool * Mem :=
  let tpage := b fpage in
  let '(e, newPid) := btm_AllocPage ps (pid (hdr (b fpage))) in
  if e <? 0 then (e, b, ritem) else
  let '(e, b) := edubtm_InitLeaf ps newPid b in
  if e <? 0 then (e, b, ritem) else
  let '(e, npage) := BfM_GetTrain ps newPid in
  if e <? 0 then (e, b, ritem) else
  let '(b, ritem) := SplitLeaf_pinned b tpage fpage npage high item ritem in
  let e := BfM_FreeTrain ps newPid in
  if e <? 0 then (e, b, ritem) else
  (eNOERROR, b, ritem).

End Splitters.

(* ------------------------------------------------------------------ *)
(** ** The redistribution walk, once for both splitters *)

(** The two loops differ only in the threshold and in what an iteration
    copies.  [copy to_source i dst off] is the entry area that results from
    the copy of iteration [i] to offset [off] of [dst], with the [entryLen]
    the iteration computes; [to_source] tells the branch (the page being
    split or the new page). *)
Section Redistribute.

Variable HALF : Z.
Variable copy : bool -> Z -> Mem -> Z -> Mem * Z.
Variables fpage npage : Z.

Definition redistribute_body (i : Z) (v : SplitVars) : SplitVars :=
  if sum v <? HALF then
    let F := pool v fpage in
    let '(d, entryLen) := copy true i (data F) (fEntryOffset v) in
    let F := set_slot (set_data F d) (j v) (fEntryOffset v) in
    let fEntryOffset' := toTwo (fEntryOffset v + entryLen) in
    let F := set_hdr F (with_free (hdr F) fEntryOffset') in
    {| pool := upd (pool v) fpage F;
       j := j v + 1;
       k := k v;
       sum := toFour (sum v + entryLen + sizeof_Two);
       fEntryOffset := fEntryOffset';
       nEntryOffset := nEntryOffset v |}
  else
    let N := pool v npage in
    let '(d, entryLen) := copy false i (data N) (nEntryOffset v) in
    let N := set_slot (set_data N d) (k v) (nEntryOffset v) in
    let nEntryOffset' := toTwo (nEntryOffset v + entryLen) in
    let N := set_hdr N (with_free (hdr N) nEntryOffset') in
    {| pool := upd (pool v) npage N;
       j := j v;
       k := k v + 1;
       sum := toFour (sum v + entryLen + sizeof_Two);
       fEntryOffset := fEntryOffset v;
       nEntryOffset := nEntryOffset' |}.

Definition redistribute (n : nat) (b : BufferPool) : SplitVars :=
  for_loop redistribute_body n (split_init b).

(** The entries of a page, read in slot order through the reader [rd] of
    the page kind. *)
Definition entries_upto (rd : Mem -> Z -> list byte) (p : BtreePage)
    (n : nat) : list (list byte) :=
  map (fun t => rd (data p) (slot p (Z.of_nat t))) (seq 0 n).

End Redistribute.

Definition entries (rd : Mem -> Z -> list byte) (p : BtreePage)
    : list (list byte) :=
  entries_upto rd p (Z.to_nat (nSlots (hdr p))).

(** The integer variables of the walk. *)
Definition counters (v : SplitVars) : Z * Z * Z * Z * Z :=
  (j v, k v, sum v, fEntryOffset v, nEntryOffset v).

(** The walk on the integer variables alone, for entry lengths [L]. *)
Definition plan_body (HALF : Z) (L : bool -> Z -> Z) (i : Z)
    (c : Z * Z * Z * Z * Z) : Z * Z * Z * Z * Z :=
  let '(cj, ck, csum, cf, cn) := c in
  if csum <? HALF
  then (cj + 1, ck, toFour (csum + L true i + sizeof_Two),
        toTwo (cf + L true i), cn)
  else (cj, ck + 1, toFour (csum + L false i + sizeof_Two),
        cf, toTwo (cn + L false i)).

Definition plan (HALF : Z) (L : bool -> Z -> Z) (n : nat)
    : Z * Z * Z * Z * Z :=
  for_loop (plan_body HALF L) n (0, 0, 0, 0, 0).

(** Sum of [W 0 .. W (n-1)]. *)
Fixpoint total (W : Z -> Z) (n : nat) : Z :=
  match n with
  | O => 0
  | S n' => total W n' + W (Z.of_nat n')
  end.

(** [x] inserted in front of position [n] of [l]. *)
Definition insert_at {A : Type} (n : nat) (x : A) (l : list A) : list A :=
  firstn n l ++ x :: skipn n l.

Section Readers.

Variable cfg : Layout.
Local Abbreviation ALIGN := (ALIGN cfg).
Local Abbreviation BI_HALF := (BI_HALF cfg).
Local Abbreviation BL_HALF := (BL_HALF cfg).
Local Abbreviation sizeof_ObjectID := (sizeof_ObjectID cfg).
Local Abbreviation sizeof_InternalItem := (sizeof_InternalItem cfg).
Local Abbreviation LI_oid := (LI_oid cfg).
Local Abbreviation LI_nObjects := (LI_nObjects cfg).

(** The internal entry that starts at offset [off]: child page identifier,
    key length and the [klen] bytes of the key. *)
Definition InternalEntry_at (d : Mem) (off : Z) : list byte :=
  read d off (sizeof_ShortPageID + sizeof_Two + get_Two d (off + IE_klen)).

(** The leaf entry that starts at offset [off], as far as edubtm_SplitLeaf
    copies it: number of objects, key length, the key in its aligned field
    and one object identifier, whatever the number of objects says. *)
Definition LeafEntry_at (d : Mem) (off : Z) : list byte :=
  read d off (2 * sizeof_Two
              + ALIGNED_LENGTH cfg (get_Two d (off + LE_klen))
              + sizeof_ObjectID).

(** The leaf entry made from a LeafItem: the part that starts at
    [&item->nObjects], followed by the object identifier. *)
Definition LeafEntry_of_item (item : Mem) : list byte :=
  read item LI_nObjects
       (2 * sizeof_Two
        + ALIGNED_LENGTH cfg (get_Two item (LI_klen cfg)))
  ++ read item LI_oid sizeof_ObjectID.

(** Modelled from the spec: the leaf entry of section 6, "Leaf entry bytes:
    [record_count : 2 bytes][key_length : 2 bytes][key_bytes : key_length,
    length-aligned][record_pointer_array : record_count entries]": the
    entry with as many object identifiers as its field [nObjects]
    announces. *)
Definition LeafEntry_spec_at (d : Mem) (off : Z) : list byte :=
  read d off (2 * sizeof_Two
              + ALIGNED_LENGTH cfg (get_Two d (off + LE_klen))
              + get_Two d off * sizeof_ObjectID).

(** Every entry of the page and the new item announce exactly one object
    identifier. *)
Definition single_objects (tpage : BtreeLeaf) (item : Mem) : bool :=
  forallb (fun t => get_Two (data tpage) (slot tpage (Z.of_nat t)) =? 1)
          (seq 0 (Z.to_nat (nSlots (hdr tpage))))
  && (get_Two item LI_nObjects =? 1).

(** What iteration [i] of edubtm_SplitInternal copies. *)
Definition copy_internal (tpage : BtreeInternal) (item : Mem) (high : Z)
    (to_source : bool) (i : Z) (dst : Mem) (off : Z) : Mem * Z :=
  if i + 1 <? high then
    let entryLen := toTwo (sizeof_ShortPageID + sizeof_Two
                           + get_Two (data tpage) (slot tpage i + IE_klen)) in
    (memcpy dst off (data tpage) (slot tpage i) (size_t entryLen), entryLen)
  else if i + 1 =? high then
    let entryLen :=
      toTwo (sizeof_ShortPageID + sizeof_Two
             + (if to_source then ALIGNED_LENGTH cfg (get_Two item IE_klen)
                else get_Two item IE_klen)) in
    (memcpy dst off item 0 (size_t entryLen), entryLen)
  else
    let entryLen :=
      toTwo (sizeof_ShortPageID + sizeof_Two
             + get_Two (data tpage) (slot tpage (i - 1) + IE_klen)) in
    (memcpy dst off (data tpage) (slot tpage (i - 1)) (size_t entryLen),
     entryLen).

(** What iteration [i] of edubtm_SplitLeaf copies. *)
Definition copy_leaf (tpage : BtreeLeaf) (item : Mem) (high : Z)
    (to_source : bool) (i : Z) (dst : Mem) (off : Z) : Mem * Z :=
  if i + 1 <? high then
    let entryLen := toTwo (2 * sizeof_Two
                           + ALIGNED_LENGTH cfg
                               (get_Two (data tpage) (slot tpage i + LE_klen))
                           + sizeof_ObjectID) in
    (memcpy dst off (data tpage) (slot tpage i) (size_t entryLen), entryLen)
  else if i + 1 =? high then
    let entryLen := toTwo (2 * sizeof_Two
                           + ALIGNED_LENGTH cfg
                               (get_Two item (LI_klen cfg))) in
    (memcpy (memcpy dst off item LI_nObjects (size_t entryLen))
            (off + entryLen) item LI_oid sizeof_ObjectID,
     toTwo (entryLen + sizeof_ObjectID))
  else
    let entryLen := toTwo (2 * sizeof_Two
                           + ALIGNED_LENGTH cfg (get_Two (data tpage)
                                        (slot tpage (i - 1) + LE_klen))
                           + sizeof_ObjectID) in
    (memcpy dst off (data tpage) (slot tpage (i - 1)) (size_t entryLen),
     entryLen).

(** The entry that the merged sequence has at position [i] (0-based): the
    entries of the snapshot with the new item at position [high - 1]. *)
Definition merged_internal (tpage : BtreeInternal) (item : Mem) (high : Z)
    (i : Z) : list byte :=
  if i + 1 <? high then InternalEntry_at (data tpage) (slot tpage i)
  else if i + 1 =? high then InternalEntry_at item 0
  else InternalEntry_at (data tpage) (slot tpage (i - 1)).

Definition merged_leaf (tpage : BtreeLeaf) (item : Mem) (high : Z)
    (i : Z) : list byte :=
  if i + 1 <? high then LeafEntry_at (data tpage) (slot tpage i)
  else if i + 1 =? high then LeafEntry_of_item item
  else LeafEntry_at (data tpage) (slot tpage (i - 1)).

(** Key length of the entry at position [i] of the merged sequence. *)
Definition merged_klen (koff ioff : Z) (tpage : BtreePage) (item : Mem)
    (high : Z) (i : Z) : Z :=
  if i + 1 <? high then get_Two (data tpage) (slot tpage i + koff)
  else if i + 1 =? high then get_Two item ioff
  else get_Two (data tpage) (slot tpage (i - 1) + koff).

(** Well-formed input of edubtm_SplitInternal: a slot count that leaves
    room for [maxLoop] in a [Two], a target slot in [1 .. nSlots + 1], key
    lengths that are not negative, and entries whose aligned images take no
    more than a [Two] can count. *)
Definition valid_internal_split (tpage : BtreeInternal) (item : Mem)
    (high : Z) : bool :=
  let n := nSlots (hdr tpage) in
  (0 <=? n) && (n <? MAX_Two) && (1 <=? high) && (high <=? n + 1)
  && forallb (fun t => 0 <=? merged_klen IE_klen IE_klen tpage item high
                                         (Z.of_nat t))
             (seq 0 (Z.to_nat (n + 1)))
  && (total (fun i => sizeof_ShortPageID + sizeof_Two
                      + ALIGNED_LENGTH cfg
                          (merged_klen IE_klen IE_klen tpage item high i))
            (Z.to_nat (n + 1)) <=? MAX_Two).

(** The same for [edubtm_SplitLeaf], whose entries carry an aligned key and
    one [ObjectID]. *)
Definition valid_leaf_split (tpage : BtreeLeaf) (item : Mem)
    (high : Z) : bool :=
  let n := nSlots (hdr tpage) in
  (0 <=? n) && (n <? MAX_Two) && (1 <=? high) && (high <=? n + 1)
  && forallb (fun t => 0 <=? merged_klen LE_klen (LI_klen cfg)
                                         tpage item high (Z.of_nat t))
             (seq 0 (Z.to_nat (n + 1)))
  && (total (fun i => 2 * sizeof_Two
                      + ALIGNED_LENGTH cfg (merged_klen LE_klen (LI_klen cfg)
                                       tpage item high i)
                      + sizeof_ObjectID)
            (Z.to_nat (n + 1)) <=? MAX_Two).

End Readers.

(* ------------------------------------------------------------------ *)
(** ** Notions used to state and prove the properties *)

(** Two headers that differ at most in [free]. *)
Definition hdr_agree (h h' : BtreePageHdr) : Prop :=
  pid h' = pid h /\ p0 h' = p0 h /\ nSlots h' = nSlots h /\
  prevPage h' = prevPage h /\ nextPage h' = nextPage h.

(** The first [cnt] slots of [P] hold the entries [F 0 .. F (cnt - 1)],
    each of them below offset [off]. *)
Definition stored (rd : Mem -> Z -> list byte) (P : BtreePage)
    (cnt off : Z) (F : Z -> list byte) : Prop :=
  forall t, 0 <= t < cnt ->
    slot P t + Z.of_nat (length (F t)) <= off /\
    rd (data P) (slot P t) = F t.

(** Invariant of the walk after [c] iterations over the merged sequence
    [M]: the first [j] entries are in the page being split, the next [k] in
    the new page, which is used only once the threshold is reached; [W]
    bounds the entry lengths. *)
Definition walk_inv (HALF : Z) (fpage npage : Z)
    (rd : Mem -> Z -> list byte) (W : Z -> Z) (M : Z -> list byte)
    (c : nat) (v : SplitVars) : Prop :=
  j v + k v = Z.of_nat c /\ 0 <= j v /\ 0 <= k v /\
  (0 < k v -> HALF <= sum v) /\
  0 <= fEntryOffset v /\ 0 <= nEntryOffset v /\
  fEntryOffset v + nEntryOffset v <= total W c /\
  sum v = fEntryOffset v + nEntryOffset v + 2 * Z.of_nat c /\
  stored rd (pool v fpage) (j v) (fEntryOffset v) M /\
  stored rd (pool v npage) (k v) (nEntryOffset v) (fun t => M (j v + t)).

(** The [entryLen] that iteration [i] of edubtm_SplitInternal computes in
    the branch [s], and the aligned length that bounds it. *)
Definition len_internal (cfg : Layout) (tpage : BtreeInternal) (item : Mem)
    (high : Z) (s : bool) (i : Z) : Z :=
  snd (copy_internal cfg tpage item high s i (fun _ => Byte.x00) 0).

Definition width_internal (cfg : Layout) (tpage : BtreeInternal) (item : Mem)
    (high : Z) (i : Z) : Z :=
  sizeof_ShortPageID + sizeof_Two
  + ALIGNED_LENGTH cfg (merged_klen IE_klen IE_klen tpage item high i).

(** The three components of what a splitter returns. *)
Definition status_of (r : Z * BufferPool * Mem) : Z := fst (fst r).
Definition pool_of (r : Z * BufferPool * Mem) : BufferPool := snd (fst r).
Definition ritem_of (r : Z * BufferPool * Mem) : Mem := snd r.

(** The three calls that precede the redistribution succeed. *)
Definition sibling_pinned (ps : PageStore) : Prop :=
  0 <= AllocPage_status ps /\ 0 <= Init_status ps /\ 0 <= GetTrain_status ps.

(** The buffer that the new page occupies. *)
Definition sibling (ps : PageStore) : Z := pageNo (AllocPage_newPid ps).

(** The variables of edubtm_SplitInternal when its loop ends, for a call
    that has pinned the new page. *)
Definition SplitInternal_walk (cfg : Layout) (ps : PageStore)
    (b : BufferPool) (fpage high : Z) (item : Mem) : SplitVars :=
  let b1 := upd b (sibling ps) (init_page ps (AllocPage_newPid ps)) in
  redistribute (BI_HALF cfg) (copy_internal cfg (b fpage) item high)
    fpage (sibling ps)
    (Z.to_nat (toTwo (nSlots (hdr (b1 fpage)) + 1))) b1.

(** The same for edubtm_SplitLeaf. *)
Definition len_leaf (cfg : Layout) (tpage : BtreeLeaf) (item : Mem)
    (high : Z) (s : bool) (i : Z) : Z :=
  snd (copy_leaf cfg tpage item high s i (fun _ => Byte.x00) 0).

Definition width_leaf (cfg : Layout) (tpage : BtreeLeaf) (item : Mem)
    (high : Z) (i : Z) : Z :=
  2 * sizeof_Two
  + ALIGNED_LENGTH cfg (merged_klen LE_klen (LI_klen cfg) tpage item high i)
  + sizeof_ObjectID cfg.

(** The variables of edubtm_SplitLeaf when its loop ends, for a call that
    has pinned the new page. *)
Definition SplitLeaf_walk (cfg : Layout) (ps : PageStore)
    (b : BufferPool) (fpage high : Z) (item : Mem) : SplitVars :=
  let b1 := upd b (sibling ps) (init_page ps (AllocPage_newPid ps)) in
  redistribute (BL_HALF cfg) (copy_leaf cfg (b fpage) item high)
    fpage (sibling ps)
    (Z.to_nat (toTwo (nSlots (hdr (b1 fpage)) + 1))) b1.

(** The loop variables of a call of edubtm_SplitInternal that has pinned
    the new page, after [n] iterations. *)
Definition SplitInternal_loop (cfg : Layout) (ps : PageStore)
    (b : BufferPool) (fpage high : Z) (item : Mem) (n : nat) : SplitVars :=
  for_loop (SplitInternal_body cfg (b fpage) item high fpage (sibling ps))
    n (split_init (upd b (sibling ps) (init_page ps (AllocPage_newPid ps)))).

Definition SplitLeaf_loop (cfg : Layout) (ps : PageStore)
    (b : BufferPool) (fpage high : Z) (item : Mem) (n : nat) : SplitVars :=
  for_loop (SplitLeaf_body cfg (b fpage) item high fpage (sibling ps))
    n (split_init (upd b (sibling ps) (init_page ps (AllocPage_newPid ps)))).

(** [maxLoop] of such a call. *)
Definition maxLoop_of (ps : PageStore) (b : BufferPool) (fpage : Z) : Z :=
  toTwo (nSlots (hdr (upd b (sibling ps)
                        (init_page ps (AllocPage_newPid ps)) fpage)) + 1).

(** The status of the first of the three preparatory calls that fails. *)
Definition first_failure (ps : PageStore) : Z :=
  if AllocPage_status ps <? 0 then AllocPage_status ps
  else if Init_status ps <? 0 then Init_status ps
  else GetTrain_status ps.

(** The [len] bytes from offset [a] of the entry area of [P] lie below the
    free offset of [P], in the part of the entry area that holds the
    entries of the page. *)
Definition within_entries (P : BtreePage) (a len : Z) : Prop :=
  0 <= a /\ a + len <= free (hdr P).

(** The [Two] that a sequence of bytes starts with. *)
Definition head_Two (l : list byte) : Z := toTwo (le_combine (firstn 2 l)).

(** [a] and [c] are neighbours in the leaf chain of [b]. *)
Definition linked (b : BufferPool) (a c : Z) : Prop :=
  nextPage (hdr (b a)) = c /\ prevPage (hdr (b c)) = a.

(* ------------------------------------------------------------------ *)
(** ** Concrete pages *)

(** Images of entries and items, for building pages. *)
Definition internal_image (spid klen : Z) (kval : list byte) : list byte :=
  le_split 4 spid ++ le_split 2 klen ++ kval.

Definition leaf_image (nObjects klen : Z) (kval oid : list byte)
    : list byte :=
  le_split 2 nObjects ++ le_split 2 klen ++ kval ++ oid.

Definition leaf_item_image (oid : list byte) (nObjects klen : Z)
    (kval : list byte) : list byte :=
  oid ++ le_split 2 nObjects ++ le_split 2 klen ++ kval.

Definition slots_of (offs : list Z) : Z -> Z :=
  fun i => nth (Z.to_nat i) offs 0.

Definition blank_page : BtreePage :=
  {| hdr := {| pid := {| pageNo := NIL; volNo := 0 |}; p0 := NIL;
               nSlots := 0; free := 0; prevPage := NIL; nextPage := NIL |};
     data := fun _ => Byte.x00;
     slot := fun _ => 0 |}.

(** Layout of the examples: a 4-byte alignment unit, 12-byte object
    identifiers at the head of a LeafItem, and the half-fill thresholds of
    a page small enough to overflow with the four keys of the scenarios of
    section 8 of the spec. *)
Definition ex_cfg : Layout :=
  {| ALIGN := 4; BI_HALF := 24; BL_HALF := 44;
     sizeof_ObjectID := 12; sizeof_InternalItem := 264;
     LI_oid := 0; LI_nObjects := 12 |}.

(** The same with the internal threshold of a page that overflows with two
    one-byte keys. *)
Definition ex_cfg_short : Layout :=
  {| ALIGN := 4; BI_HALF := 12; BL_HALF := 44;
     sizeof_ObjectID := 12; sizeof_InternalItem := 264;
     LI_oid := 0; LI_nObjects := 12 |}.

(** The page store hands out page 9; the fresh buffer is full of junk. *)
Definition ex_store : PageStore :=
  {| AllocPage_status := 0; AllocPage_newPid := {| pageNo := 9; volNo := 0 |};
     Init_status := 0; Init_data := fun _ => Byte.xff;
     Init_slot := fun _ => 77; Init_failed := blank_page;
     GetTrain_status := 0; FreeTrain_status := 0 |}.

(** A page store whose allocator fails. *)
Definition ex_store_full : PageStore :=
  {| AllocPage_status := -1; AllocPage_newPid := {| pageNo := 9; volNo := 0 |};
     Init_status := 0; Init_data := fun _ => Byte.xff;
     Init_slot := fun _ => 77; Init_failed := blank_page;
     GetTrain_status := 0; FreeTrain_status := 0 |}.

(** Another page store: page 12, other junk. *)
Definition ex_store' : PageStore :=
  {| AllocPage_status := 0; AllocPage_newPid := {| pageNo := 12; volNo := 0 |};
     Init_status := 0; Init_data := fun _ => Byte.x55;
     Init_slot := fun _ => 3; Init_failed := blank_page;
     GetTrain_status := 0; FreeTrain_status := 0 |}.

Definition key4 (x : Z) : list byte := le_split 4 x.

(** The internal page of the first scenario of section 8 of the spec: keys
    10, 20, 30, 40 with children 110 .. 140, in buffer 1. *)
Definition ex_internal : BtreeInternal :=
  {| hdr := {| pid := {| pageNo := 1; volNo := 0 |}; p0 := 100;
               nSlots := 4; free := 40; prevPage := NIL; nextPage := NIL |};
     data := mem_of (internal_image 110 4 (key4 10)
                     ++ internal_image 120 4 (key4 20)
                     ++ internal_image 130 4 (key4 30)
                     ++ internal_image 140 4 (key4 40));
     slot := slots_of [0; 10; 20; 30] |}.

(** The same entries stored in the opposite physical order, in a page with
    another identifier. *)
Definition ex_internal' : BtreeInternal :=
  {| hdr := {| pid := {| pageNo := 5; volNo := 0 |}; p0 := 100;
               nSlots := 4; free := 40; prevPage := NIL; nextPage := NIL |};
     data := mem_of (internal_image 140 4 (key4 40)
                     ++ internal_image 130 4 (key4 30)
                     ++ internal_image 120 4 (key4 20)
                     ++ internal_image 110 4 (key4 10));
     slot := slots_of [30; 20; 10; 0] |}.

Definition ex_internal_pool : BufferPool :=
  fun q => if q =? 1 then ex_internal else blank_page.

Definition ex_internal_pool' : BufferPool :=
  fun q => if q =? 5 then ex_internal' else blank_page.

(** The new internal item: key 25, child 125. *)
Definition ex_internal_item : Mem := mem_of (internal_image 125 4 (key4 25)).

Definition ex_oid (x : Z) : list byte := le_split 12 x.

(** The leaf page of the second scenario of section 8 of the spec, in
    buffer 1, followed in the leaf chain by page 7. *)
Definition ex_leaf : BtreeLeaf :=
  {| hdr := {| pid := {| pageNo := 1; volNo := 0 |}; p0 := NIL;
               nSlots := 4; free := 80; prevPage := NIL; nextPage := 7 |};
     data := mem_of (leaf_image 1 4 (key4 10) (ex_oid 1010)
                     ++ leaf_image 1 4 (key4 20) (ex_oid 1020)
                     ++ leaf_image 1 4 (key4 30) (ex_oid 1030)
                     ++ leaf_image 1 4 (key4 40) (ex_oid 1040));
     slot := slots_of [0; 20; 40; 60] |}.

(** The same leaf entries in the opposite physical order, in another page
    with other links. *)
Definition ex_leaf' : BtreeLeaf :=
  {| hdr := {| pid := {| pageNo := 5; volNo := 0 |}; p0 := NIL;
               nSlots := 4; free := 80; prevPage := 3; nextPage := NIL |};
     data := mem_of (leaf_image 1 4 (key4 40) (ex_oid 1040)
                     ++ leaf_image 1 4 (key4 30) (ex_oid 1030)
                     ++ leaf_image 1 4 (key4 20) (ex_oid 1020)
                     ++ leaf_image 1 4 (key4 10) (ex_oid 1010));
     slot := slots_of [60; 40; 20; 0] |}.

(** Leaf 7, whose previous-page link names leaf 1. *)
Definition ex_leaf_next : BtreeLeaf :=
  {| hdr := {| pid := {| pageNo := 7; volNo := 0 |}; p0 := NIL;
               nSlots := 1; free := 20; prevPage := 1; nextPage := NIL |};
     data := mem_of (leaf_image 1 4 (key4 50) (ex_oid 1050));
     slot := slots_of [0] |}.

Definition ex_leaf_pool : BufferPool :=
  fun q => if q =? 1 then ex_leaf
           else if q =? 7 then ex_leaf_next else blank_page.

Definition ex_leaf_pool' : BufferPool :=
  fun q => if q =? 5 then ex_leaf' else blank_page.

Definition ex_leaf_item : Mem :=
  mem_of (leaf_item_image (ex_oid 1025) 1 4 (key4 25)).

(** A leaf page whose first entry carries two object identifiers: key 10
    with the objects 1010 and 2010, then the keys 20, 30 and 40 with one
    object each. *)
Definition ex_leaf_two : BtreeLeaf :=
  {| hdr := {| pid := {| pageNo := 1; volNo := 0 |}; p0 := NIL;
               nSlots := 4; free := 92; prevPage := NIL; nextPage := 7 |};
     data := mem_of (leaf_image 2 4 (key4 10) (ex_oid 1010 ++ ex_oid 2010)
                     ++ leaf_image 1 4 (key4 20) (ex_oid 1020)
                     ++ leaf_image 1 4 (key4 30) (ex_oid 1030)
                     ++ leaf_image 1 4 (key4 40) (ex_oid 1040));
     slot := slots_of [0; 32; 52; 72] |}.

Definition ex_leaf_two_pool : BufferPool :=
  fun q => if q =? 1 then ex_leaf_two
           else if q =? 7 then ex_leaf_next else blank_page.

(** A leaf item with key 15, for a second split of leaf 1. *)
Definition ex_leaf_item15 : Mem :=
  mem_of (leaf_item_image (ex_oid 1015) 1 4 (key4 15)).

(** The page store [ex_store] with other junk in the fresh buffer. *)
Definition ex_store_junk : PageStore :=
  {| AllocPage_status := 0; AllocPage_newPid := {| pageNo := 9; volNo := 0 |};
     Init_status := 0; Init_data := fun _ => Byte.x55;
     Init_slot := fun _ => 77; Init_failed := blank_page;
     GetTrain_status := 0; FreeTrain_status := 0 |}.

(** An internal page with two one-byte keys, stored at aligned offsets. *)
Definition ex_short_keys : BtreeInternal :=
  {| hdr := {| pid := {| pageNo := 1; volNo := 0 |}; p0 := 100;
               nSlots := 2; free := 20; prevPage := NIL; nextPage := NIL |};
     data := mem_of (internal_image 110 1 (le_split 4 65)
                     ++ internal_image 120 1 (le_split 4 66));
     slot := slots_of [0; 10] |}.

Definition ex_short_pool : BufferPool :=
  fun q => if q =? 1 then ex_short_keys else blank_page.

Definition ex_short_item : Mem := mem_of (internal_image 130 1 (le_split 4 67)).

Definition no_item : Mem := fun _ => Byte.x00.

(* ------------------------------------------------------------------ *)
(** ** Notions for the layout of the two pages after a split *)

(** [ps] with another answer of BfM_FreeTrain. *)
Definition with_FreeTrain_status (ps : PageStore) (e : Z) : PageStore :=
  {| AllocPage_status := AllocPage_status ps;
     AllocPage_newPid := AllocPage_newPid ps;
     Init_status := Init_status ps;
     Init_data := Init_data ps;
     Init_slot := Init_slot ps;
     Init_failed := Init_failed ps;
     GetTrain_status := GetTrain_status ps;
     FreeTrain_status := e |}.

(** The new page as the splitters find it when they have pinned it. *)
Definition fresh_page (ps : PageStore) : BtreePage :=
  init_page ps (AllocPage_newPid ps).

(** The [cnt] entries of [P] start at the offsets that the lengths [Len]
    add up to, the next entry would start at [off], and [free] records
    that offset once the page holds an entry. *)
Definition packed (P : BtreePage) (cnt off : Z) (Len : Z -> Z) : Prop :=
  off = total Len (Z.to_nat cnt) /\
  (0 < cnt -> free (hdr P) = off) /\
  forall t, 0 <= t < cnt -> slot P t = total Len (Z.to_nat t).

(** [P] differs from [P0] at most in the bytes [0 .. off - 1] of the entry
    area and in the slots [0 .. cnt - 1]. *)
Definition confined (P P0 : BtreePage) (cnt off : Z) : Prop :=
  (forall x, x < 0 \/ off <= x -> data P x = data P0 x) /\
  (forall t, t < 0 \/ cnt <= t -> slot P t = slot P0 t).

(** Invariant of the walk on offsets after [c] iterations, for entry
    lengths [L] bounded by [W], starting from the buffer pool [b]. *)
Definition layout_inv (HALF : Z) (fpage npage : Z) (b : BufferPool)
    (L : bool -> Z -> Z) (W : Z -> Z) (c : nat) (v : SplitVars) : Prop :=
  j v + k v = Z.of_nat c /\ 0 <= j v /\ 0 <= k v /\
  0 <= fEntryOffset v /\ 0 <= nEntryOffset v /\
  fEntryOffset v + nEntryOffset v <= total W c /\
  sum v = fEntryOffset v + nEntryOffset v + 2 * Z.of_nat c /\
  (0 < HALF -> 0 < Z.of_nat c -> 0 < j v) /\
  (0 < j v -> slot (pool v fpage) (j v - 1) + 2 * (j v - 1) < HALF) /\
  (0 < k v -> HALF <= fEntryOffset v + 2 * j v) /\
  packed (pool v fpage) (j v) (fEntryOffset v) (L true) /\
  packed (pool v npage) (k v) (nEntryOffset v) (fun t => L false (j v + t)) /\
  confined (pool v fpage) (b fpage) (j v) (fEntryOffset v) /\
  confined (pool v npage) (b npage) (k v) (nEntryOffset v).

(** The entries of [P] lie one after the other from offset 0 in slot
    order, entry [t] taking [Len t] bytes, and [free] is where the last
    one ends. *)
Definition laid_out (P : BtreePage) (Len : Z -> Z) : Prop :=
  let n := nSlots (hdr P) in
  0 < n ->
  slot P 0 = 0 /\
  (forall t, 0 <= t < n - 1 -> slot P (t + 1) = slot P t + Len t) /\
  free (hdr P) = slot P (n - 1) + Len (n - 1).

(** [laid_out] with the lengths of the entries read from the page itself:
    no gap between two entries. *)
Definition compact (rd : Mem -> Z -> list byte) (P : BtreePage) : Prop :=
  laid_out P (fun t => Z.of_nat (length (rd (data P) (slot P t)))).

(** The key that follows the key-length field at offset [koff]. *)
Definition key_at (d : Mem) (koff : Z) : list byte :=
  read d (koff + sizeof_Two) (get_Two d koff).

(** The size that the first [c] entries of the merged sequence take when
    they all go to the page being split: entry lengths plus one slot
    each. *)
Definition source_fill (cfg : Layout) (leaf : bool) (tpage : BtreePage)
    (item : Mem) (high : Z) (c : nat) : Z :=
  total (fun i => (if leaf then len_leaf cfg tpage item high true i
                   else len_internal cfg tpage item high true i)
                  + sizeof_Two) c.

(** The threshold rule as the two pages show it after the call: the page
    being split received entries as long as what it held, entry bytes plus
    one slot per entry, was below [HALF].  It is not empty when [HALF] is
    positive; without its last entry it is below [HALF]; and it has reached
    [HALF] if the new page received an entry. *)
Definition half_filled (HALF : Z) (F N : BtreePage) : Prop :=
  let j := nSlots (hdr F) in
  (0 < HALF -> 1 <= j) /\
  (1 <= j -> slot F (j - 1) + sizeof_Two * (j - 1) < HALF) /\
  (1 <= j -> 1 <= nSlots (hdr N) ->
   HALF <= free (hdr F) + sizeof_Two * j).

(** [P] differs from [P0] at most in its header, in the slots below its
    slot count and in the bytes below its free offset; a page that holds no
    entry, whose free offset the loop has not set, differs from [P0] at
    most in its header. *)
Definition written_within (P P0 : BtreePage) : Prop :=
  let n := nSlots (hdr P) in
  confined P P0 n (if 0 <? n then free (hdr P) else 0).

(** Every key length of the merged sequence is a multiple of the alignment
    unit. *)
Definition aligned_keys (cfg : Layout) (tpage : BtreeInternal) (item : Mem)
    (high : Z) : bool :=
  forallb (fun t => merged_klen IE_klen IE_klen tpage item high (Z.of_nat t)
                    mod ALIGN cfg =? 0)
          (seq 0 (Z.to_nat (nSlots (hdr tpage) + 1))).

(** Where the new entry [e] is after the split of [P0] into [F] and [N]:
    at slot [high - 1] of [F] when [F] received at least [high] entries,
    otherwise at slot [high - 1 - j] of [N]; the entries in front of it that
    stayed in [F] are at the slots they had in [P0]. *)
Definition item_placed (rd : Mem -> Z -> list byte) (F N P0 : BtreePage)
    (high : Z) (e : list byte) : Prop :=
  let j := nSlots (hdr F) in
  (high <= j -> rd (data F) (slot F (high - 1)) = e) /\
  (j < high -> rd (data N) (slot N (high - 1 - j)) = e) /\
  (forall t, 0 <= t < high - 1 -> t < j ->
     rd (data F) (slot F t) = rd (data P0) (slot P0 t)).

(** Thresholds that the five entries of the examples stay below. *)
Definition ex_cfg_roomy : Layout :=
  {| ALIGN := 4; BI_HALF := 2000; BL_HALF := 2000;
     sizeof_ObjectID := 12; sizeof_InternalItem := 264;
     LI_oid := 0; LI_nObjects := 12 |}.

(** The page store of the examples with a failing BfM_FreeTrain. *)
Definition ex_store_unpin : PageStore := with_FreeTrain_status ex_store (-3).

(** Another internal item: key 77, child 177. *)
Definition ex_internal_item' : Mem := mem_of (internal_image 177 4 (key4 77)).

(** Another leaf item: key 77. *)
Definition ex_leaf_item' : Mem :=
  mem_of (leaf_item_image (ex_oid 1077) 1 4 (key4 77)).

(* ------------------------------------------------------------------ *)
(** ** The k-d tree of [5-KDtree/kdtree.h] and the points of [point.h] *)

(** A shallow embedding of the class templates [Point<N>] and
    [KDTree<N, ElemType>].  A [double] is a binary64 float of the kernel; a
    [Point<N>] is the list of its [N] coordinates; a [Node *] is the tree it
    points to ([NULL] for the null pointer): every node is allocated by the
    tree that links it and is reached through one pointer only.  The [int]
    members [size] and [depth] are carried as [Z]; they stay far below
    INT_MAX for every tree that fits in memory.  [malloc] is taken to
    succeed, as the code takes it. *)
Module KDTree.

Definition double : Type := PrimFloat.float.

(** [Point<N>]: [double coordinates_[N]]. *)
Definition Point : Type := list double.

(** [point[index]]. *)
Definition coord (point : Point) (index : Z) : double :=
  nth (Z.to_nat index) point PrimFloat.zero.

Section KDTree.

(** The template parameters. *)
Variable N : Z.
Variable ElemType : Type.

(** [operator==] of point.h: [std::equal] over the [N] coordinates. *)
Definition Point_eqb (one two : Point) : bool :=
  forallb (fun i => PrimFloat.eqb (coord one (Z.of_nat i))
                                  (coord two (Z.of_nat i)))
          (seq 0 (Z.to_nat N)).

(** [struct Node]. *)
Inductive Node : Type :=
| NULL : Node
| node (point : Point) (value : ElemType) (left_child right_child : Node)
    : Node.

(** [struct Head]. *)
Record Head : Type := { size : Z; root : Node }.

(** [KDTree()]. *)
Definition empty_tree : Head := {| size := 0; root := NULL |}.

(** [empty()]. *)
Definition empty (head : Head) : bool := size head =? 0.

(** [findNode]: the node it returns, [NULL] when there is none. *)
Fixpoint findNode (root : Node) (point : Point) (depth : Z) : Node :=
  match root with
  | NULL => NULL
  | node p v l r =>
      if Point_eqb p point then root
      else
        let index := depth mod N in
        if PrimFloat.ltb (coord point index) (coord p index)
        then findNode l point (depth + 1)
        else findNode r point (depth + 1)
  end.

(** [contains]. *)
Definition contains (head : Head) (point : Point) : bool :=
  match root head with
  | NULL => false
  | _ => match findNode (root head) point 0 with
         | NULL => false
         | _ => true
         end
  end.

(** [at]: [None] stands for the exception [std::out_of_range]. *)
Definition at_point (head : Head) (point : Point) : option ElemType :=
  match root head with
  | NULL => None
  | _ => match findNode (root head) point 0 with
         | NULL => None
         | node _ v _ _ => Some v
         end
  end.

(** [insertNode]: the tree below [root] and [head.size] after the call,
    with the node the call returns a pointer to.  The code dereferences
    [root]: there is no result for a null [root]. *)
Fixpoint insertNode (root : Node) (point : Point) (value : ElemType)
    (depth : Z) (sz : Z) : option (Node * Z * Node) :=
  match root with
  | NULL => None
  | node p v l r =>
      if Point_eqb p point then
        Some (node p value l r, sz, node p value l r)
      else
        let index := depth mod N in
        if PrimFloat.ltb (coord point index) (coord p index) then
          match l with
          | NULL =>
              let fresh := node point value NULL NULL in
              Some (node p v fresh r, sz + 1, fresh)
          | _ =>
              match insertNode l point value (depth + 1) sz with
              | Some (l', sz', ret) => Some (node p v l' r, sz', ret)
              | None => None
              end
          end
        else
          match r with
          | NULL =>
              let fresh := node point value NULL NULL in
              Some (node p v l fresh, sz + 1, fresh)
          | _ =>
              match insertNode r point value (depth + 1) sz with
              | Some (r', sz', ret) => Some (node p v l r', sz', ret)
              | None => None
              end
          end
  end.

(** [insert]. *)
Definition insert (head : Head) (point : Point) (value : ElemType)
    : option Head :=
  match root head with
  | NULL => Some {| size := size head + 1;
                    root := node point value NULL NULL |}
  | _ => match insertNode (root head) point value 0 (size head) with
         | Some (t, sz, _) => Some {| size := sz; root := t |}
         | None => None
         end
  end.

(** [operator[]]: the tree after the call and the element the returned
    reference designates; [dflt] is [ElemType()]. *)
Definition subscript (dflt : ElemType) (head : Head) (point : Point)
    : option (Head * ElemType) :=
  match findNode (root head) point 0 with
  | NULL =>
      match root head with
      | NULL => Some ({| size := size head + 1;
                         root := node point dflt NULL NULL |}, dflt)
      | _ => match insertNode (root head) point dflt 0 (size head) with
             | Some (t, sz, node _ v _ _) =>
                 Some ({| size := sz; root := t |}, v)
             | _ => None
             end
      end
  | node _ v _ _ => Some (head, v)
  end.

(** [node->value] for a node pointer that may be null. *)
Definition value_of (t : Node) : option ElemType :=
  match t with
  | NULL => None
  | node _ v _ _ => Some v
  end.

(** The number of nodes of a tree. *)
Fixpoint count (t : Node) : Z :=
  match t with
  | NULL => 0
  | node _ _ l r => 1 + count l + count r
  end.

(** The points stored in a tree. *)
Fixpoint points (t : Node) : list Point :=
  match t with
  | NULL => []
  | node p _ l r => p :: points l ++ points r
  end.

(** The search order of a tree whose root is at depth [depth]: the points
    of the left subtree of a node are below the point of the node in the
    coordinate of its depth, those of the right subtree are not. *)
Fixpoint ordered (t : Node) (depth : Z) : bool :=
  match t with
  | NULL => true
  | node p _ l r =>
      forallb (fun q => PrimFloat.ltb (coord q (depth mod N))
                                      (coord p (depth mod N)))
              (points l)
      && forallb (fun q => negb (PrimFloat.ltb (coord q (depth mod N))
                                               (coord p (depth mod N))))
                 (points r)
      && ordered l (depth + 1) && ordered r (depth + 1)
  end.

(** No stored point compares equal both to [q] and to [point], and
    [point] does not compare equal to [q]. *)
Definition apart (t : Node) (point q : Point) : bool :=
  negb (Point_eqb point q)
  && forallb (fun r => negb (Point_eqb r q && Point_eqb r point)) (points t).

(** Some coordinate of the point is a NaN. *)
Definition has_nan (point : Point) : bool :=
  existsb (fun i => PrimFloat.is_nan (coord point (Z.of_nat i)))
          (seq 0 (Z.to_nat N)).

(** A run of [insert] calls, in the order of the list. *)
Fixpoint insert_all (head : Head) (l : list (Point * ElemType))
    : option Head :=
  match l with
  | [] => Some head
  | (point, value) :: l' =>
      match insert head point value with
      | Some head' => insert_all head' l'
      | None => None
      end
  end.

End KDTree.

Arguments NULL {ElemType}.
Arguments node {ElemType} point value left_child right_child.
Arguments size {ElemType} _.
Arguments root {ElemType} _.
Arguments empty_tree {ElemType}.
Arguments empty {ElemType} head.
Arguments findNode N {ElemType} root point depth.
Arguments contains N {ElemType} head point.
Arguments at_point N {ElemType} head point.
Arguments insertNode N {ElemType} root point value depth sz.
Arguments insert N {ElemType} head point value.
Arguments subscript N {ElemType} dflt head point.
Arguments value_of {ElemType} t.
Arguments count {ElemType} t.
Arguments points {ElemType} t.
Arguments ordered N {ElemType} t depth.
Arguments apart N {ElemType} t point q.
Arguments insert_all N {ElemType} head l.

End KDTree.

(** Examples: a tree of dimension 2 in search order with three points, two
    further points, and a point with a NaN coordinate. *)
Module KDExamples.

Import PrimFloat.

Definition p34 : KDTree.Point := [3; 4]%float.
Definition p15 : KDTree.Point := [1; 5]%float.
Definition p72 : KDTree.Point := [7; 2]%float.
Definition p44 : KDTree.Point := [4; 4]%float.
Definition pnan : KDTree.Point := [nan; 1]%float.

Definition ex_kd : KDTree.Head Z :=
  {| KDTree.size := 3;
     KDTree.root :=
       KDTree.node p34 1
         (KDTree.node p15 2 KDTree.NULL KDTree.NULL)
         (KDTree.node p72 3 KDTree.NULL KDTree.NULL) |}.

End KDExamples.

(* ================================================================== *)
(** * Proofs *)

(* ------------------------------------------------------------------ *)
(** * Facts about integers and memory areas *)

Lemma toTwo_id (z : Z) : -32768 <= z <= MAX_Two -> toTwo z = z.
Proof.
  intros H. unfold MAX_Two in H. unfold toTwo, swrap.
  change (2 ^ (16 - 1)) with 32768. change (2 ^ 16) with 65536.
  rewrite Z.mod_small; lia.
Qed.

Lemma toFour_id (z : Z) : -2147483648 <= z <= 2147483647 -> toFour z = z.
Proof.
  intros H. unfold toFour, swrap.
  change (2 ^ (32 - 1)) with 2147483648. change (2 ^ 32) with 4294967296.
  rewrite Z.mod_small; lia.
Qed.

Lemma size_t_id (z : Z) : 0 <= z <= MAX_Two -> size_t z = z.
Proof.
  intros H. unfold size_t. apply Z.mod_small.
  unfold MAX_Two in H. change (2 ^ 64) with 18446744073709551616. lia.
Qed.

Lemma toTwo_range (z : Z) : -32768 <= toTwo z <= MAX_Two.
Proof.
  unfold toTwo, swrap, MAX_Two.
  change (2 ^ (16 - 1)) with 32768. change (2 ^ 16) with 65536.
  pose proof (Z.mod_pos_bound (z + 32768) 65536). lia.
Qed.

Lemma read_length (m : Mem) (a n : Z) : length (read m a n) = Z.to_nat n.
Proof. unfold read. now rewrite length_map, length_seq. Qed.

Lemma read_ext (m1 m2 : Mem) (a n : Z) :
  (forall x, a <= x < a + n -> m1 x = m2 x) -> read m1 a n = read m2 a n.
Proof.
  intros H. unfold read. apply map_ext_in. intros i Hi.
  apply in_seq in Hi. apply H. lia.
Qed.

Lemma seq_from_0 (s n : nat) :
  seq s n = map (fun i => (s + i)%nat) (seq 0 n).
Proof.
  revert s. induction n as [|n IH]; intros s; simpl; [reflexivity|].
  f_equal; [lia|]. rewrite <- (seq_shift n 0), map_map, (IH (S s)).
  apply map_ext. intros; lia.
Qed.

Lemma read_app (m : Mem) (a n1 n2 : Z) :
  0 <= n1 -> 0 <= n2 ->
  read m a (n1 + n2) = read m a n1 ++ read m (a + n1) n2.
Proof.
  intros H1 H2. unfold read.
  rewrite Z2Nat.inj_add, seq_app, map_app by lia. f_equal.
  simpl. rewrite seq_from_0, map_map. apply map_ext.
  intros i. f_equal. lia.
Qed.

Lemma memcpy_in (dst : Mem) (d : Z) (src : Mem) (s n x : Z) :
  d <= x < d + n -> memcpy dst d src s n x = src (s + (x - d)).
Proof.
  intros H. unfold memcpy.
  destruct (Z.leb_spec d x); destruct (Z.ltb_spec x (d + n)); simpl;
    try lia; reflexivity.
Qed.

Lemma memcpy_out (dst : Mem) (d : Z) (src : Mem) (s n x : Z) :
  x < d \/ d + n <= x -> memcpy dst d src s n x = dst x.
Proof.
  intros H. unfold memcpy.
  destruct (Z.leb_spec d x); destruct (Z.ltb_spec x (d + n)); simpl;
    try lia; reflexivity.
Qed.

Lemma read_memcpy (dst : Mem) (d : Z) (src : Mem) (s n n' : Z) :
  n' <= n -> read (memcpy dst d src s n) d n' = read src s n'.
Proof.
  intros H. unfold read. apply map_ext_in. intros i Hi.
  apply in_seq in Hi. rewrite memcpy_in by lia. f_equal. lia.
Qed.

Lemma get_Two_ext (m1 m2 : Mem) (a : Z) :
  (forall x, a <= x < a + 2 -> m1 x = m2 x) -> get_Two m1 a = get_Two m2 a.
Proof.
  intros H. unfold get_Two. f_equal. f_equal. now apply read_ext.
Qed.

Lemma get_Two_range (m : Mem) (a : Z) : -32768 <= get_Two m a <= MAX_Two.
Proof. apply toTwo_range. Qed.

Lemma upd_same (b : BufferPool) (ptr : Z) (p : BtreePage) :
  upd b ptr p ptr = p.
Proof. unfold upd. now rewrite Z.eqb_refl. Qed.

Lemma upd_other (b : BufferPool) (ptr q : Z) (p : BtreePage) :
  q <> ptr -> upd b ptr p q = b q.
Proof.
  intros H. unfold upd.
  destruct (Z.eqb_spec q ptr); [contradiction|reflexivity].
Qed.

Lemma total_nonneg (W : Z -> Z) (n : nat) :
  (forall i, 0 <= i < Z.of_nat n -> 0 <= W i) -> 0 <= total W n.
Proof.
  induction n as [|n IH]; intros H; simpl; [lia|].
  assert (0 <= total W n) by (apply IH; intros; apply H; lia).
  assert (0 <= W (Z.of_nat n)) by (apply H; lia). lia.
Qed.

Lemma total_mono (W : Z -> Z) (n m : nat) :
  (forall i, 0 <= i < Z.of_nat m -> 0 <= W i) ->
  (n <= m)%nat -> total W n <= total W m.
Proof.
  intros HW Hle. induction Hle as [|m Hle IH]; [lia|].
  simpl. assert (0 <= W (Z.of_nat m)) by (apply HW; lia).
  assert (total W n <= total W m) by (apply IH; intros; apply HW; lia). lia.
Qed.

Lemma total_ext (W1 W2 : Z -> Z) (n : nat) :
  (forall i, 0 <= i < Z.of_nat n -> W1 i = W2 i) -> total W1 n = total W2 n.
Proof.
  induction n as [|n IH]; intros H; simpl; [reflexivity|].
  rewrite IH, (H (Z.of_nat n)) by (intros; try apply H; lia). reflexivity.
Qed.

(* ------------------------------------------------------------------ *)
(** * Facts about the walk that hold for every input *)

Section WalkFacts.

Variable HALF : Z.
Variable copy : bool -> Z -> Mem -> Z -> Mem * Z.
Variables fpage npage : Z.

Local Abbreviation body := (redistribute_body HALF copy fpage npage).
Local Abbreviation walk := (redistribute HALF copy fpage npage).

Lemma hdr_agree_refl (h : BtreePageHdr) : hdr_agree h h.
Proof. repeat split. Qed.

Lemma hdr_agree_trans (h1 h2 h3 : BtreePageHdr) :
  hdr_agree h1 h2 -> hdr_agree h2 h3 -> hdr_agree h1 h3.
Proof. unfold hdr_agree. intuition congruence. Qed.

Ltac walk_step v :=
  unfold redistribute_body;
  destruct (sum v <? HALF) eqn:Hsum;
  [ destruct (copy true _ (data (pool v fpage)) (fEntryOffset v))
      as [d len] eqn:Hcopy
  | destruct (copy false _ (data (pool v npage)) (nEntryOffset v))
      as [d len] eqn:Hcopy ];
  cbn [pool j k sum fEntryOffset nEntryOffset].

Lemma body_frame (i : Z) (v : SplitVars) (q : Z) :
  q <> fpage -> q <> npage -> pool (body i v) q = pool v q.
Proof. intros Hf Hn. walk_step v; now rewrite upd_other. Qed.

Lemma body_hdr (i : Z) (v : SplitVars) (q : Z) :
  hdr_agree (hdr (pool v q)) (hdr (pool (body i v) q)).
Proof.
  unfold hdr_agree.
  walk_step v; unfold upd;
    [ destruct (Z.eqb_spec q fpage) as [->|]
    | destruct (Z.eqb_spec q npage) as [->|] ];
    repeat split.
Qed.

Lemma body_counts (i : Z) (v : SplitVars) :
  j (body i v) + k (body i v) = j v + k v + 1 /\
  j v <= j (body i v) /\ k v <= k (body i v).
Proof. walk_step v; lia. Qed.

Lemma body_sibling (i : Z) (v : SplitVars) :
  HALF <= sum v -> k (body i v) = k v + 1.
Proof.
  intros H. walk_step v; [|reflexivity].
  apply Z.ltb_lt in Hsum. lia.
Qed.

Lemma walk_frame (n : nat) (b : BufferPool) (q : Z) :
  q <> fpage -> q <> npage -> pool (walk n b) q = b q.
Proof.
  intros Hf Hn. induction n as [|n IH]; [reflexivity|].
  unfold redistribute in *. simpl. now rewrite body_frame.
Qed.

Lemma walk_hdr (n : nat) (b : BufferPool) (q : Z) :
  hdr_agree (hdr (b q)) (hdr (pool (walk n b) q)).
Proof.
  induction n as [|n IH]; [apply hdr_agree_refl|].
  unfold redistribute in *. simpl.
  eapply hdr_agree_trans; [exact IH|apply body_hdr].
Qed.

Lemma walk_counts (n : nat) (b : BufferPool) :
  j (walk n b) + k (walk n b) = Z.of_nat n /\
  0 <= j (walk n b) /\ 0 <= k (walk n b).
Proof.
  induction n as [|n IH]; [simpl; lia|].
  unfold redistribute in *. cbn [for_loop].
  pose proof (body_counts (Z.of_nat n)
                (for_loop body n (split_init b))). lia.
Qed.

Lemma walk_k_mono (n1 n2 : nat) (b : BufferPool) :
  (n1 <= n2)%nat -> k (walk n1 b) <= k (walk n2 b).
Proof.
  intros H. induction H as [|n2 H IH]; [lia|].
  unfold redistribute in *. cbn [for_loop].
  pose proof (body_counts (Z.of_nat n2)
                (for_loop body n2 (split_init b))). lia.
Qed.

(** Once the running size has reached the threshold with an iteration
    still to come, that iteration goes to the new page. *)
Lemma walk_sibling_nonempty (c n : nat) (b : BufferPool) :
  (S c < n)%nat -> HALF <= sum (walk (S c) b) -> 1 <= k (walk n b).
Proof.
  intros Hc Hsum.
  assert (H1 : 1 <= k (walk (S (S c)) b)).
  { unfold redistribute in *. cbn [for_loop] in *.
    rewrite body_sibling by exact Hsum.
    pose proof (walk_counts (S c) b) as Hk. unfold redistribute in Hk.
    cbn [for_loop] in Hk. lia. }
  pose proof (walk_k_mono (S (S c)) n b). lia.
Qed.

(** The first entry of the new page is written at offset 0 and slot 0
    records it. *)
Lemma walk_sibling_slot0 (n : nat) (b : BufferPool) :
  fpage <> npage ->
  (k (walk n b) = 0 -> nEntryOffset (walk n b) = 0) /\
  (1 <= k (walk n b) -> slot (pool (walk n b) npage) 0 = 0).
Proof.
  intros Hne. induction n as [|n IH]; [simpl; split; [reflexivity|lia]|].
  unfold redistribute in *. cbn [for_loop].
  pose proof (walk_counts n b) as Hc. unfold redistribute in Hc.
  set (v := for_loop body n (split_init b)) in *.
  destruct IH as [IH0 IH1].
  walk_step v.
  - rewrite upd_other by congruence. split; assumption.
  - rewrite upd_same. cbn [slot set_hdr set_slot set_data]. split; [lia|].
    intros _. destruct (Z.eqb_spec 0 (k v)) as [E|E].
    + apply IH0. lia.
    + apply IH1. lia.
Qed.

(** The integer variables evolve on their own. *)
Lemma walk_counters (L : bool -> Z -> Z) (m n : nat) (b : BufferPool) :
  (forall s i d off, 0 <= i < Z.of_nat m -> snd (copy s i d off) = L s i) ->
  (n <= m)%nat -> counters (walk n b) = plan HALF L n.
Proof.
  intros HL Hn. induction n as [|n IH]; [reflexivity|].
  unfold redistribute, plan in *. cbn [for_loop].
  rewrite <- IH by lia. set (v := for_loop body n (split_init b)).
  unfold plan_body, counters at 2. cbv beta iota.
  walk_step v; unfold counters; cbn [pool j k sum fEntryOffset nEntryOffset];
    match goal with
    | H : copy ?s ?i ?dd ?o = (_, _) |- _ =>
        pose proof (HL s i dd o) as E; rewrite H in E; simpl in E;
        rewrite E by lia
    end; reflexivity.
Qed.

Lemma plan_ext (L1 L2 : bool -> Z -> Z) (n : nat) :
  (forall s i, 0 <= i < Z.of_nat n -> L1 s i = L2 s i) ->
  plan HALF L1 n = plan HALF L2 n.
Proof.
  induction n as [|n IH]; intros H; [reflexivity|].
  unfold plan in *. cbn [for_loop]. rewrite IH by (intros; apply H; lia).
  unfold plan_body. destruct (for_loop _ n _) as [[[[cj ck] cs] cf] cn].
  rewrite !(H _ (Z.of_nat n)) by lia. reflexivity.
Qed.

End WalkFacts.

Section WalkContent.

Variable HALF : Z.
Variable copy : bool -> Z -> Mem -> Z -> Mem * Z.
Variables fpage npage : Z.
Variable rd : Mem -> Z -> list byte.
Variable m : nat.
Variable L : bool -> Z -> Z.
Variable W : Z -> Z.
Variable M : Z -> list byte.

Hypothesis Hne : fpage <> npage.
Hypothesis Hm : Z.of_nat m <= MAX_Two.
Hypothesis Hfit : total W m <= MAX_Two.
Hypothesis copy_len : forall s i d off,
  0 <= i < Z.of_nat m -> snd (copy s i d off) = L s i.
Hypothesis copy_frame : forall s i d off x,
  0 <= i < Z.of_nat m -> x < off \/ off + L s i <= x ->
  fst (copy s i d off) x = d x.
Hypothesis copy_rd : forall s i d off,
  0 <= i < Z.of_nat m -> rd (fst (copy s i d off)) off = M i.
Hypothesis rd_local : forall i d1 d2 off,
  0 <= i < Z.of_nat m -> rd d1 off = M i ->
  (forall x, off <= x < off + Z.of_nat (length (M i)) -> d2 x = d1 x) ->
  rd d2 off = M i.
Hypothesis len_bounds : forall s i,
  0 <= i < Z.of_nat m -> Z.of_nat (length (M i)) <= L s i <= W i.

Local Abbreviation body := (redistribute_body HALF copy fpage npage).
Local Abbreviation walk := (redistribute HALF copy fpage npage).

Lemma W_nonneg (i : Z) : 0 <= i < Z.of_nat m -> 0 <= W i.
Proof. intros H. pose proof (len_bounds true i H). lia. Qed.

Lemma total_le_max (c : nat) : (c <= m)%nat -> total W c <= MAX_Two.
Proof.
  intros H. pose proof (total_mono W c m W_nonneg H). lia.
Qed.

Lemma stored_append (P : BtreePage) (cnt off : Z) (F : Z -> list byte)
    (s : bool) (i : Z) (h : BtreePageHdr) :
  stored rd P cnt off F -> 0 <= i < Z.of_nat m -> F cnt = M i ->
  (forall t, 0 <= t < cnt -> exists i', 0 <= i' < Z.of_nat m /\ F t = M i') ->
  stored rd
    (set_hdr (set_slot (set_data P (fst (copy s i (data P) off))) cnt off) h)
    (cnt + 1) (off + L s i) F.
Proof.
  intros HP Hi HF Hidx t Ht. cbn [set_hdr set_slot set_data slot data].
  pose proof (len_bounds s i Hi) as HL.
  destruct (Z.eqb_spec t cnt) as [->|Hneq].
  - rewrite HF. split; [lia|]. now apply copy_rd.
  - destruct (HP t) as [Hoff Hrd]; [lia|]. split; [lia|].
    destruct (Hidx t) as (i' & Hi' & E); [lia|]. rewrite E in *.
    apply (rd_local i' (data P)); [exact Hi'|exact Hrd|].
    intros x Hx. apply copy_frame; [exact Hi|]. lia.
Qed.

Lemma walk_inv_step (c : nat) (v : SplitVars) :
  (c < m)%nat ->
  walk_inv HALF fpage npage rd W M c v ->
  walk_inv HALF fpage npage rd W M (S c) (body (Z.of_nat c) v).
Proof.
  intros Hc (Hjk & Hj & Hk & Hhalf & Hf & Hn & Htot & Hs & HF & HN).
  assert (Hi : 0 <= Z.of_nat c < Z.of_nat m) by lia.
  pose proof (total_le_max (S c) ltac:(lia)) as Hmax. simpl in Hmax.
  unfold MAX_Two in *.
  unfold redistribute_body, walk_inv.
  destruct (sum v <? HALF) eqn:Hsum.
  - apply Z.ltb_lt in Hsum.
    assert (Hk0 : k v = 0) by lia.
    pose proof (copy_len true _ (data (pool v fpage)) (fEntryOffset v) Hi)
      as El.
    pose proof (len_bounds true _ Hi) as HL.
    pose proof (stored_append (pool v fpage) (j v) (fEntryOffset v) M true
                  (Z.of_nat c)) as Happ.
    destruct (copy true (Z.of_nat c) (data (pool v fpage)) (fEntryOffset v))
      as [d len].
    cbn [fst snd] in *. subst len.
    cbn [pool j k sum fEntryOffset nEntryOffset].
    rewrite toTwo_id, toFour_id by (unfold MAX_Two, sizeof_Two; lia).
    rewrite upd_same, upd_other by congruence.
    unfold sizeof_Two.
    change (total W (S c)) with (total W c + W (Z.of_nat c)).
    do 8 (split; [lia|]). split.
    + apply Happ; [exact HF|exact Hi|f_equal; lia|].
      intros t Ht. exists t. split; [lia|reflexivity].
    + intros t Ht. lia.
  - apply Z.ltb_ge in Hsum.
    pose proof (copy_len false _ (data (pool v npage)) (nEntryOffset v) Hi)
      as El.
    pose proof (len_bounds false _ Hi) as HL.
    pose proof (stored_append (pool v npage) (k v) (nEntryOffset v)
                  (fun t => M (j v + t)) false (Z.of_nat c)) as Happ.
    destruct (copy false (Z.of_nat c) (data (pool v npage)) (nEntryOffset v))
      as [d len].
    cbn [fst snd] in *. subst len.
    cbn [pool j k sum fEntryOffset nEntryOffset].
    rewrite toTwo_id, toFour_id by (unfold MAX_Two, sizeof_Two; lia).
    rewrite upd_same, upd_other by congruence.
    unfold sizeof_Two.
    change (total W (S c)) with (total W c + W (Z.of_nat c)).
    do 8 (split; [lia|]). split.
    + exact HF.
    + apply Happ; [exact HN|exact Hi|f_equal; lia|].
      intros t Ht. exists (j v + t). split; [lia|reflexivity].
Qed.

Lemma walk_content (c : nat) (b : BufferPool) :
  (c <= m)%nat -> walk_inv HALF fpage npage rd W M c (walk c b).
Proof.
  intros Hc. induction c as [|c IH].
  - unfold walk_inv, stored. simpl. do 8 (split; [lia|]). split; intros; lia.
  - unfold redistribute in *. cbn [for_loop].
    apply walk_inv_step; [lia|]. apply IH. lia.
Qed.

Lemma stored_entries (P : BtreePage) (n : nat) (off : Z)
    (F : Z -> list byte) :
  stored rd P (Z.of_nat n) off F ->
  entries_upto rd P n = map (fun t => F (Z.of_nat t)) (seq 0 n).
Proof.
  intros H. unfold entries_upto. apply map_ext_in. intros t Ht.
  apply in_seq in Ht. apply H. lia.
Qed.

(** The page being split holds the first [j] entries of the merged
    sequence, the new page the remaining [k], in order. *)
Lemma walk_entries (b : BufferPool) :
  let v := walk m b in
  entries_upto rd (pool v fpage) (Z.to_nat (j v))
    = map (fun t => M (Z.of_nat t)) (seq 0 (Z.to_nat (j v))) /\
  entries_upto rd (pool v npage) (Z.to_nat (k v))
    = map (fun t => M (Z.of_nat t)) (seq (Z.to_nat (j v)) (Z.to_nat (k v))) /\
  (Z.to_nat (j v) + Z.to_nat (k v))%nat = m.
Proof.
  intros v.
  destruct (walk_content m b (le_n m))
    as (Hjk & Hj & Hk & _ & _ & _ & _ & _ & HF & HN).
  fold v in Hjk, Hj, Hk, HF, HN.
  split; [|split; [|lia]].
  - apply (stored_entries _ _ (fEntryOffset v)). now rewrite Z2Nat.id.
  - rewrite (stored_entries _ _ (nEntryOffset v) (fun t => M (j v + t)))
      by now rewrite Z2Nat.id.
    rewrite (seq_from_0 (Z.to_nat (j v))), map_map. apply map_ext.
    intros t. f_equal. lia.
Qed.

Lemma walk_entries_app (b : BufferPool) :
  let v := walk m b in
  entries_upto rd (pool v fpage) (Z.to_nat (j v))
  ++ entries_upto rd (pool v npage) (Z.to_nat (k v))
    = map (fun t => M (Z.of_nat t)) (seq 0 m).
Proof.
  intros v. destruct (walk_entries b) as (E1 & E2 & E3). fold v in E1, E2, E3.
  rewrite E1, E2, <- map_app, <- seq_app, E3. reflexivity.
Qed.

End WalkContent.

Lemma for_loop_ext {S : Type} (f g : Z -> S -> S) (n : nat) (s : S) :
  (forall i x, f i x = g i x) -> for_loop f n s = for_loop g n s.
Proof.
  intros H. induction n as [|n IH]; simpl; [reflexivity|].
  now rewrite IH, H.
Qed.

Lemma ALIGNED_LENGTH_ge (cfg : Layout) (x : Z) :
  0 < ALIGN cfg -> x <= ALIGNED_LENGTH cfg x.
Proof.
  intros H. unfold ALIGNED_LENGTH.
  destruct (x mod ALIGN cfg =? 0); [lia|].
  pose proof (Z.mod_pos_bound x (ALIGN cfg) H). lia.
Qed.

Lemma total_ge_term (W : Z -> Z) (n : nat) (i : Z) :
  (forall t, 0 <= t < Z.of_nat n -> 0 <= W t) ->
  0 <= i < Z.of_nat n -> W i <= total W n.
Proof.
  induction n as [|n IH]; intros HW Hi; [lia|]. simpl.
  assert (0 <= W (Z.of_nat n)) by (apply HW; lia).
  assert (0 <= total W n) by (apply total_nonneg; intros; apply HW; lia).
  destruct (Z.eq_dec i (Z.of_nat n)) as [->|Hne]; [lia|].
  assert (W i <= total W n) by (apply IH; [intros; apply HW|]; lia). lia.
Qed.

Section InternalFacts.

Variable cfg : Layout.
Local Abbreviation ALIGN := (ALIGN cfg).
Local Abbreviation BI_HALF := (BI_HALF cfg).
Local Abbreviation BL_HALF := (BL_HALF cfg).
Local Abbreviation sizeof_ObjectID := (sizeof_ObjectID cfg).
Local Abbreviation sizeof_InternalItem := (sizeof_InternalItem cfg).
Local Abbreviation LI_oid := (LI_oid cfg).
Local Abbreviation LI_nObjects := (LI_nObjects cfg).
Hypothesis ALIGN_pos : 0 < ALIGN.

Lemma SplitInternal_body_walk (tpage : BtreeInternal) (item : Mem)
    (high fpage npage i : Z) (v : SplitVars) :
  SplitInternal_body cfg tpage item high fpage npage i v
  = redistribute_body BI_HALF (copy_internal cfg tpage item high)
      fpage npage i v.
Proof.
  unfold SplitInternal_body, redistribute_body, copy_internal.
  destruct (sum v <? BI_HALF); destruct (i + 1 <? high);
    try destruct (i + 1 =? high); reflexivity.
Qed.

Variable tpage : BtreeInternal.
Variable item : Mem.
Variable high : Z.
Hypothesis Hvalid : valid_internal_split cfg tpage item high = true.

Local Abbreviation n := (nSlots (hdr tpage)).
Local Abbreviation mk := (merged_klen IE_klen IE_klen tpage item high).
Local Abbreviation m := (Z.to_nat (n + 1)).

Lemma valid_internal_n : 0 <= n < MAX_Two.
Proof.
  unfold valid_internal_split in Hvalid.
  rewrite !andb_true_iff in Hvalid. 
  destruct Hvalid as [[[[[? ?] ?] ?] ?] ?]. lia.
Qed.

Lemma valid_internal_high : 1 <= high <= n + 1.
Proof.
  unfold valid_internal_split in Hvalid.
  rewrite !andb_true_iff in Hvalid. 
  destruct Hvalid as [[[[[? ?] ?] ?] ?] ?]. lia.
Qed.

Lemma valid_internal_klen (i : Z) : 0 <= i < Z.of_nat m -> 0 <= mk i.
Proof.
  intros Hi. unfold valid_internal_split in Hvalid.
  rewrite !andb_true_iff in Hvalid. 
  destruct Hvalid as [[_ Hk] _].
  rewrite forallb_forall in Hk.
  specialize (Hk (Z.to_nat i)). rewrite Z2Nat.id in Hk by lia.
  apply Z.leb_le, Hk, in_seq. lia.
Qed.

Lemma valid_internal_total :
  total (width_internal cfg tpage item high) m <= MAX_Two.
Proof.
  unfold valid_internal_split in Hvalid.
  rewrite !andb_true_iff in Hvalid. 
  destruct Hvalid as [_ Ht]. apply Z.leb_le in Ht. exact Ht.
Qed.

Lemma width_internal_bounds (i : Z) :
  0 <= i < Z.of_nat m ->
  6 + mk i <= width_internal cfg tpage item high i <= MAX_Two.
Proof.
  intros Hi. 
  assert (Hlow : forall t, 0 <= t < Z.of_nat m ->
            6 + mk t <= width_internal cfg tpage item high t).
  { intros t Ht. unfold width_internal, sizeof_ShortPageID, sizeof_Two.
    pose proof (ALIGNED_LENGTH_ge cfg (mk t) ALIGN_pos). lia. }
  split; [now apply Hlow|].
  pose proof valid_internal_total.
  pose proof (total_ge_term (width_internal cfg tpage item high) m i) as H1.
  assert (width_internal cfg tpage item high i
          <= total (width_internal cfg tpage item high) m); [|lia].
  apply H1; [|exact Hi]. intros t Ht.
  pose proof (Hlow t Ht). pose proof (valid_internal_klen t Ht). lia.
Qed.

Lemma len_internal_bounds (s : bool) (i : Z) :
  0 <= i < Z.of_nat m ->
  6 + mk i <= len_internal cfg tpage item high s i
           <= width_internal cfg tpage item high i.
Proof.
  intros Hi. pose proof (width_internal_bounds i Hi) as Hw.
  pose proof (valid_internal_klen i Hi) as Hk.
  unfold len_internal, copy_internal, width_internal, merged_klen in *.
  unfold sizeof_ShortPageID, sizeof_Two, MAX_Two in *.
  destruct (i + 1 <? high); [|destruct (i + 1 =? high); [destruct s|]];
    cbn [snd]; rewrite toTwo_id by (unfold MAX_Two; lia); lia.
Qed.

Lemma merged_internal_length (i : Z) :
  0 <= i < Z.of_nat m ->
  Z.of_nat (length (merged_internal tpage item high i)) = 6 + mk i.
Proof.
  intros Hi. pose proof (valid_internal_klen i Hi) as Hk.
  revert Hk. unfold merged_internal, merged_klen, InternalEntry_at.
  unfold sizeof_ShortPageID, sizeof_Two, IE_klen.
  destruct (i + 1 <? high); [|destruct (i + 1 =? high)];
    intros Hk; rewrite read_length, ?Z.add_0_l; lia.
Qed.

Lemma InternalEntry_at_ext (d1 d2 : Mem) (off : Z) :
  0 <= get_Two d1 (off + IE_klen) ->
  (forall x, off <= x < off + (6 + get_Two d1 (off + IE_klen)) ->
     d2 x = d1 x) ->
  InternalEntry_at d2 off = InternalEntry_at d1 off.
Proof.
  intros Hk H.
  unfold InternalEntry_at, IE_klen, sizeof_ShortPageID, sizeof_Two in *.
  assert (E : get_Two d2 (off + 4) = get_Two d1 (off + 4)).
  { apply get_Two_ext. intros x Hx. apply H. lia. }
  rewrite E. apply read_ext. intros x Hx. apply H. lia.
Qed.

Lemma InternalEntry_at_klen (d : Mem) (off : Z) (e : list byte) :
  InternalEntry_at d off = e -> 6 <= Z.of_nat (length e) ->
  get_Two d (off + IE_klen) = Z.of_nat (length e) - 6.
Proof.
  intros <- H. unfold InternalEntry_at, sizeof_ShortPageID, sizeof_Two in *.
  rewrite read_length in *. lia.
Qed.

Lemma copy_internal_len (s : bool) (i : Z) (d : Mem) (off : Z) :
  snd (copy_internal cfg tpage item high s i d off)
  = len_internal cfg tpage item high s i.
Proof.
  unfold len_internal, copy_internal.
  destruct (i + 1 <? high); [|destruct (i + 1 =? high)]; cbn [snd];
    reflexivity.
Qed.

Lemma copy_internal_frame (s : bool) (i : Z) (d : Mem) (off x : Z) :
  0 <= i < Z.of_nat m ->
  x < off \/ off + len_internal cfg tpage item high s i <= x ->
  fst (copy_internal cfg tpage item high s i d off) x = d x.
Proof.
  intros Hi. pose proof (len_internal_bounds s i Hi) as Hl.
  pose proof (width_internal_bounds i Hi) as Hw.
  pose proof (valid_internal_klen i Hi) as Hk.
  revert Hl. unfold len_internal, copy_internal.
  destruct (i + 1 <? high); [|destruct (i + 1 =? high)]; cbn [fst snd];
    intros Hl H; rewrite size_t_id by lia; now apply memcpy_out.
Qed.

Lemma InternalEntry_at_memcpy (d : Mem) (off : Z) (src : Mem) (so len : Z) :
  0 <= get_Two src (so + IE_klen) ->
  6 + get_Two src (so + IE_klen) <= len ->
  InternalEntry_at (memcpy d off src so len) off = InternalEntry_at src so.
Proof.
  intros Hk Hl.
  assert (E : get_Two (memcpy d off src so len) (off + IE_klen)
              = get_Two src (so + IE_klen)).
  { unfold get_Two. f_equal. f_equal.
    unfold IE_klen, sizeof_ShortPageID, sizeof_Two in *.
    apply map_ext_in. intros t Ht. apply in_seq in Ht.
    rewrite memcpy_in by lia. f_equal. lia. }
  unfold InternalEntry_at at 1. rewrite E.
  unfold InternalEntry_at, sizeof_ShortPageID, sizeof_Two.
  apply read_memcpy. lia.
Qed.

Lemma copy_internal_rd (s : bool) (i : Z) (d : Mem) (off : Z) :
  0 <= i < Z.of_nat m ->
  InternalEntry_at (fst (copy_internal cfg tpage item high s i d off)) off
  = merged_internal tpage item high i.
Proof.
  intros Hi. pose proof (len_internal_bounds s i Hi) as Hl.
  pose proof (width_internal_bounds i Hi) as Hw.
  pose proof (valid_internal_klen i Hi) as Hk.
  revert Hl Hk.
  unfold len_internal, copy_internal, merged_internal, merged_klen.
  destruct (i + 1 <? high); [|destruct (i + 1 =? high)]; cbn [fst snd];
    intros Hl Hk; rewrite size_t_id by lia;
    apply InternalEntry_at_memcpy; rewrite ?Z.add_0_l; lia.
Qed.

Lemma internal_rd_local (i : Z) (d1 d2 : Mem) (off : Z) :
  0 <= i < Z.of_nat m ->
  InternalEntry_at d1 off = merged_internal tpage item high i ->
  (forall x, off <= x < off
             + Z.of_nat (length (merged_internal tpage item high i)) ->
             d2 x = d1 x) ->
  InternalEntry_at d2 off = merged_internal tpage item high i.
Proof.
  intros Hi E H. pose proof (merged_internal_length i Hi) as Hlen.
  pose proof (valid_internal_klen i Hi) as Hk.
  pose proof (InternalEntry_at_klen d1 off _ E ltac:(lia)) as Hk1.
  rewrite <- E. apply InternalEntry_at_ext; [lia|].
  intros x Hx. apply H. lia.
Qed.

End InternalFacts.

Lemma insert_at_app {A : Type} (x : A) (l1 l2 : list A) :
  insert_at (length l1) x (l1 ++ l2) = l1 ++ x :: l2.
Proof.
  unfold insert_at.
  rewrite firstn_app, firstn_all, Nat.sub_diag, skipn_app, skipn_all,
    Nat.sub_diag.
  simpl. now rewrite app_nil_r.
Qed.

Lemma merged_is_insert {A : Type} (f : Z -> A) (x : A) (M : Z -> A)
    (n high : Z) :
  0 <= n -> 1 <= high <= n + 1 ->
  (forall i, 0 <= i < n + 1 ->
     M i = if i + 1 <? high then f i
           else if i + 1 =? high then x else f (i - 1)) ->
  map (fun t => M (Z.of_nat t)) (seq 0 (Z.to_nat (n + 1)))
  = insert_at (Z.to_nat (high - 1)) x
      (map (fun t => f (Z.of_nat t)) (seq 0 (Z.to_nat n))).
Proof.
  intros Hn Hh HM.
  set (h := Z.to_nat (high - 1)).
  replace (Z.to_nat (n + 1)) with (h + S (Z.to_nat n - h))%nat by lia.
  replace (Z.to_nat n) with (h + (Z.to_nat n - h))%nat at 2 by lia.
  rewrite !seq_app, !map_app. cbn [seq map app].
  match goal with
  | |- _ = insert_at h x (?l1 ++ ?l2) =>
      replace (insert_at h x (l1 ++ l2)) with (l1 ++ x :: l2)
  end.
  2:{ rewrite <- insert_at_app. f_equal. now rewrite length_map, length_seq. }
  f_equal; [|f_equal].
  - apply map_ext_in. intros t Ht. apply in_seq in Ht.
    rewrite HM by lia.
    destruct (Z.ltb_spec (Z.of_nat t + 1) high); [reflexivity|lia].
  - rewrite HM by lia.
    destruct (Z.ltb_spec (Z.of_nat (0 + h) + 1) high); [lia|].
    destruct (Z.eqb_spec (Z.of_nat (0 + h) + 1) high); [reflexivity|lia].
  - rewrite <- seq_shift, map_map. apply map_ext_in. intros t Ht.
    apply in_seq in Ht. rewrite HM by lia.
    destruct (Z.ltb_spec (Z.of_nat (S t) + 1) high); [lia|].
    destruct (Z.eqb_spec (Z.of_nat (S t) + 1) high); [lia|].
    f_equal. lia.
Qed.

Section InternalSplit.

Variable cfg : Layout.
Local Abbreviation ALIGN := (ALIGN cfg).
Local Abbreviation BI_HALF := (BI_HALF cfg).
Local Abbreviation BL_HALF := (BL_HALF cfg).
Local Abbreviation sizeof_ObjectID := (sizeof_ObjectID cfg).
Local Abbreviation sizeof_InternalItem := (sizeof_InternalItem cfg).
Local Abbreviation LI_oid := (LI_oid cfg).
Local Abbreviation LI_nObjects := (LI_nObjects cfg).

Local Abbreviation SplitInternal :=
  (edubtm_SplitInternal cfg).

Lemma SplitInternal_pinned_frame (b : BufferPool) (tpage : BtreeInternal)
    (fpage npage high : Z) (item ritem : Mem) (q : Z) :
  q <> fpage -> q <> npage ->
  fst (SplitInternal_pinned cfg b tpage fpage npage high item ritem) q = b q.
Proof.
  intros Hf Hn. unfold SplitInternal_pinned. cbn [fst].
  rewrite !upd_other by assumption.
  rewrite (for_loop_ext _ _ _ _
             (SplitInternal_body_walk cfg tpage item high fpage npage)).
  now apply walk_frame.
Qed.

Lemma SplitInternal_pinned_walk (b : BufferPool) (tpage : BtreeInternal)
    (fpage npage high : Z) (item ritem : Mem) :
  fpage <> npage ->
  let v := redistribute BI_HALF (copy_internal cfg tpage item high)
             fpage npage (Z.to_nat (toTwo (nSlots (hdr (b fpage)) + 1))) b in
  let F := pool v fpage in
  let N := pool v npage in
  let r := SplitInternal_pinned cfg b tpage fpage npage high item ritem in
  fst r fpage = set_hdr F (with_nSlots (hdr F) (j v)) /\
  fst r npage
    = set_hdr N (with_nSlots
                   (with_p0 (hdr N) (get_Four (data N) (slot N 0))) (k v)) /\
  snd r = memcpy ritem 0 (data N) (slot N 0) sizeof_InternalItem.
Proof.
  intros Hne v F N r. subst r. unfold SplitInternal_pinned.
  rewrite (for_loop_ext _ _ _ _
             (SplitInternal_body_walk cfg tpage item high fpage npage)).
  fold (redistribute BI_HALF (copy_internal cfg tpage item high) fpage npage
          (Z.to_nat (toTwo (nSlots (hdr (b fpage)) + 1))) b).
  fold v. cbn [fst snd].
  repeat (rewrite ?upd_same, ?upd_other by congruence;
          cbn [set_hdr hdr data slot]).
  fold F N. repeat split.
Qed.

(** A call whose allocation, initialisation and pinning succeed. *)
Lemma SplitInternal_reaches_walk (ps : PageStore) (b : BufferPool)
    (fpage high : Z) (item ritem : Mem) :
  sibling_pinned ps ->
  let r := SplitInternal_pinned cfg
             (upd b (sibling ps) (init_page ps (AllocPage_newPid ps)))
             (b fpage) fpage (sibling ps) high item ritem in
  SplitInternal ps b fpage high item ritem
  = (if FreeTrain_status ps <? 0 then FreeTrain_status ps else eNOERROR,
     fst r, snd r).
Proof.
  intros (Ha & Hi & Hg) r. subst r.
  unfold edubtm_SplitInternal, btm_AllocPage, edubtm_InitInternal,
    BfM_GetTrain, BfM_FreeTrain, sibling.
  assert (Ea : (AllocPage_status ps <? 0) = false) by (apply Z.ltb_ge; lia).
  assert (Ei : (Init_status ps <? 0) = false) by (apply Z.ltb_ge; lia).
  assert (Eg : (GetTrain_status ps <? 0) = false) by (apply Z.ltb_ge; lia).
  cbv beta iota zeta. rewrite Ea, Ei. cbv beta iota zeta. rewrite Ei, Eg.
  destruct (SplitInternal_pinned _ _ _ _ _ _ _ _) as [b' r'].
  cbn [fst snd]. destruct (FreeTrain_status ps <? 0); reflexivity.
Qed.

Hypothesis ALIGN_pos : 0 < ALIGN.

(** The redistribution of a well-formed call: the page being split keeps
    the first [j] entries of the merged sequence, the new page receives the
    other [k], and the slot counts are [j] and [k]. *)
Lemma SplitInternal_partition (ps : PageStore) (b : BufferPool)
    (fpage high : Z) (item ritem : Mem) :
  valid_internal_split cfg (b fpage) item high = true ->
  sibling_pinned ps -> sibling ps <> fpage ->
  let v := SplitInternal_walk cfg ps b fpage high item in
  let r := SplitInternal ps b fpage high item ritem in
  let M := fun t => merged_internal (b fpage) item high (Z.of_nat t) in
  nSlots (hdr (pool_of r fpage)) = j v /\
  nSlots (hdr (pool_of r (sibling ps))) = k v /\
  (Z.to_nat (j v) + Z.to_nat (k v))%nat
    = Z.to_nat (nSlots (hdr (b fpage)) + 1) /\
  entries InternalEntry_at (pool_of r fpage)
    = map M (seq 0 (Z.to_nat (j v))) /\
  entries InternalEntry_at (pool_of r (sibling ps))
    = map M (seq (Z.to_nat (j v)) (Z.to_nat (k v))).
Proof.
  intros Hvalid Hpin Hne v r M.
  pose proof (valid_internal_n cfg (b fpage) item high Hvalid) as Hn.
  assert (Hb1 : upd b (sibling ps) (init_page ps (AllocPage_newPid ps)) fpage
                = b fpage) by (apply upd_other; congruence).
  assert (Hm : Z.to_nat (toTwo (nSlots (hdr (b fpage)) + 1))
               = Z.to_nat (nSlots (hdr (b fpage)) + 1))
    by (rewrite toTwo_id; [reflexivity|unfold MAX_Two in *; lia]).
  subst r. rewrite (SplitInternal_reaches_walk ps b fpage high item ritem Hpin).
  unfold pool_of. cbn [fst snd].
  destruct (SplitInternal_pinned_walk
              (upd b (sibling ps) (init_page ps (AllocPage_newPid ps)))
              (b fpage) fpage (sibling ps) high item ritem
              ltac:(congruence)) as (EF & EN & _).
  fold (SplitInternal_walk cfg ps b fpage high item) in EF, EN.
  fold v in EF, EN. rewrite EF, EN. unfold entries.
  cbn [set_hdr hdr nSlots with_nSlots data slot].
  unfold entries_upto at 1 2. cbn [set_hdr data slot].
  fold (entries_upto InternalEntry_at (pool v fpage) (Z.to_nat (j v))).
  fold (entries_upto InternalEntry_at (pool v (sibling ps)) (Z.to_nat (k v))).
  split; [reflexivity|]. split; [reflexivity|].
  pose proof (walk_entries BI_HALF (copy_internal cfg (b fpage) item high)
                fpage (sibling ps) InternalEntry_at
                (Z.to_nat (nSlots (hdr (b fpage)) + 1))
                (len_internal cfg (b fpage) item high)
                (width_internal cfg (b fpage) item high)
                (merged_internal (b fpage) item high)) as Hw.
  unfold v, SplitInternal_walk. rewrite Hb1, Hm.
  cbv zeta in Hw.
  destruct (Hw ltac:(congruence)) with
    (b := upd b (sibling ps) (init_page ps (AllocPage_newPid ps)))
    as (E1 & E2 & E3).
  - unfold MAX_Two in *. lia.
  - apply valid_internal_total; assumption.
  - intros. apply copy_internal_len.
  - intros. now apply copy_internal_frame.
  - intros. now apply copy_internal_rd.
  - intros i d1 d2 off Hi. now apply internal_rd_local with (cfg := cfg).
  - intros s i Hi.
    rewrite (merged_internal_length cfg (b fpage) item high Hvalid i Hi).
    now apply len_internal_bounds.
  - split; [exact E3|]. split; [exact E1|exact E2].
Qed.

End InternalSplit.

Section LeafFacts.

Variable cfg : Layout.
Local Abbreviation ALIGN := (ALIGN cfg).
Local Abbreviation BI_HALF := (BI_HALF cfg).
Local Abbreviation BL_HALF := (BL_HALF cfg).
Local Abbreviation sizeof_ObjectID := (sizeof_ObjectID cfg).
Local Abbreviation sizeof_InternalItem := (sizeof_InternalItem cfg).
Local Abbreviation LI_oid := (LI_oid cfg).
Local Abbreviation LI_nObjects := (LI_nObjects cfg).
Hypothesis ALIGN_pos : 0 < ALIGN.
Hypothesis ObjectID_size : 0 <= sizeof_ObjectID.

Lemma SplitLeaf_body_walk (tpage : BtreeLeaf) (item : Mem)
    (high fpage npage i : Z) (v : SplitVars) :
  SplitLeaf_body cfg tpage item high fpage npage i v
  = redistribute_body BL_HALF (copy_leaf cfg tpage item high)
      fpage npage i v.
Proof.
  unfold SplitLeaf_body, redistribute_body, copy_leaf.
  destruct (sum v <? BL_HALF); destruct (i + 1 <? high);
    try destruct (i + 1 =? high); reflexivity.
Qed.

Variable tpage : BtreeLeaf.
Variable item : Mem.
Variable high : Z.
Hypothesis Hvalid :
  valid_leaf_split cfg tpage item high = true.

Local Abbreviation n := (nSlots (hdr tpage)).
Local Abbreviation mk :=
  (merged_klen LE_klen (LI_klen cfg) tpage item high).
Local Abbreviation m := (Z.to_nat (n + 1)).
Local Abbreviation width := (width_leaf cfg tpage item high).

Lemma valid_leaf_n : 0 <= n < MAX_Two.
Proof.
  unfold valid_leaf_split in Hvalid.
  rewrite !andb_true_iff in Hvalid.
  destruct Hvalid as [[[[[? ?] ?] ?] ?] ?]. lia.
Qed.

Lemma valid_leaf_high : 1 <= high <= n + 1.
Proof.
  unfold valid_leaf_split in Hvalid.
  rewrite !andb_true_iff in Hvalid.
  destruct Hvalid as [[[[[? ?] ?] ?] ?] ?]. lia.
Qed.

Lemma valid_leaf_klen (i : Z) : 0 <= i < Z.of_nat m -> 0 <= mk i.
Proof.
  intros Hi. unfold valid_leaf_split in Hvalid.
  rewrite !andb_true_iff in Hvalid.
  destruct Hvalid as [[_ Hk] _].
  rewrite forallb_forall in Hk.
  specialize (Hk (Z.to_nat i)). rewrite Z2Nat.id in Hk by lia.
  apply Z.leb_le, Hk, in_seq. lia.
Qed.

Lemma valid_leaf_total : total width m <= MAX_Two.
Proof.
  unfold valid_leaf_split in Hvalid.
  rewrite !andb_true_iff in Hvalid.
  destruct Hvalid as [_ Ht]. apply Z.leb_le in Ht. exact Ht.
Qed.

Lemma width_leaf_bounds (i : Z) :
  0 <= i < Z.of_nat m ->
  0 <= ALIGNED_LENGTH cfg (mk i) /\ 4 <= width i <= MAX_Two.
Proof.
  intros Hi.
  assert (Hlow : forall t, 0 <= t < Z.of_nat m ->
            0 <= ALIGNED_LENGTH cfg (mk t) /\ 4 <= width t).
  { intros t Ht. unfold width_leaf, sizeof_Two.
    pose proof (ALIGNED_LENGTH_ge cfg (mk t) ALIGN_pos).
    pose proof (valid_leaf_klen t Ht). lia. }
  split; [now apply Hlow|]. split; [now apply Hlow|].
  pose proof valid_leaf_total.
  assert (width i <= total width m); [|lia].
  apply total_ge_term; [|exact Hi]. intros t Ht.
  pose proof (Hlow t Ht). lia.
Qed.

Lemma len_leaf_width (s : bool) (i : Z) :
  0 <= i < Z.of_nat m ->
  len_leaf cfg tpage item high s i = width i.
Proof.
  intros Hi. pose proof (width_leaf_bounds i Hi) as Hw. revert Hw.
  unfold len_leaf, copy_leaf, width_leaf, merged_klen.
  unfold sizeof_Two, MAX_Two.
  destruct (i + 1 <? high); [|destruct (i + 1 =? high)];
    cbn [snd]; intros Hw;
    rewrite ?(toTwo_id (2 * 2 + ALIGNED_LENGTH cfg _)) by (unfold MAX_Two; lia);
    rewrite toTwo_id by (unfold MAX_Two; lia); lia.
Qed.

Lemma LeafEntry_of_item_length :
  0 <= ALIGNED_LENGTH cfg (get_Two item (LI_klen cfg)) ->
  Z.of_nat (length (LeafEntry_of_item cfg item))
  = 4 + ALIGNED_LENGTH cfg (get_Two item (LI_klen cfg))
    + sizeof_ObjectID.
Proof.
  intros H. unfold LeafEntry_of_item, sizeof_Two.
  rewrite length_app, !read_length. lia.
Qed.

Lemma merged_leaf_length (i : Z) :
  0 <= i < Z.of_nat m ->
  Z.of_nat (length (merged_leaf cfg tpage item high i))
  = width i.
Proof.
  intros Hi. pose proof (width_leaf_bounds i Hi) as Hw. revert Hw.
  unfold merged_leaf, width_leaf, merged_klen, LeafEntry_at.
  unfold sizeof_Two.
  destruct (i + 1 <? high); [|destruct (i + 1 =? high)]; intros Hw.
  - rewrite read_length; lia.
  - rewrite LeafEntry_of_item_length; lia.
  - rewrite read_length; lia.
Qed.

Lemma LeafEntry_at_ext (d1 d2 : Mem) (off : Z) :
  0 <= ALIGNED_LENGTH cfg (get_Two d1 (off + LE_klen)) + sizeof_ObjectID ->
  (forall x, off <= x < off + (4 + ALIGNED_LENGTH cfg
                                   (get_Two d1 (off + LE_klen))
                               + sizeof_ObjectID) -> d2 x = d1 x) ->
  LeafEntry_at cfg d2 off
  = LeafEntry_at cfg d1 off.
Proof.
  intros Hk H. unfold LeafEntry_at, LE_klen, sizeof_Two in *.
  assert (E : get_Two d2 (off + 2) = get_Two d1 (off + 2)).
  { apply get_Two_ext. intros x Hx. apply H. lia. }
  rewrite E. apply read_ext. intros x Hx. apply H. lia.
Qed.

Lemma LeafEntry_at_memcpy (d : Mem) (off : Z) (src : Mem) (so len : Z) :
  4 <= len ->
  4 + ALIGNED_LENGTH cfg (get_Two src (so + LE_klen)) + sizeof_ObjectID
    <= len ->
  LeafEntry_at cfg (memcpy d off src so len) off
  = LeafEntry_at cfg src so.
Proof.
  intros H4 Hl.
  assert (E : get_Two (memcpy d off src so len) (off + LE_klen)
              = get_Two src (so + LE_klen)).
  { unfold get_Two. f_equal. f_equal.
    unfold LE_klen, sizeof_Two in *.
    apply map_ext_in. intros t Ht. apply in_seq in Ht.
    rewrite memcpy_in by lia. f_equal. lia. }
  unfold LeafEntry_at at 1. rewrite E.
  unfold LeafEntry_at, sizeof_Two.
  apply read_memcpy. lia.
Qed.

Lemma LeafEntry_at_item (d : Mem) (off : Z) :
  let al := ALIGNED_LENGTH cfg (get_Two item (LI_klen cfg)) in
  0 <= al ->
  LeafEntry_at cfg (memcpy (memcpy d off item LI_nObjects (4 + al))
            (off + (4 + al)) item LI_oid sizeof_ObjectID) off
  = LeafEntry_of_item cfg item.
Proof.
  intros al Hal.
  set (d1 := memcpy d off item LI_nObjects (4 + al)).
  set (d2 := memcpy d1 (off + (4 + al)) item LI_oid sizeof_ObjectID).
  assert (Hlow : forall x, x < off + (4 + al) -> d2 x = d1 x).
  { intros x Hx. unfold d2. apply memcpy_out. lia. }
  assert (E : get_Two d2 (off + LE_klen)
              = get_Two item (LI_klen cfg)).
  { unfold get_Two. f_equal. f_equal.
    unfold LE_klen, LI_klen, sizeof_Two in *.
    apply map_ext_in. intros t Ht. apply in_seq in Ht.
    rewrite Hlow by lia. unfold d1. rewrite memcpy_in by lia.
    f_equal. lia. }
  unfold LeafEntry_at. rewrite E. fold al. unfold LeafEntry_of_item. fold al.
  unfold sizeof_Two. change (2 * 2) with 4.
  rewrite read_app by lia. f_equal.
  - rewrite (read_ext d2 d1) by (intros; apply Hlow; lia).
    unfold d1. apply read_memcpy. lia.
  - unfold d2. apply read_memcpy. lia.
Qed.

Lemma copy_leaf_len (s : bool) (i : Z) (d : Mem) (off : Z) :
  snd (copy_leaf cfg tpage item high s i d off)
  = len_leaf cfg tpage item high s i.
Proof.
  unfold len_leaf, copy_leaf.
  destruct (i + 1 <? high); [|destruct (i + 1 =? high)]; cbn [snd];
    reflexivity.
Qed.

Lemma copy_leaf_frame (s : bool) (i : Z) (d : Mem) (off x : Z) :
  0 <= i < Z.of_nat m ->
  x < off \/ off + len_leaf cfg tpage item high s i <= x ->
  fst (copy_leaf cfg tpage item high s i d off) x = d x.
Proof.
  intros Hi. rewrite (len_leaf_width s i Hi).
  pose proof (width_leaf_bounds i Hi) as Hw. revert Hw.
  unfold copy_leaf, width_leaf, merged_klen, sizeof_Two, MAX_Two.
  destruct (i + 1 <? high); [|destruct (i + 1 =? high)]; cbn [fst snd];
    intros Hw H.
  - rewrite toTwo_id by (unfold MAX_Two; lia).
    rewrite size_t_id by (unfold MAX_Two; lia). apply memcpy_out. lia.
  - rewrite toTwo_id by (unfold MAX_Two; lia).
    rewrite size_t_id by (unfold MAX_Two; lia).
    rewrite !memcpy_out by lia. reflexivity.
  - rewrite toTwo_id by (unfold MAX_Two; lia).
    rewrite size_t_id by (unfold MAX_Two; lia). apply memcpy_out. lia.
Qed.

Lemma copy_leaf_rd (s : bool) (i : Z) (d : Mem) (off : Z) :
  0 <= i < Z.of_nat m ->
  LeafEntry_at cfg (fst (copy_leaf cfg tpage item high s i d off)) off
  = merged_leaf cfg tpage item high i.
Proof.
  intros Hi. pose proof (width_leaf_bounds i Hi) as Hw. revert Hw.
  unfold copy_leaf, merged_leaf, width_leaf, merged_klen, sizeof_Two, MAX_Two.
  destruct (i + 1 <? high); [|destruct (i + 1 =? high)]; cbn [fst snd];
    intros Hw.
  - rewrite toTwo_id by (unfold MAX_Two; lia).
    rewrite size_t_id by (unfold MAX_Two; lia).
    apply LeafEntry_at_memcpy; lia.
  - rewrite toTwo_id by (unfold MAX_Two; lia).
    rewrite size_t_id by (unfold MAX_Two; lia).
    change (2 * 2) with 4. apply LeafEntry_at_item. lia.
  - rewrite toTwo_id by (unfold MAX_Two; lia).
    rewrite size_t_id by (unfold MAX_Two; lia).
    apply LeafEntry_at_memcpy; lia.
Qed.

Lemma leaf_rd_local (i : Z) (d1 d2 : Mem) (off : Z) :
  0 <= i < Z.of_nat m ->
  LeafEntry_at cfg d1 off
  = merged_leaf cfg tpage item high i ->
  (forall x, off <= x < off + Z.of_nat
       (length (merged_leaf cfg tpage item high i)) ->
     d2 x = d1 x) ->
  LeafEntry_at cfg d2 off
  = merged_leaf cfg tpage item high i.
Proof.
  intros Hi E H. pose proof (merged_leaf_length i Hi) as Hlen.
  pose proof (width_leaf_bounds i Hi) as Hw.
  assert (Hl1 : Z.of_nat (length (LeafEntry_at cfg d1 off))
                = width i) by now rewrite E.
  unfold LeafEntry_at in Hl1. rewrite read_length in Hl1.
  unfold sizeof_Two in Hl1.
  rewrite <- E. apply LeafEntry_at_ext; [lia|].
  intros x Hx. apply H. lia.
Qed.

End LeafFacts.

Section LeafSplit.

Variable cfg : Layout.
Local Abbreviation ALIGN := (ALIGN cfg).
Local Abbreviation BI_HALF := (BI_HALF cfg).
Local Abbreviation BL_HALF := (BL_HALF cfg).
Local Abbreviation sizeof_ObjectID := (sizeof_ObjectID cfg).
Local Abbreviation sizeof_InternalItem := (sizeof_InternalItem cfg).
Local Abbreviation LI_oid := (LI_oid cfg).
Local Abbreviation LI_nObjects := (LI_nObjects cfg).

Local Abbreviation SplitLeaf :=
  (edubtm_SplitLeaf cfg).
Local Abbreviation SplitLeaf_pinned' :=
  (SplitLeaf_pinned cfg).

Lemma SplitLeaf_pinned_frame (b : BufferPool) (tpage : BtreeLeaf)
    (fpage npage high : Z) (item ritem : Mem) (q : Z) :
  q <> fpage -> q <> npage ->
  fst (SplitLeaf_pinned' b tpage fpage npage high item ritem) q = b q.
Proof.
  intros Hf Hn. unfold SplitLeaf_pinned. cbn [fst].
  rewrite !upd_other by assumption.
  rewrite (for_loop_ext _ _ _ _
             (SplitLeaf_body_walk cfg tpage item high fpage npage)).
  now apply walk_frame.
Qed.

Lemma SplitLeaf_pinned_walk (b : BufferPool) (tpage : BtreeLeaf)
    (fpage npage high : Z) (item ritem : Mem) :
  fpage <> npage ->
  let v := redistribute BL_HALF
             (copy_leaf cfg tpage item high)
             fpage npage (Z.to_nat (toTwo (nSlots (hdr (b fpage)) + 1))) b in
  let F := pool v fpage in
  let N := pool v npage in
  let r := SplitLeaf_pinned' b tpage fpage npage high item ritem in
  fst r fpage
    = set_hdr F (with_nextPage (with_nSlots (hdr F) (j v))
                   (pageNo (pid (hdr N)))) /\
  fst r npage
    = set_hdr N (with_nextPage
                   (with_prevPage (with_nSlots (hdr N) (k v))
                      (pageNo (pid (hdr F))))
                   (nextPage (hdr F))) /\
  snd r = memcpy (put_Four ritem 0 (pageNo (pid (hdr N)))) IE_klen
            (data N) (slot N 0 + LE_klen)
            (sizeof_InternalItem - sizeof_ShortPageID).
Proof.
  intros Hne v F N r. subst r. unfold SplitLeaf_pinned.
  rewrite (for_loop_ext _ _ _ _
             (SplitLeaf_body_walk cfg tpage item high fpage npage)).
  fold (redistribute BL_HALF (copy_leaf cfg tpage item high)
          fpage npage (Z.to_nat (toTwo (nSlots (hdr (b fpage)) + 1))) b).
  fold v. cbn [fst snd].
  repeat (rewrite ?upd_same, ?upd_other by congruence;
          cbn [set_hdr hdr data slot with_nSlots with_prevPage with_nextPage
               pid nextPage]).
  fold F N. repeat split.
Qed.

Lemma SplitLeaf_reaches_walk (ps : PageStore) (b : BufferPool)
    (fpage high : Z) (item ritem : Mem) :
  sibling_pinned ps ->
  let r := SplitLeaf_pinned'
             (upd b (sibling ps) (init_page ps (AllocPage_newPid ps)))
             (b fpage) fpage (sibling ps) high item ritem in
  SplitLeaf ps b fpage high item ritem
  = (if FreeTrain_status ps <? 0 then FreeTrain_status ps else eNOERROR,
     fst r, snd r).
Proof.
  intros (Ha & Hi & Hg) r. subst r.
  unfold edubtm_SplitLeaf, btm_AllocPage, edubtm_InitLeaf,
    BfM_GetTrain, BfM_FreeTrain, sibling.
  assert (Ea : (AllocPage_status ps <? 0) = false) by (apply Z.ltb_ge; lia).
  assert (Ei : (Init_status ps <? 0) = false) by (apply Z.ltb_ge; lia).
  assert (Eg : (GetTrain_status ps <? 0) = false) by (apply Z.ltb_ge; lia).
  cbv beta iota zeta. rewrite Ea, Ei. cbv beta iota zeta. rewrite Ei, Eg.
  destruct (SplitLeaf_pinned _ _ _ _ _ _ _ _) as [b' r'].
  cbn [fst snd]. destruct (FreeTrain_status ps <? 0); reflexivity.
Qed.

Hypothesis ALIGN_pos : 0 < ALIGN.
Hypothesis ObjectID_size : 0 <= sizeof_ObjectID.

Lemma SplitLeaf_partition (ps : PageStore) (b : BufferPool)
    (fpage high : Z) (item ritem : Mem) :
  valid_leaf_split cfg (b fpage) item high = true ->
  sibling_pinned ps -> sibling ps <> fpage ->
  let v := SplitLeaf_walk cfg ps b fpage high item in
  let r := SplitLeaf ps b fpage high item ritem in
  let M := fun t => merged_leaf cfg (b fpage) item high
                      (Z.of_nat t) in
  nSlots (hdr (pool_of r fpage)) = j v /\
  nSlots (hdr (pool_of r (sibling ps))) = k v /\
  (Z.to_nat (j v) + Z.to_nat (k v))%nat
    = Z.to_nat (nSlots (hdr (b fpage)) + 1) /\
  entries (LeafEntry_at cfg) (pool_of r fpage)
    = map M (seq 0 (Z.to_nat (j v))) /\
  entries (LeafEntry_at cfg) (pool_of r (sibling ps))
    = map M (seq (Z.to_nat (j v)) (Z.to_nat (k v))).
Proof.
  intros Hvalid Hpin Hne v r M.
  pose proof (valid_leaf_n cfg (b fpage) item high Hvalid)
    as Hn.
  assert (Hb1 : upd b (sibling ps) (init_page ps (AllocPage_newPid ps)) fpage
                = b fpage) by (apply upd_other; congruence).
  assert (Hm : Z.to_nat (toTwo (nSlots (hdr (b fpage)) + 1))
               = Z.to_nat (nSlots (hdr (b fpage)) + 1))
    by (rewrite toTwo_id; [reflexivity|unfold MAX_Two in *; lia]).
  subst r. rewrite (SplitLeaf_reaches_walk ps b fpage high item ritem Hpin).
  unfold pool_of. cbn [fst snd].
  destruct (SplitLeaf_pinned_walk
              (upd b (sibling ps) (init_page ps (AllocPage_newPid ps)))
              (b fpage) fpage (sibling ps) high item ritem
              ltac:(congruence)) as (EF & EN & _).
  fold (SplitLeaf_walk cfg ps b fpage high item)
    in EF, EN.
  fold v in EF, EN. rewrite EF, EN. unfold entries.
  cbn [set_hdr hdr nSlots with_nSlots with_prevPage with_nextPage data slot].
  unfold entries_upto at 1 2. cbn [set_hdr data slot].
  fold (entries_upto (LeafEntry_at cfg) (pool v fpage)
          (Z.to_nat (j v))).
  fold (entries_upto (LeafEntry_at cfg)
          (pool v (sibling ps)) (Z.to_nat (k v))).
  split; [reflexivity|]. split; [reflexivity|].
  pose proof (walk_entries BL_HALF
                (copy_leaf cfg (b fpage) item high)
                fpage (sibling ps) (LeafEntry_at cfg)
                (Z.to_nat (nSlots (hdr (b fpage)) + 1))
                (len_leaf cfg (b fpage) item high)
                (width_leaf cfg (b fpage) item high)
                (merged_leaf cfg (b fpage) item high)) as Hw.
  unfold v, SplitLeaf_walk. rewrite Hb1, Hm.
  cbv zeta in Hw.
  destruct (Hw ltac:(congruence)) with
    (b := upd b (sibling ps) (init_page ps (AllocPage_newPid ps)))
    as (E1 & E2 & E3).
  - unfold MAX_Two in *. lia.
  - apply valid_leaf_total; assumption.
  - intros. apply copy_leaf_len.
  - intros. now apply copy_leaf_frame.
  - intros. now apply copy_leaf_rd.
  - intros i d1 d2 off Hi. now apply leaf_rd_local.
  - intros s i Hi.
    rewrite (merged_leaf_length cfg ALIGN_pos ObjectID_size
               (b fpage) item high Hvalid i Hi).
    rewrite (len_leaf_width cfg ALIGN_pos ObjectID_size
               (b fpage) item high Hvalid s i Hi). lia.
  - split; [exact E3|]. split; [exact E1|exact E2].
Qed.

End LeafSplit.

Section ClaimFacts.

Variable cfg : Layout.
Local Abbreviation ALIGN := (ALIGN cfg).
Local Abbreviation BI_HALF := (BI_HALF cfg).
Local Abbreviation BL_HALF := (BL_HALF cfg).
Local Abbreviation sizeof_ObjectID := (sizeof_ObjectID cfg).
Local Abbreviation sizeof_InternalItem := (sizeof_InternalItem cfg).
Local Abbreviation LI_oid := (LI_oid cfg).
Local Abbreviation LI_nObjects := (LI_nObjects cfg).

Lemma SplitInternal_loop_walk (ps : PageStore) (b : BufferPool)
    (fpage high : Z) (item : Mem) (n : nat) :
  SplitInternal_loop cfg ps b fpage high item n
  = redistribute BI_HALF (copy_internal cfg (b fpage) item high)
      fpage (sibling ps) n
      (upd b (sibling ps) (init_page ps (AllocPage_newPid ps))).
Proof.
  unfold SplitInternal_loop, redistribute. apply for_loop_ext.
  apply SplitInternal_body_walk.
Qed.

Lemma SplitLeaf_loop_walk (ps : PageStore) (b : BufferPool)
    (fpage high : Z) (item : Mem) (n : nat) :
  SplitLeaf_loop cfg ps b fpage high item n
  = redistribute BL_HALF (copy_leaf cfg (b fpage) item high)
      fpage (sibling ps) n
      (upd b (sibling ps) (init_page ps (AllocPage_newPid ps))).
Proof.
  unfold SplitLeaf_loop, redistribute. apply for_loop_ext.
  apply SplitLeaf_body_walk.
Qed.

Lemma SplitInternal_walk_loop (ps : PageStore) (b : BufferPool)
    (fpage high : Z) (item : Mem) :
  SplitInternal_walk cfg ps b fpage high item
  = SplitInternal_loop cfg ps b fpage high item
      (Z.to_nat (maxLoop_of ps b fpage)).
Proof. now rewrite SplitInternal_loop_walk. Qed.

Lemma SplitLeaf_walk_loop (ps : PageStore) (b : BufferPool)
    (fpage high : Z) (item : Mem) :
  SplitLeaf_walk cfg ps b fpage high item
  = SplitLeaf_loop cfg ps b fpage high item
      (Z.to_nat (maxLoop_of ps b fpage)).
Proof. now rewrite SplitLeaf_loop_walk. Qed.

(** Header, slot count and up-entry of a call of edubtm_SplitInternal that
    reaches the redistribution. *)
Lemma SplitInternal_result (ps : PageStore) (b : BufferPool)
    (fpage high : Z) (item ritem : Mem) :
  sibling_pinned ps -> sibling ps <> fpage ->
  let v := SplitInternal_loop cfg ps b fpage high item
             (Z.to_nat (maxLoop_of ps b fpage)) in
  let F := pool v fpage in
  let N := pool v (sibling ps) in
  let r := edubtm_SplitInternal cfg ps b fpage high item ritem in
  pool_of r fpage = set_hdr F (with_nSlots (hdr F) (j v)) /\
  pool_of r (sibling ps)
    = set_hdr N (with_nSlots
                   (with_p0 (hdr N) (get_Four (data N) (slot N 0))) (k v)) /\
  ritem_of r = memcpy ritem 0 (data N) (slot N 0) sizeof_InternalItem.
Proof.
  intros Hpin Hne v F N r. subst r.
  rewrite (SplitInternal_reaches_walk cfg ps b fpage high item ritem Hpin).
  unfold pool_of, ritem_of. cbn [fst snd].
  subst F N v. rewrite <- SplitInternal_walk_loop.
  apply SplitInternal_pinned_walk. congruence.
Qed.

Lemma SplitLeaf_result (ps : PageStore) (b : BufferPool)
    (fpage high : Z) (item ritem : Mem) :
  sibling_pinned ps -> sibling ps <> fpage ->
  let v := SplitLeaf_loop cfg ps b fpage high item
             (Z.to_nat (maxLoop_of ps b fpage)) in
  let F := pool v fpage in
  let N := pool v (sibling ps) in
  let r := edubtm_SplitLeaf cfg ps b fpage high item ritem in
  pool_of r fpage
    = set_hdr F (with_nextPage (with_nSlots (hdr F) (j v))
                   (pageNo (pid (hdr N)))) /\
  pool_of r (sibling ps)
    = set_hdr N (with_nextPage
                   (with_prevPage (with_nSlots (hdr N) (k v))
                      (pageNo (pid (hdr F))))
                   (nextPage (hdr F))) /\
  ritem_of r = memcpy (put_Four ritem 0 (pageNo (pid (hdr N)))) IE_klen
                 (data N) (slot N 0 + LE_klen)
                 (sizeof_InternalItem - sizeof_ShortPageID).
Proof.
  intros Hpin Hne v F N r. subst r.
  rewrite (SplitLeaf_reaches_walk cfg ps b fpage high item ritem Hpin).
  unfold pool_of, ritem_of. cbn [fst snd].
  subst F N v. rewrite <- SplitLeaf_walk_loop.
  apply SplitLeaf_pinned_walk. congruence.
Qed.

(** The loops leave the header fields other than [free] alone. *)
Lemma SplitLeaf_loop_hdr (ps : PageStore) (b : BufferPool)
    (fpage high : Z) (item : Mem) (n : nat) (q : Z) :
  hdr_agree
    (hdr (upd b (sibling ps) (init_page ps (AllocPage_newPid ps)) q))
    (hdr (pool (SplitLeaf_loop cfg ps b fpage high item n) q)).
Proof. rewrite SplitLeaf_loop_walk. apply walk_hdr. Qed.

End ClaimFacts.

Lemma entries_upto_nth (rd : Mem -> Z -> list byte) (p : BtreePage)
    (n t : nat) :
  (t < n)%nat ->
  nth t (entries_upto rd p n) [] = rd (data p) (slot p (Z.of_nat t)).
Proof.
  intros H. unfold entries_upto.
  rewrite (nth_indep _ [] (rd (data p) (slot p (Z.of_nat 0))))
    by now rewrite length_map, length_seq.
  rewrite (map_nth (fun t => rd (data p) (slot p (Z.of_nat t)))).
  now rewrite seq_nth.
Qed.

Lemma entries_length (rd : Mem -> Z -> list byte) (p : BtreePage) :
  length (entries rd p) = Z.to_nat (nSlots (hdr p)).
Proof. unfold entries, entries_upto. now rewrite length_map, length_seq. Qed.

(** Pages with the same entries agree slot by slot. *)
Lemma entries_eq_pointwise (rd : Mem -> Z -> list byte) (p1 p2 : BtreePage) :
  0 <= nSlots (hdr p1) -> 0 <= nSlots (hdr p2) ->
  entries rd p1 = entries rd p2 ->
  nSlots (hdr p1) = nSlots (hdr p2) /\
  forall t, 0 <= t < nSlots (hdr p1) ->
    rd (data p1) (slot p1 t) = rd (data p2) (slot p2 t).
Proof.
  intros H1 H2 E.
  assert (En : nSlots (hdr p1) = nSlots (hdr p2)).
  { pose proof (f_equal (@length _) E) as El.
    rewrite !entries_length in El. lia. }
  split; [exact En|]. intros t Ht.
  pose proof (f_equal (fun l => nth (Z.to_nat t) l []) E) as Et.
  cbv beta in Et. unfold entries in Et.
  rewrite !entries_upto_nth in Et by lia.
  now rewrite Z2Nat.id in Et by lia.
Qed.

Lemma plan_counters (v1 v2 : SplitVars) :
  counters v1 = counters v2 -> j v1 = j v2 /\ k v1 = k v2.
Proof. unfold counters. intros E. inversion E. now split. Qed.

Section Determinism.

Variable cfg : Layout.
Local Abbreviation ALIGN := (ALIGN cfg).
Local Abbreviation BI_HALF := (BI_HALF cfg).
Local Abbreviation BL_HALF := (BL_HALF cfg).
Local Abbreviation sizeof_ObjectID := (sizeof_ObjectID cfg).
Local Abbreviation sizeof_InternalItem := (sizeof_InternalItem cfg).
Local Abbreviation LI_oid := (LI_oid cfg).
Local Abbreviation LI_nObjects := (LI_nObjects cfg).
Hypothesis ALIGN_pos : 0 < ALIGN.
Hypothesis ObjectID_size : 0 <= sizeof_ObjectID.

Lemma len_internal_of_klen (tpage : BtreeInternal) (item : Mem)
    (high : Z) (s : bool) (i : Z) :
  len_internal cfg tpage item high s i
  = toTwo (sizeof_ShortPageID + sizeof_Two
           + (if (i + 1 =? high) && s
              then ALIGNED_LENGTH cfg
                     (merged_klen IE_klen IE_klen tpage item high i)
              else merged_klen IE_klen IE_klen tpage item high i)).
Proof.
  unfold len_internal, copy_internal, merged_klen.
  destruct (Z.ltb_spec (i + 1) high);
    [|destruct (i + 1 =? high); [destruct s|]];
    cbn [snd andb]; try reflexivity.
  destruct (Z.eqb_spec (i + 1) high); [lia|reflexivity].
Qed.

Lemma merged_internal_same (p1 p2 : BtreeInternal) (item : Mem) (high i : Z) :
  nSlots (hdr p1) = nSlots (hdr p2) ->
  (forall t, 0 <= t < nSlots (hdr p1) ->
     InternalEntry_at (data p1) (slot p1 t)
     = InternalEntry_at (data p2) (slot p2 t)) ->
  1 <= high <= nSlots (hdr p1) + 1 -> 0 <= i < nSlots (hdr p1) + 1 ->
  merged_internal p1 item high i = merged_internal p2 item high i.
Proof.
  intros En E Hh Hi. unfold merged_internal.
  destruct (Z.ltb_spec (i + 1) high); [apply E; lia|].
  destruct (Z.eqb_spec (i + 1) high); [reflexivity|apply E; lia].
Qed.

Lemma merged_leaf_same (p1 p2 : BtreeLeaf) (item : Mem) (high i : Z) :
  nSlots (hdr p1) = nSlots (hdr p2) ->
  (forall t, 0 <= t < nSlots (hdr p1) ->
     LeafEntry_at cfg (data p1) (slot p1 t)
     = LeafEntry_at cfg (data p2) (slot p2 t)) ->
  1 <= high <= nSlots (hdr p1) + 1 -> 0 <= i < nSlots (hdr p1) + 1 ->
  merged_leaf cfg p1 item high i
  = merged_leaf cfg p2 item high i.
Proof.
  intros En E Hh Hi. unfold merged_leaf.
  destruct (Z.ltb_spec (i + 1) high); [apply E; lia|].
  destruct (Z.eqb_spec (i + 1) high); [reflexivity|apply E; lia].
Qed.

(** Two well-formed calls of edubtm_SplitInternal on pages with the same
    entries split at the same point. *)
Lemma SplitInternal_same_point (ps1 ps2 : PageStore) (b1 b2 : BufferPool)
    (f1 f2 high : Z) (item : Mem) :
  valid_internal_split cfg (b1 f1) item high = true ->
  valid_internal_split cfg (b2 f2) item high = true ->
  sibling ps1 <> f1 -> sibling ps2 <> f2 ->
  entries InternalEntry_at (b1 f1) = entries InternalEntry_at (b2 f2) ->
  let v1 := SplitInternal_walk cfg ps1 b1 f1 high item in
  let v2 := SplitInternal_walk cfg ps2 b2 f2 high item in
  j v1 = j v2 /\ k v1 = k v2 /\
  forall i, 0 <= i < nSlots (hdr (b1 f1)) + 1 ->
    merged_internal (b1 f1) item high i = merged_internal (b2 f2) item high i.
Proof.
  intros V1 V2 N1 N2 E v1 v2.
  pose proof (valid_internal_n _ _ _ _ V1) as Hn1.
  pose proof (valid_internal_n _ _ _ _ V2) as Hn2.
  pose proof (valid_internal_high _ _ _ _ V1) as Hh1.
  destruct (entries_eq_pointwise _ _ _ (proj1 Hn1) (proj1 Hn2) E) as [En Ept].
  assert (EM : forall i, 0 <= i < nSlots (hdr (b1 f1)) + 1 ->
            merged_internal (b1 f1) item high i
            = merged_internal (b2 f2) item high i)
    by (intros; now apply merged_internal_same).
  assert (Ek : forall i, 0 <= i < nSlots (hdr (b1 f1)) + 1 ->
            merged_klen IE_klen IE_klen (b1 f1) item high i
            = merged_klen IE_klen IE_klen (b2 f2) item high i).
  { intros i Hi.
    pose proof (merged_internal_length cfg (b1 f1) item high V1 i
                  ltac:(lia)) as L1.
    pose proof (merged_internal_length cfg (b2 f2) item high V2 i
                  ltac:(lia)) as L2.
    rewrite (EM i Hi) in L1. lia. }
  split; [|split; [|exact EM]]; apply plan_counters.
  all: subst v1 v2; unfold SplitInternal_walk.
  all: rewrite !upd_other by congruence.
  all: rewrite <- En.
  all: set (m := Z.to_nat (toTwo (nSlots (hdr (b1 f1)) + 1))).
  all: assert (Hm : Z.of_nat m = nSlots (hdr (b1 f1)) + 1)
         by (unfold m; rewrite toTwo_id by (unfold MAX_Two in *; lia); lia).
  all: rewrite (walk_counters BI_HALF _ f1 (sibling ps1)
                  (len_internal cfg (b1 f1) item high) m m)
         by (intros; try apply copy_internal_len; lia).
  all: rewrite (walk_counters BI_HALF _ f2 (sibling ps2)
                  (len_internal cfg (b2 f2) item high) m m)
         by (intros; try apply copy_internal_len; lia).
  all: apply plan_ext; intros s i Hi.
  all: rewrite !len_internal_of_klen, Ek by lia; reflexivity.
Qed.

Lemma SplitLeaf_same_point (ps1 ps2 : PageStore) (b1 b2 : BufferPool)
    (f1 f2 high : Z) (item : Mem) :
  valid_leaf_split cfg (b1 f1) item high = true ->
  valid_leaf_split cfg (b2 f2) item high = true ->
  sibling ps1 <> f1 -> sibling ps2 <> f2 ->
  entries (LeafEntry_at cfg) (b1 f1)
  = entries (LeafEntry_at cfg) (b2 f2) ->
  let v1 := SplitLeaf_walk cfg ps1 b1 f1 high item in
  let v2 := SplitLeaf_walk cfg ps2 b2 f2 high item in
  j v1 = j v2 /\ k v1 = k v2 /\
  forall i, 0 <= i < nSlots (hdr (b1 f1)) + 1 ->
    merged_leaf cfg (b1 f1) item high i
    = merged_leaf cfg (b2 f2) item high i.
Proof.
  intros V1 V2 N1 N2 E v1 v2.
  pose proof (valid_leaf_n _ _ _ _ V1) as Hn1.
  pose proof (valid_leaf_n _ _ _ _ V2) as Hn2.
  pose proof (valid_leaf_high _ _ _ _ V1) as Hh1.
  destruct (entries_eq_pointwise _ _ _ (proj1 Hn1) (proj1 Hn2) E) as [En Ept].
  assert (EM : forall i, 0 <= i < nSlots (hdr (b1 f1)) + 1 ->
            merged_leaf cfg (b1 f1) item high i
            = merged_leaf cfg (b2 f2) item high i)
    by (intros; now apply merged_leaf_same).
  split; [|split; [|exact EM]]; apply plan_counters.
  all: subst v1 v2; unfold SplitLeaf_walk.
  all: rewrite !upd_other by congruence.
  all: rewrite <- En.
  all: set (m := Z.to_nat (toTwo (nSlots (hdr (b1 f1)) + 1))).
  all: assert (Hm : Z.of_nat m = nSlots (hdr (b1 f1)) + 1)
         by (unfold m; rewrite toTwo_id by (unfold MAX_Two in *; lia); lia).
  all: rewrite (walk_counters BL_HALF _ f1 (sibling ps1)
                  (len_leaf cfg (b1 f1) item high) m m)
         by (intros; try apply copy_leaf_len; lia).
  all: rewrite (walk_counters BL_HALF _ f2 (sibling ps2)
                  (len_leaf cfg (b2 f2) item high) m m)
         by (intros; try apply copy_leaf_len; lia).
  all: apply plan_ext; intros s i Hi.
  all: rewrite (len_leaf_width cfg ALIGN_pos ObjectID_size
                  (b1 f1) item high V1 s i) by lia.
  all: rewrite (len_leaf_width cfg ALIGN_pos ObjectID_size
                  (b2 f2) item high V2 s i) by lia.
  all: rewrite <- (merged_leaf_length cfg ALIGN_pos
                     ObjectID_size (b1 f1) item high V1 i) by lia.
  all: rewrite <- (merged_leaf_length cfg ALIGN_pos
                     ObjectID_size (b2 f2) item high V2 i) by lia.
  all: rewrite EM by lia; reflexivity.
Qed.

End Determinism.

(* ================================================================== *)
(** * The properties of the specification *)

Section Properties.

Variable cfg : Layout.
Local Abbreviation ALIGN := (ALIGN cfg).
Local Abbreviation BI_HALF := (BI_HALF cfg).
Local Abbreviation BL_HALF := (BL_HALF cfg).
Local Abbreviation sizeof_ObjectID := (sizeof_ObjectID cfg).
Local Abbreviation sizeof_InternalItem := (sizeof_InternalItem cfg).
Local Abbreviation LI_oid := (LI_oid cfg).
Local Abbreviation LI_nObjects := (LI_nObjects cfg).

(** Every write of edubtm_SplitInternal goes through [fpage] or [npage]. *)
Lemma SplitInternal_frame
    (ps : PageStore) (b : BufferPool) (fpage high : Z) (item ritem : Mem)
    (q : Z) :
  q <> fpage -> q <> sibling ps ->
  pool_of (edubtm_SplitInternal cfg ps b fpage high item ritem) q = b q.
Proof.
  intros Hf Hn. unfold sibling in Hn.
  unfold edubtm_SplitInternal, btm_AllocPage, edubtm_InitInternal,
    BfM_GetTrain, BfM_FreeTrain, pool_of.
  cbv beta iota zeta.
  destruct (AllocPage_status ps <? 0); [reflexivity|].
  destruct (Init_status ps <? 0) eqn:Ei; cbv beta iota zeta; rewrite Ei;
    [now apply upd_other|].
  destruct (GetTrain_status ps <? 0); cbn [fst snd];
    [now apply upd_other|].
  pose proof (SplitInternal_pinned_frame cfg
                (upd b (pageNo (AllocPage_newPid ps))
                   (init_page ps (AllocPage_newPid ps)))
                (b fpage) fpage (pageNo (AllocPage_newPid ps))
                high item ritem q Hf Hn) as E.
  destruct (SplitInternal_pinned _ _ _ _ _ _ _ _) as [b' r'].
  cbn [fst] in E.
  destruct (FreeTrain_status ps <? 0); cbn [fst snd];
    rewrite E; now apply upd_other.
Qed.

(** Every write of edubtm_SplitLeaf goes through [fpage] or [npage]. *)
Lemma SplitLeaf_frame
    (ps : PageStore) (b : BufferPool) (fpage high : Z) (item ritem : Mem)
    (q : Z) :
  q <> fpage -> q <> sibling ps ->
  pool_of (edubtm_SplitLeaf cfg ps b fpage high item ritem) q = b q.
Proof.
  intros Hf Hn. unfold sibling in Hn.
  unfold edubtm_SplitLeaf, btm_AllocPage, edubtm_InitLeaf,
    BfM_GetTrain, BfM_FreeTrain, pool_of.
  cbv beta iota zeta.
  destruct (AllocPage_status ps <? 0); [reflexivity|].
  destruct (Init_status ps <? 0) eqn:Ei; cbv beta iota zeta; rewrite Ei;
    [now apply upd_other|].
  destruct (GetTrain_status ps <? 0); cbn [fst snd];
    [now apply upd_other|].
  pose proof (SplitLeaf_pinned_frame cfg (upd b (pageNo (AllocPage_newPid ps))
                   (init_page ps (AllocPage_newPid ps)))
                (b fpage) fpage (pageNo (AllocPage_newPid ps))
                high item ritem q Hf Hn) as E.
  destruct (SplitLeaf_pinned _ _ _ _ _ _ _ _) as [b' r'].
  cbn [fst] in E.
  destruct (FreeTrain_status ps <? 0); cbn [fst snd];
    rewrite E; now apply upd_other.
Qed.

(** The leaf that followed the page being split keeps the previous-page
    link it had: edubtm_SplitLeaf never makes it point at the new page. *)
Lemma SplitLeaf_old_next_keeps_prev
    (ps : PageStore) (b : BufferPool) (fpage high : Z) (item ritem : Mem) :
  let next := nextPage (hdr (b fpage)) in
  next <> fpage -> next <> sibling ps ->
  prevPage (hdr (pool_of (edubtm_SplitLeaf cfg
                            ps b fpage high item ritem) next))
  = prevPage (hdr (b next)).
Proof. intros next Hf Hn. now rewrite SplitLeaf_frame. Qed.

(** C4. Leaf chain maintenance: whenever a well-formed call of
    edubtm_SplitLeaf has allocated, initialised and pinned the new page, it
    returns with the new page's previous-page link equal to the identifier
    of the page being split, the new page's next-page link equal to the
    next-page link the split page had on entry, the split page's next-page
    link equal to the identifier of the new page, and the new page still
    carrying that identifier; this for every target slot from 1 to
    [nSlots + 1] and wherever the threshold puts the split point, also when
    the new page receives no entry. *)
Theorem SplitLeaf_chain_links
    (ps : PageStore) (b : BufferPool) (fpage high : Z) (item ritem : Mem) :
  0 < ALIGN -> 0 <= sizeof_ObjectID ->
  sibling_pinned ps -> sibling ps <> fpage ->
  valid_leaf_split cfg (b fpage) item high = true ->
  let r := edubtm_SplitLeaf cfg ps b fpage high item ritem in
  prevPage (hdr (pool_of r (sibling ps))) = pageNo (pid (hdr (b fpage))) /\
  nextPage (hdr (pool_of r (sibling ps))) = nextPage (hdr (b fpage)) /\
  nextPage (hdr (pool_of r fpage)) = sibling ps /\
  pageNo (pid (hdr (pool_of r (sibling ps)))) = sibling ps.
Proof.
  intros _ _ Hpin Hne _ r.
  destruct (SplitLeaf_result cfg
              ps b fpage high item ritem Hpin Hne) as (EF & EN & _).
  fold r in EF, EN. rewrite EF, EN.
  cbn [set_hdr hdr with_nextPage with_prevPage with_nSlots
       prevPage nextPage pid].
  pose proof (SplitLeaf_loop_hdr cfg ps b fpage
                high item (Z.to_nat (maxLoop_of ps b fpage)) fpage) as HF.
  pose proof (SplitLeaf_loop_hdr cfg ps b fpage
                high item (Z.to_nat (maxLoop_of ps b fpage)) (sibling ps))
    as HN.
  rewrite upd_other in HF by congruence. rewrite upd_same in HN.
  destruct HF as (HFpid & _ & _ & _ & HFnext).
  destruct HN as (HNpid & _).
  rewrite HFpid, HFnext, HNpid. repeat split.
Qed.

(** C7. Frame: whatever the outcome of a call of edubtm_SplitInternal or
    edubtm_SplitLeaf, every buffer other than the one of the page being
    split and the one of the new page holds the page it held on entry; for
    a call that pins the new page and so reaches the copies, this is stated
    of the well-formed calls. *)
Theorem split_frame
    (ps : PageStore) (b : BufferPool) (fpage high : Z) (item ritem : Mem)
    (q : Z) :
  0 < ALIGN -> 0 <= sizeof_ObjectID ->
  q <> fpage -> q <> sibling ps ->
  ((sibling_pinned ps ->
    valid_internal_split cfg (b fpage) item high = true) ->
   pool_of (edubtm_SplitInternal cfg ps b fpage high item ritem) q = b q) /\
  ((sibling_pinned ps ->
    valid_leaf_split cfg (b fpage) item high = true) ->
   pool_of (edubtm_SplitLeaf cfg ps b fpage high item ritem) q = b q).
Proof.
  intros _ _ Hf Hn. split; intros _.
  - now apply SplitInternal_frame.
  - now apply SplitLeaf_frame.
Qed.

(** C6. Failure of the preparatory calls: when btm_AllocPage, the
    initialisation of the new page or BfM_GetTrain fails, both splitters
    return the status of the failing call and the buffer of the page being
    split holds exactly the page it held on entry. *)
Theorem split_failure_keeps_source
    (ps : PageStore) (b : BufferPool) (fpage high : Z) (item ritem : Mem) :
  AllocPage_status ps < 0 \/ Init_status ps < 0 \/ GetTrain_status ps < 0 ->
  sibling ps <> fpage ->
  let rI := edubtm_SplitInternal cfg ps b fpage high item ritem in
  let rL := edubtm_SplitLeaf cfg ps b fpage high item ritem in
  (status_of rI = first_failure ps /\ status_of rI < 0 /\
   pool_of rI fpage = b fpage) /\
  (status_of rL = first_failure ps /\ status_of rL < 0 /\
   pool_of rL fpage = b fpage).
Proof.
  intros Hfail Hne rI rL. subst rI rL. unfold sibling in Hne.
  unfold edubtm_SplitInternal, edubtm_SplitLeaf, btm_AllocPage,
    edubtm_InitInternal, edubtm_InitLeaf, BfM_GetTrain, first_failure,
    status_of, pool_of.
  cbv beta iota zeta.
  destruct (Z.ltb_spec (AllocPage_status ps) 0) as [Ha|Ha];
    [cbn [fst snd]; repeat split; assumption|].
  destruct (Z.ltb_spec (Init_status ps) 0) as [Hi|Hi]; cbv beta iota zeta.
  { destruct (Z.ltb_spec (Init_status ps) 0); [|lia].
    cbn [fst snd]. rewrite upd_other by congruence.
    repeat split; assumption. }
  destruct (Z.ltb_spec (Init_status ps) 0); [lia|].
  destruct (Z.ltb_spec (GetTrain_status ps) 0) as [Hg|Hg]; [|lia].
  cbn [fst snd]. rewrite upd_other by congruence. repeat split; assumption.
Qed.

(** C2 (as amended). Slot counts: edubtm_SplitInternal sets the leftmost
    pointer [p0] of the new page to the child pointer of the entry at the
    new page's slot 0, and that entry stays counted: the stored slot count
    of the new page is the number [k] of entries copied to it, the stored
    slot count of the page being split is [j], and the two counts add up to
    [n + 1] for the internal and for the leaf splitter alike. *)
Theorem split_slot_counts
    (ps : PageStore) (b : BufferPool) (fpage high : Z) (item ritem : Mem) :
  sibling_pinned ps -> sibling ps <> fpage ->
  0 <= nSlots (hdr (b fpage)) < MAX_Two ->
  let n := nSlots (hdr (b fpage)) in
  let vI := SplitInternal_loop cfg ps b fpage high item
              (Z.to_nat (maxLoop_of ps b fpage)) in
  let rI := edubtm_SplitInternal cfg ps b fpage high item ritem in
  let vL := SplitLeaf_loop cfg ps b fpage high item
              (Z.to_nat (maxLoop_of ps b fpage)) in
  let rL := edubtm_SplitLeaf cfg ps b fpage high item ritem in
  (p0 (hdr (pool_of rI (sibling ps)))
     = get_Four (data (pool_of rI (sibling ps)))
                (slot (pool_of rI (sibling ps)) 0) /\
   nSlots (hdr (pool_of rI (sibling ps))) = k vI /\
   nSlots (hdr (pool_of rI fpage)) = j vI /\
   nSlots (hdr (pool_of rI fpage)) + nSlots (hdr (pool_of rI (sibling ps)))
     = n + 1) /\
  (nSlots (hdr (pool_of rL (sibling ps))) = k vL /\
   nSlots (hdr (pool_of rL fpage)) = j vL /\
   nSlots (hdr (pool_of rL fpage)) + nSlots (hdr (pool_of rL (sibling ps)))
     = n + 1).
Proof.
  intros Hpin Hne Hn n vI rI vL rL.
  assert (Hm : Z.of_nat (Z.to_nat (maxLoop_of ps b fpage)) = n + 1).
  { unfold maxLoop_of. rewrite upd_other by congruence. fold n.
    rewrite toTwo_id by (unfold MAX_Two in *; lia). lia. }
  split.
  - destruct (SplitInternal_result cfg
                ps b fpage high item ritem Hpin Hne) as (EF & EN & _).
    fold vI rI in EF, EN. rewrite EF, EN.
    cbn [set_hdr hdr data slot with_nSlots with_p0 nSlots p0].
    pose proof (walk_counts BI_HALF (copy_internal cfg (b fpage) item high)
                  fpage (sibling ps) (Z.to_nat (maxLoop_of ps b fpage))
                  (upd b (sibling ps) (init_page ps (AllocPage_newPid ps))))
      as Hc.
    rewrite <- SplitInternal_loop_walk in Hc. fold vI in Hc.
    repeat split; lia.
  - destruct (SplitLeaf_result cfg ps b fpage high item ritem Hpin Hne)
      as (EF & EN & _).
    fold vL rL in EF, EN. rewrite EF, EN.
    cbn [set_hdr hdr with_nSlots with_prevPage with_nextPage nSlots].
    pose proof (walk_counts BL_HALF
                  (copy_leaf cfg (b fpage) item high)
                  fpage (sibling ps) (Z.to_nat (maxLoop_of ps b fpage))
                  (upd b (sibling ps) (init_page ps (AllocPage_newPid ps))))
      as Hc.
    rewrite <- SplitLeaf_loop_walk in Hc. fold vL in Hc.
    repeat split; lia.
Qed.

(** Order of what the loops copy: after a well-formed split whose new page
    is pinned, the entries of the page being split followed by the entries
    of the new page, both read in slot order, are the entries the page had
    on entry with the new item inserted in front of position [high - 1]
    (0-based); a leaf entry is read here as far as edubtm_SplitLeaf copies
    it, with one object identifier. *)
Lemma split_copied_entries
    (ps : PageStore) (b : BufferPool) (fpage high : Z) (item ritem : Mem) :
  0 < ALIGN -> sibling_pinned ps -> sibling ps <> fpage ->
  let rI := edubtm_SplitInternal cfg ps b fpage high item ritem in
  let rL := edubtm_SplitLeaf cfg ps b fpage high item ritem in
  (valid_internal_split cfg (b fpage) item high = true ->
   entries InternalEntry_at (pool_of rI fpage)
   ++ entries InternalEntry_at (pool_of rI (sibling ps))
   = insert_at (Z.to_nat (high - 1)) (InternalEntry_at item 0)
       (entries InternalEntry_at (b fpage))) /\
  (0 <= sizeof_ObjectID ->
   valid_leaf_split cfg (b fpage) item high = true ->
   entries (LeafEntry_at cfg) (pool_of rL fpage)
   ++ entries (LeafEntry_at cfg) (pool_of rL (sibling ps))
   = insert_at (Z.to_nat (high - 1))
       (LeafEntry_of_item cfg item)
       (entries (LeafEntry_at cfg) (b fpage))).
Proof.
  intros HA Hpin Hne rI rL. split.
  - intros Hvalid.
    destruct (SplitInternal_partition cfg HA
                ps b fpage high item ritem Hvalid Hpin Hne)
      as (_ & _ & Hjk & EF & EN).
    fold rI in EF, EN. rewrite EF, EN, <- map_app, <- seq_app, Hjk.
    pose proof (valid_internal_n _ _ _ _ Hvalid) as Hn.
    pose proof (valid_internal_high _ _ _ _ Hvalid) as Hh.
    unfold entries, entries_upto.
    apply (merged_is_insert
             (fun t => InternalEntry_at (data (b fpage)) (slot (b fpage) t)));
      [lia|lia|].
    intros i Hi. reflexivity.
  - intros HO Hvalid.
    destruct (SplitLeaf_partition cfg HA HO
                ps b fpage high item ritem Hvalid Hpin Hne)
      as (_ & _ & Hjk & EF & EN).
    fold rL in EF, EN. rewrite EF, EN, <- map_app, <- seq_app, Hjk.
    pose proof (valid_leaf_n _ _ _ _ Hvalid) as Hn.
    pose proof (valid_leaf_high _ _ _ _ Hvalid) as Hh.
    unfold entries, entries_upto.
    apply (merged_is_insert
             (fun t => LeafEntry_at cfg (data (b fpage)) (slot (b fpage) t)));
      [lia|lia|].
    intros i Hi. reflexivity.
Qed.

(** C9. Determinism of the partition: two well-formed calls of the same
    splitter on pages that hold the same entries, with the same item and
    the same [high], leave the same entries in the page being split and
    the same entries in the new page, whatever the buffers, the page
    identifiers, the page store's answers and the other bytes of the
    pages. *)
Theorem split_partition_deterministic
    (ps1 ps2 : PageStore) (b1 b2 : BufferPool) (f1 f2 high : Z)
    (item ritem1 ritem2 : Mem) :
  0 < ALIGN ->
  sibling_pinned ps1 -> sibling_pinned ps2 ->
  sibling ps1 <> f1 -> sibling ps2 <> f2 ->
  let rI1 := edubtm_SplitInternal cfg ps1 b1 f1 high item ritem1 in
  let rI2 := edubtm_SplitInternal cfg ps2 b2 f2 high item ritem2 in
  let rL1 := edubtm_SplitLeaf cfg ps1 b1 f1 high item ritem1 in
  let rL2 := edubtm_SplitLeaf cfg ps2 b2 f2 high item ritem2 in
  (valid_internal_split cfg (b1 f1) item high = true ->
   valid_internal_split cfg (b2 f2) item high = true ->
   entries InternalEntry_at (b1 f1) = entries InternalEntry_at (b2 f2) ->
   entries InternalEntry_at (pool_of rI1 f1)
   = entries InternalEntry_at (pool_of rI2 f2) /\
   entries InternalEntry_at (pool_of rI1 (sibling ps1))
   = entries InternalEntry_at (pool_of rI2 (sibling ps2))) /\
  (0 <= sizeof_ObjectID ->
   valid_leaf_split cfg (b1 f1) item high = true ->
   valid_leaf_split cfg (b2 f2) item high = true ->
   entries (LeafEntry_at cfg) (b1 f1)
   = entries (LeafEntry_at cfg) (b2 f2) ->
   entries (LeafEntry_at cfg) (pool_of rL1 f1)
   = entries (LeafEntry_at cfg) (pool_of rL2 f2) /\
   entries (LeafEntry_at cfg) (pool_of rL1 (sibling ps1))
   = entries (LeafEntry_at cfg) (pool_of rL2 (sibling ps2))).
Proof.
  intros HA P1 P2 N1 N2 rI1 rI2 rL1 rL2. split.
  - intros V1 V2 E.
    destruct (SplitInternal_partition cfg HA
                ps1 b1 f1 high item ritem1 V1 P1 N1)
      as (_ & _ & Hjk1 & EF1 & EN1).
    destruct (SplitInternal_partition cfg HA
                ps2 b2 f2 high item ritem2 V2 P2 N2)
      as (_ & _ & Hjk2 & EF2 & EN2).
    destruct (SplitInternal_same_point cfg ps1 ps2 b1 b2 f1 f2
                high item V1 V2 N1 N2 E) as (Ej & Ek & EM).
    pose proof (valid_internal_n _ _ _ _ V1) as Hn.
    fold rI1 in EF1, EN1. fold rI2 in EF2, EN2.
    rewrite EF1, EN1, EF2, EN2, <- Ej, <- Ek.
    split; apply map_ext_in; intros t Ht; apply in_seq in Ht; apply EM; lia.
  - intros HO V1 V2 E.
    destruct (SplitLeaf_partition cfg HA HO
                ps1 b1 f1 high item ritem1 V1 P1 N1)
      as (_ & _ & Hjk1 & EF1 & EN1).
    destruct (SplitLeaf_partition cfg HA HO
                ps2 b2 f2 high item ritem2 V2 P2 N2)
      as (_ & _ & Hjk2 & EF2 & EN2).
    destruct (SplitLeaf_same_point cfg HA HO
                ps1 ps2 b1 b2 f1 f2 high item V1 V2 N1 N2 E)
      as (Ej & Ek & EM).
    pose proof (valid_leaf_n _ _ _ _ V1) as Hn.
    fold rL1 in EF1, EN1. fold rL2 in EF2, EN2.
    rewrite EF1, EN1, EF2, EN2, <- Ej, <- Ek.
    split; apply map_ext_in; intros t Ht; apply in_seq in Ht; apply EM; lia.
Qed.

(** The new page is not left empty: when the running size exceeds the
    half-fill threshold after an iteration [c] that is not the last one, at
    least one entry is copied to the new page ([k >= 1]), the stored slot
    count of the new page is that [k], and slot 0 of the new page holds the
    offset 0 at which the loop copied the first of them, whatever the fresh
    buffer contained; for a well-formed split the entry read there is entry
    number [j] of the merged sequence. *)
Lemma sibling_first_entry
    (ps : PageStore) (b : BufferPool) (fpage high : Z) (item ritem : Mem)
    (c : nat) :
  sibling_pinned ps -> sibling ps <> fpage ->
  (S c < Z.to_nat (maxLoop_of ps b fpage))%nat ->
  let vI := SplitInternal_loop cfg ps b fpage high item
              (Z.to_nat (maxLoop_of ps b fpage)) in
  let rI := edubtm_SplitInternal cfg ps b fpage high item ritem in
  let vL := SplitLeaf_loop cfg ps b fpage high item
              (Z.to_nat (maxLoop_of ps b fpage)) in
  let rL := edubtm_SplitLeaf cfg ps b fpage high item ritem in
  (BI_HALF < sum (SplitInternal_loop cfg ps b fpage high item (S c)) ->
   1 <= k vI /\ nSlots (hdr (pool_of rI (sibling ps))) = k vI /\
   slot (pool_of rI (sibling ps)) 0 = 0 /\
   (0 < ALIGN -> valid_internal_split cfg (b fpage) item high = true ->
    InternalEntry_at (data (pool_of rI (sibling ps)))
                     (slot (pool_of rI (sibling ps)) 0)
    = merged_internal (b fpage) item high (j vI))) /\
  (BL_HALF < sum (SplitLeaf_loop cfg ps b fpage high item (S c)) ->
   1 <= k vL /\ nSlots (hdr (pool_of rL (sibling ps))) = k vL /\
   slot (pool_of rL (sibling ps)) 0 = 0 /\
   (0 < ALIGN -> 0 <= sizeof_ObjectID ->
    valid_leaf_split cfg (b fpage) item high = true ->
    LeafEntry_at cfg (data (pool_of rL (sibling ps)))
                 (slot (pool_of rL (sibling ps)) 0)
    = merged_leaf cfg (b fpage) item high (j vL))).
Proof.
  intros Hpin Hne Hc vI rI vL rL. split.
  - intros Hsum.
    destruct (SplitInternal_result cfg
                ps b fpage high item ritem Hpin Hne) as (EF & EN & _).
    fold vI rI in EF, EN.
    assert (Hk : 1 <= k vI).
    { subst vI. rewrite SplitInternal_loop_walk in *.
      apply (walk_sibling_nonempty _ _ _ _ c); [exact Hc|].
      fold (redistribute BI_HALF (copy_internal cfg (b fpage) item high)
              fpage (sibling ps)) in Hsum. lia. }
    assert (Hs : slot (pool vI (sibling ps)) 0 = 0).
    { subst vI. rewrite SplitInternal_loop_walk in *.
      apply walk_sibling_slot0; [congruence|exact Hk]. }
    split; [exact Hk|]. rewrite EN.
    cbn [set_hdr hdr data slot with_nSlots nSlots].
    split; [reflexivity|]. split; [exact Hs|].
    intros HA Hvalid.
    destruct (SplitInternal_partition cfg HA
                ps b fpage high item ritem Hvalid Hpin Hne)
      as (_ & Enk & _ & _ & EN').
    rewrite SplitInternal_walk_loop in Enk, EN'. fold vI rI in Enk, EN'.
    pose proof (f_equal (fun l => nth 0 l []) EN') as E0. cbv beta in E0.
    unfold entries in E0. rewrite Enk in E0.
    rewrite entries_upto_nth in E0 by lia.
    rewrite EN in E0. cbn [set_hdr data slot] in E0.
    change (Z.of_nat 0) with 0 in E0. rewrite E0.
    destruct (Z.to_nat (k vI)) as [|k'] eqn:Ek; [lia|].
    cbn [seq map nth]. f_equal.
    pose proof (walk_counts BI_HALF (copy_internal cfg (b fpage) item high)
                  fpage (sibling ps) (Z.to_nat (maxLoop_of ps b fpage))
                  (upd b (sibling ps) (init_page ps (AllocPage_newPid ps))))
      as Hcnt.
    rewrite <- SplitInternal_loop_walk in Hcnt. fold vI in Hcnt. lia.
  - intros Hsum.
    destruct (SplitLeaf_result cfg ps b fpage high item ritem Hpin Hne)
      as (EF & EN & _).
    fold vL rL in EF, EN.
    assert (Hk : 1 <= k vL).
    { subst vL. rewrite SplitLeaf_loop_walk in *.
      apply (walk_sibling_nonempty _ _ _ _ c); [exact Hc|].
      fold (redistribute BL_HALF
              (copy_leaf cfg (b fpage) item high)
              fpage (sibling ps)) in Hsum. lia. }
    assert (Hs : slot (pool vL (sibling ps)) 0 = 0).
    { subst vL. rewrite SplitLeaf_loop_walk in *.
      apply walk_sibling_slot0; [congruence|exact Hk]. }
    split; [exact Hk|]. rewrite EN.
    cbn [set_hdr hdr data slot with_nSlots with_prevPage with_nextPage nSlots].
    split; [reflexivity|]. split; [exact Hs|].
    intros HA HO Hvalid.
    destruct (SplitLeaf_partition cfg HA HO
                ps b fpage high item ritem Hvalid Hpin Hne)
      as (_ & Enk & _ & _ & EN').
    rewrite SplitLeaf_walk_loop in Enk, EN'. fold vL rL in Enk, EN'.
    pose proof (f_equal (fun l => nth 0 l []) EN') as E0. cbv beta in E0.
    unfold entries in E0. rewrite Enk in E0.
    rewrite entries_upto_nth in E0 by lia.
    rewrite EN in E0. cbn [set_hdr data slot] in E0.
    change (Z.of_nat 0) with 0 in E0. rewrite E0.
    destruct (Z.to_nat (k vL)) as [|k'] eqn:Ek; [lia|].
    cbn [seq map nth]. f_equal.
    pose proof (walk_counts BL_HALF
                  (copy_leaf cfg (b fpage) item high)
                  fpage (sibling ps) (Z.to_nat (maxLoop_of ps b fpage))
                  (upd b (sibling ps) (init_page ps (AllocPage_newPid ps))))
      as Hcnt.
    rewrite <- SplitLeaf_loop_walk in Hcnt. fold vL in Hcnt. lia.
Qed.

End Properties.

Lemma get_Four_put_Four (m : Mem) (a v : Z) :
  -2147483648 <= v <= 2147483647 -> get_Four (put_Four m a v) a = v.
Proof.
  intros H. unfold get_Four, sizeof_ShortPageID.
  assert (E : read (put_Four m a v) a 4 = le_split 4 v).
  { transitivity (map (fun i => nth i (le_split 4 v) Byte.x00) (seq 0 4)).
    - unfold read. apply map_ext_in. intros i Hi. apply in_seq in Hi.
      unfold put_Four.
      destruct (Z.leb_spec a (a + Z.of_nat i));
        destruct (Z.ltb_spec (a + Z.of_nat i) (a + 4)); cbn [andb]; try lia.
      f_equal. lia.
    - reflexivity. }
  rewrite E, le_combine_split. unfold toFour, swrap.
  change (2 ^ (Z.of_nat 4 * 8)) with 4294967296.
  change (2 ^ (32 - 1)) with 2147483648. change (2 ^ 32) with 4294967296.
  rewrite Z.add_mod_idemp_l by lia. rewrite Z.mod_small by lia. lia.
Qed.

Section UpEntry.

Variable cfg : Layout.
Local Abbreviation ALIGN := (ALIGN cfg).
Local Abbreviation BI_HALF := (BI_HALF cfg).
Local Abbreviation BL_HALF := (BL_HALF cfg).
Local Abbreviation sizeof_ObjectID := (sizeof_ObjectID cfg).
Local Abbreviation sizeof_InternalItem := (sizeof_InternalItem cfg).
Local Abbreviation LI_oid := (LI_oid cfg).
Local Abbreviation LI_nObjects := (LI_nObjects cfg).

(** The up-entry of edubtm_SplitInternal is a raw copy of the entry at slot
    0 of the new page: its [spid] is that entry's child pointer, which is
    also the new page's [p0]. *)
Lemma SplitInternal_up_entry_spid (ps : PageStore) (b : BufferPool)
    (fpage high : Z) (item ritem : Mem) :
  sibling_pinned ps -> sibling ps <> fpage -> 4 <= sizeof_InternalItem ->
  let r := edubtm_SplitInternal cfg ps b fpage high item ritem in
  get_Four (ritem_of r) 0 = p0 (hdr (pool_of r (sibling ps))) /\
  get_Four (ritem_of r) 0
  = get_Four (data (pool_of r (sibling ps))) (slot (pool_of r (sibling ps)) 0).
Proof.
  intros Hpin Hne Hsz r.
  destruct (SplitInternal_result cfg
              ps b fpage high item ritem Hpin Hne) as (_ & EN & ER).
  fold r in EN, ER. rewrite EN, ER.
  cbn [set_hdr hdr data slot with_nSlots with_p0 p0].
  assert (E : forall d s, get_Four (memcpy ritem 0 d s sizeof_InternalItem) 0
                          = get_Four d s).
  { intros d s. unfold get_Four. f_equal. f_equal.
    unfold sizeof_ShortPageID. apply read_memcpy. lia. }
  rewrite E. split; reflexivity.
Qed.

(** The up-entry of edubtm_SplitLeaf points at the new page. *)
Lemma SplitLeaf_up_entry_spid (ps : PageStore) (b : BufferPool)
    (fpage high : Z) (item ritem : Mem) :
  sibling_pinned ps -> sibling ps <> fpage ->
  -2147483648 <= sibling ps <= 2147483647 ->
  let r := edubtm_SplitLeaf cfg ps b fpage high item ritem in
  get_Four (ritem_of r) 0 = sibling ps.
Proof.
  intros Hpin Hne Hrange r.
  destruct (SplitLeaf_result cfg
              ps b fpage high item ritem Hpin Hne) as (_ & _ & ER).
  fold r in ER. rewrite ER.
  pose proof (SplitLeaf_loop_hdr cfg ps b fpage
                high item (Z.to_nat (maxLoop_of ps b fpage)) (sibling ps))
    as HN.
  rewrite upd_same in HN. destruct HN as (HNpid & _). rewrite HNpid.
  cbn [init_page hdr pid].
  change (pageNo (AllocPage_newPid ps)) with (sibling ps).
  transitivity (get_Four (put_Four ritem 0 (sibling ps)) 0);
    [|now apply get_Four_put_Four].
  reflexivity.
Qed.

End UpEntry.

(** C1 (the code departs from it). In the internal split of the page with
    keys 10, 20, 30, 40 and children 110 .. 140, inserting key 25 with
    child 125 at [high = 3] into the new page 9: the up-entry carries the
    key 25 of the entry at slot 0 of the new page, but its [spid] is that
    entry's child pointer 125, not the identifier 9 of the new page. *)
Theorem SplitInternal_up_entry_is_raw_copy :
  let r := edubtm_SplitInternal ex_cfg
             ex_store ex_internal_pool 1 3 ex_internal_item no_item in
  let N := pool_of r (sibling ex_store) in
  status_of r = eNOERROR /\
  sibling ex_store = 9 /\
  pageNo (pid (hdr N)) = 9 /\
  InternalEntry_at (ritem_of r) 0 = InternalEntry_at (data N) (slot N 0) /\
  InternalEntry_at (ritem_of r) 0 = internal_image 125 4 (key4 25) /\
  get_Four (ritem_of r) 0 = 125 /\
  get_Four (ritem_of r) 0 <> pageNo (pid (hdr N)).
Proof. vm_compute. repeat split; discriminate. Qed.

(** C2 (as stated), refuted: in the same split three entries (keys 25, 30,
    40) are copied to the new page and its stored slot count is 3, not one
    less. *)
Lemma SplitInternal_sibling_count_is_raw :
  let r := edubtm_SplitInternal ex_cfg
             ex_store ex_internal_pool 1 3 ex_internal_item no_item in
  let v := SplitInternal_loop ex_cfg ex_store ex_internal_pool
             1 3 ex_internal_item (Z.to_nat (maxLoop_of ex_store
                                               ex_internal_pool 1)) in
  ~ (nSlots (hdr (pool_of r (sibling ex_store))) = k v - 1).
Proof. vm_compute. discriminate. Qed.

(** C5 (the code departs from it). Leaf 1 is followed by leaf 7 in a well
    linked chain; after the split of leaf 1 into 1 and 9 the pair (1, 9) is
    linked and the next-page link of 9 is 7, but the previous-page link of
    leaf 7 still names 1: the pair (9, 7) is not linked. *)
Theorem SplitLeaf_next_leaf_keeps_old_prev :
  let r := edubtm_SplitLeaf ex_cfg ex_store ex_leaf_pool 1 3
             ex_leaf_item no_item in
  linked ex_leaf_pool 1 7 /\
  status_of r = eNOERROR /\
  linked (pool_of r) 1 9 /\
  nextPage (hdr (pool_of r 9)) = 7 /\
  prevPage (hdr (pool_of r 7)) = 1 /\
  ~ linked (pool_of r) 9 7.
Proof.
  unfold linked. vm_compute. repeat split; try discriminate.
  intros [_ H]. discriminate H.
Qed.

(** C8 (the code departs from it). With a 4-byte alignment unit and
    one-byte keys an entry should take 4 + 2 + 4 = 10 bytes.  Appending the
    item ([high = 3]): the two old entries land at offsets 0 and 7 of the
    page being split, whose free offset becomes 14, and the item takes 7
    bytes of the new page.  Inserting the same item first ([high = 1]): it
    goes to the page being split and takes 10 bytes there. *)
Theorem SplitInternal_entry_lengths_not_aligned :
  let r3 := edubtm_SplitInternal ex_cfg_short
              ex_store ex_short_pool 1 3 ex_short_item no_item in
  let r1 := edubtm_SplitInternal ex_cfg_short
              ex_store ex_short_pool 1 1 ex_short_item no_item in
  sizeof_ShortPageID + sizeof_Two + ALIGNED_LENGTH ex_cfg 1 = 10 /\
  (slot (pool_of r3 1) 0 = 0 /\ slot (pool_of r3 1) 1 = 7 /\
   free (hdr (pool_of r3 1)) = 14 /\ nSlots (hdr (pool_of r3 1)) = 2 /\
   free (hdr (pool_of r3 9)) = 7 /\ nSlots (hdr (pool_of r3 9)) = 1) /\
  (free (hdr (pool_of r1 1)) = 10 /\ nSlots (hdr (pool_of r1 1)) = 1).
Proof. vm_compute. repeat split. Qed.

Lemma ex_store_pinned : sibling_pinned ex_store.
Proof. unfold sibling_pinned. cbn. lia. Defined.

Lemma ex_store'_pinned : sibling_pinned ex_store'.
Proof. unfold sibling_pinned. cbn. lia. Defined.

Lemma ex_ALIGN_pos : 0 < ALIGN ex_cfg.
Proof. reflexivity. Defined.

Lemma ex_ObjectID_size : 0 <= sizeof_ObjectID ex_cfg.
Proof. discriminate. Defined.

Lemma split_slot_counts_witness :
  sibling_pinned ex_store /\ sibling ex_store <> 1 /\
  0 <= nSlots (hdr (ex_internal_pool 1)) < MAX_Two /\
  nSlots (hdr (pool_of (edubtm_SplitInternal ex_cfg ex_store ex_internal_pool
                          1 3 ex_internal_item no_item) 1))
  + nSlots (hdr (pool_of (edubtm_SplitInternal ex_cfg ex_store ex_internal_pool
                            1 3 ex_internal_item no_item) (sibling ex_store)))
  = nSlots (hdr (ex_internal_pool 1)) + 1.
Proof.
  assert (Hne : sibling ex_store <> 1) by discriminate.
  assert (Hn : 0 <= nSlots (hdr (ex_internal_pool 1)) < MAX_Two)
    by (split; [discriminate|reflexivity]).
  split; [exact ex_store_pinned|]. split; [exact Hne|]. split; [exact Hn|].
  exact (proj2 (proj2 (proj2 (proj1
           (split_slot_counts ex_cfg ex_store
              ex_internal_pool 1 3 ex_internal_item no_item
              ex_store_pinned Hne Hn))))).
Defined.

Lemma SplitLeaf_chain_links_witness :
  sibling_pinned ex_store /\ sibling ex_store <> 1 /\
  valid_leaf_split ex_cfg (ex_leaf_pool 1) ex_leaf_item 3 = true /\
  prevPage (hdr (pool_of (edubtm_SplitLeaf ex_cfg
                            ex_store ex_leaf_pool 1 3 ex_leaf_item no_item)
                   (sibling ex_store)))
  = pageNo (pid (hdr (ex_leaf_pool 1))) /\
  nextPage (hdr (pool_of (edubtm_SplitLeaf ex_cfg
                            ex_store ex_leaf_pool 1 3 ex_leaf_item no_item)
                   (sibling ex_store)))
  = nextPage (hdr (ex_leaf_pool 1)) /\
  nextPage (hdr (pool_of (edubtm_SplitLeaf ex_cfg
                            ex_store ex_leaf_pool 1 3 ex_leaf_item no_item)
                   1))
  = sibling ex_store /\
  pageNo (pid (hdr (pool_of (edubtm_SplitLeaf ex_cfg
                            ex_store ex_leaf_pool 1 3 ex_leaf_item no_item)
                   (sibling ex_store))))
  = sibling ex_store.
Proof.
  assert (Hne : sibling ex_store <> 1) by discriminate.
  assert (VL : valid_leaf_split ex_cfg (ex_leaf_pool 1)
                 ex_leaf_item 3 = true) by (vm_compute; reflexivity).
  split; [exact ex_store_pinned|]. split; [exact Hne|]. split; [exact VL|].
  exact (SplitLeaf_chain_links ex_cfg ex_store ex_leaf_pool 1 3 ex_leaf_item
           no_item ex_ALIGN_pos ex_ObjectID_size ex_store_pinned Hne VL).
Defined.

Lemma split_failure_keeps_source_witness :
  (AllocPage_status ex_store_full < 0 \/ Init_status ex_store_full < 0 \/
   GetTrain_status ex_store_full < 0) /\
  sibling ex_store_full <> 1 /\
  pool_of (edubtm_SplitInternal ex_cfg
             ex_store_full ex_internal_pool 1 3 ex_internal_item no_item) 1
  = ex_internal_pool 1 /\
  pool_of (edubtm_SplitLeaf ex_cfg ex_store_full ex_internal_pool 1 3
             ex_internal_item no_item) 1
  = ex_internal_pool 1.
Proof.
  assert (Hf : AllocPage_status ex_store_full < 0 \/
               Init_status ex_store_full < 0 \/
               GetTrain_status ex_store_full < 0) by (left; reflexivity).
  assert (Hne : sibling ex_store_full <> 1) by discriminate.
  split; [exact Hf|]. split; [exact Hne|].
  pose proof (split_failure_keeps_source ex_cfg ex_store_full
                ex_internal_pool 1 3 ex_internal_item no_item Hf Hne) as H.
  exact (conj (proj2 (proj2 (proj1 H))) (proj2 (proj2 (proj2 H)))).
Defined.

Lemma split_frame_witness :
  7 <> 1 /\ 7 <> sibling ex_store /\
  valid_internal_split ex_cfg (ex_internal_pool 1) ex_internal_item 3 = true /\
  valid_leaf_split ex_cfg (ex_leaf_pool 1) ex_leaf_item 3 = true /\
  pool_of (edubtm_SplitInternal ex_cfg
             ex_store ex_internal_pool 1 3 ex_internal_item no_item) 7
  = ex_internal_pool 7 /\
  pool_of (edubtm_SplitLeaf ex_cfg ex_store ex_leaf_pool 1 3
             ex_leaf_item no_item) 7
  = ex_leaf_pool 7.
Proof.
  assert (H1 : 7 <> 1) by discriminate.
  assert (H2 : 7 <> sibling ex_store) by discriminate.
  assert (VI : valid_internal_split ex_cfg (ex_internal_pool 1)
                 ex_internal_item 3 = true) by (vm_compute; reflexivity).
  assert (VL : valid_leaf_split ex_cfg (ex_leaf_pool 1)
                 ex_leaf_item 3 = true) by (vm_compute; reflexivity).
  split; [exact H1|]. split; [exact H2|].
  split; [exact VI|]. split; [exact VL|]. split.
  - exact (proj1 (split_frame ex_cfg ex_store ex_internal_pool 1 3
                    ex_internal_item no_item 7
                    ex_ALIGN_pos ex_ObjectID_size H1 H2) (fun _ => VI)).
  - exact (proj2 (split_frame ex_cfg ex_store ex_leaf_pool 1 3
                    ex_leaf_item no_item 7
                    ex_ALIGN_pos ex_ObjectID_size H1 H2) (fun _ => VL)).
Defined.

Lemma split_partition_deterministic_witness :
  entries InternalEntry_at (ex_internal_pool 1)
  = entries InternalEntry_at (ex_internal_pool' 5) /\
  entries (LeafEntry_at ex_cfg) (ex_leaf_pool 1)
  = entries (LeafEntry_at ex_cfg) (ex_leaf_pool' 5) /\
  (entries InternalEntry_at
     (pool_of (edubtm_SplitInternal ex_cfg
                 ex_store ex_internal_pool 1 3 ex_internal_item no_item) 1)
   = entries InternalEntry_at
       (pool_of (edubtm_SplitInternal ex_cfg ex_store' ex_internal_pool' 5 3
                   ex_internal_item no_item) 5) /\
   entries InternalEntry_at
     (pool_of (edubtm_SplitInternal ex_cfg
                 ex_store ex_internal_pool 1 3 ex_internal_item no_item)
        (sibling ex_store))
   = entries InternalEntry_at
       (pool_of (edubtm_SplitInternal ex_cfg ex_store' ex_internal_pool' 5 3
                   ex_internal_item no_item) (sibling ex_store'))) /\
  (entries (LeafEntry_at ex_cfg)
     (pool_of (edubtm_SplitLeaf ex_cfg ex_store ex_leaf_pool 1 3
                 ex_leaf_item no_item) 1)
   = entries (LeafEntry_at ex_cfg)
       (pool_of (edubtm_SplitLeaf ex_cfg ex_store' ex_leaf_pool' 5 3
                   ex_leaf_item no_item) 5) /\
   entries (LeafEntry_at ex_cfg)
     (pool_of (edubtm_SplitLeaf ex_cfg ex_store ex_leaf_pool 1 3
                 ex_leaf_item no_item) (sibling ex_store))
   = entries (LeafEntry_at ex_cfg)
       (pool_of (edubtm_SplitLeaf ex_cfg ex_store' ex_leaf_pool' 5 3
                   ex_leaf_item no_item) (sibling ex_store'))).
Proof.
  assert (N1 : sibling ex_store <> 1) by discriminate.
  assert (N2 : sibling ex_store' <> 5) by discriminate.
  assert (EI : entries InternalEntry_at (ex_internal_pool 1)
               = entries InternalEntry_at (ex_internal_pool' 5))
    by (vm_compute; reflexivity).
  assert (EL : entries (LeafEntry_at ex_cfg)
                 (ex_leaf_pool 1)
               = entries (LeafEntry_at ex_cfg)
                   (ex_leaf_pool' 5))
    by (vm_compute; reflexivity).
  assert (VI1 : valid_internal_split ex_cfg (ex_internal_pool 1)
                  ex_internal_item 3 = true) by (vm_compute; reflexivity).
  assert (VI2 : valid_internal_split ex_cfg (ex_internal_pool' 5)
                  ex_internal_item 3 = true) by (vm_compute; reflexivity).
  assert (VL1 : valid_leaf_split ex_cfg (ex_leaf_pool 1)
                  ex_leaf_item 3 = true) by (vm_compute; reflexivity).
  assert (VL2 : valid_leaf_split ex_cfg (ex_leaf_pool' 5)
                  ex_leaf_item 3 = true) by (vm_compute; reflexivity).
  split; [exact EI|]. split; [exact EL|]. split.
  - exact (proj1 (split_partition_deterministic ex_cfg
                    ex_store ex_store' ex_internal_pool ex_internal_pool'
                    1 5 3 ex_internal_item no_item no_item
                    ex_ALIGN_pos ex_store_pinned ex_store'_pinned N1 N2)
             VI1 VI2 EI).
  - exact (proj2 (split_partition_deterministic ex_cfg
                    ex_store ex_store' ex_leaf_pool ex_leaf_pool'
                    1 5 3 ex_leaf_item no_item no_item
                    ex_ALIGN_pos ex_store_pinned ex_store'_pinned N1 N2)
             ex_ObjectID_size VL1 VL2 EL).
Defined.

(* ================================================================== *)
(** * The layout of the two pages *)

Lemma total_succ (Len : Z -> Z) (x : Z) :
  0 <= x -> total Len (Z.to_nat (x + 1)) = total Len (Z.to_nat x) + Len x.
Proof.
  intros H. replace (Z.to_nat (x + 1)) with (S (Z.to_nat x)) by lia.
  cbn [total]. now rewrite Z2Nat.id.
Qed.

Section WalkLayout.

Variable HALF : Z.
Variable copy : bool -> Z -> Mem -> Z -> Mem * Z.
Variables fpage npage : Z.
Variable b : BufferPool.
Variable m : nat.
Variable L : bool -> Z -> Z.
Variable W : Z -> Z.

Hypothesis Hne : fpage <> npage.
Hypothesis Hm : Z.of_nat m <= MAX_Two.
Hypothesis Hfit : total W m <= MAX_Two.
Hypothesis copy_len : forall s i d off,
  0 <= i < Z.of_nat m -> snd (copy s i d off) = L s i.
Hypothesis copy_frame : forall s i d off x,
  0 <= i < Z.of_nat m -> x < off \/ off + L s i <= x ->
  fst (copy s i d off) x = d x.
Hypothesis len_bounds : forall s i,
  0 <= i < Z.of_nat m -> 0 <= L s i <= W i.

Local Abbreviation body := (redistribute_body HALF copy fpage npage).
Local Abbreviation walk := (redistribute HALF copy fpage npage).

Lemma layout_W_nonneg (i : Z) : 0 <= i < Z.of_nat m -> 0 <= W i.
Proof. intros H. pose proof (len_bounds true i H). lia. Qed.

Lemma layout_total_le_max (c : nat) : (c <= m)%nat -> total W c <= MAX_Two.
Proof.
  intros H. pose proof (total_mono W c m layout_W_nonneg H). lia.
Qed.

Lemma packed_append (P : BtreePage) (cnt off len : Z) (Len : Z -> Z)
    (d : Mem) :
  0 <= cnt -> Len cnt = len -> packed P cnt off Len ->
  packed (set_hdr (set_slot (set_data P d) cnt off)
            (with_free (hdr (set_slot (set_data P d) cnt off)) (off + len)))
    (cnt + 1) (off + len) Len.
Proof.
  intros Hc HL (Hoff & Hfree & Hslot). unfold packed.
  cbn [set_hdr set_slot set_data hdr slot with_free free].
  split; [|split].
  - rewrite total_succ by lia. congruence.
  - reflexivity.
  - intros t Ht. destruct (Z.eqb_spec t cnt) as [->|Hneq]; [exact Hoff|].
    apply Hslot. lia.
Qed.

Lemma confined_append (P P0 : BtreePage) (cnt off len : Z) (d : Mem)
    (h : BtreePageHdr) :
  0 <= cnt -> 0 <= off -> 0 <= len ->
  (forall x, x < off \/ off + len <= x -> d x = data P x) ->
  confined P P0 cnt off ->
  confined (set_hdr (set_slot (set_data P d) cnt off) h) P0
    (cnt + 1) (off + len).
Proof.
  intros Hcnt Hoff Hlen Hd (Hdata & Hslot). unfold confined.
  cbn [set_hdr set_slot set_data data slot]. split.
  - intros x Hx. rewrite Hd by lia. apply Hdata. lia.
  - intros t Ht. destruct (Z.eqb_spec t cnt) as [->|Hneq]; [lia|].
    apply Hslot. lia.
Qed.

Lemma layout_inv_step (c : nat) (v : SplitVars) :
  (c < m)%nat ->
  layout_inv HALF fpage npage b L W c v ->
  layout_inv HALF fpage npage b L W (S c) (body (Z.of_nat c) v).
Proof.
  intros Hc (Hjk & Hj & Hk & Hf & Hn & Htot & Hs & Hfirst & Hlast & Hhalf
             & HpF & HpN & HcF & HcN).
  assert (Hi : 0 <= Z.of_nat c < Z.of_nat m) by lia.
  pose proof (layout_total_le_max (S c) ltac:(lia)) as Hmax. simpl in Hmax.
  unfold MAX_Two in *.
  unfold redistribute_body, layout_inv.
  destruct (sum v <? HALF) eqn:Hsum.
  - apply Z.ltb_lt in Hsum.
    assert (Hk0 : k v = 0) by lia.
    assert (Hn0 : nEntryOffset v = 0).
    { destruct HpN as (E & _). rewrite E, Hk0. reflexivity. }
    assert (Hjc : j v = Z.of_nat c) by lia.
    pose proof (copy_len true _ (data (pool v fpage)) (fEntryOffset v) Hi)
      as El.
    pose proof (copy_frame true (Z.of_nat c) (data (pool v fpage))
                  (fEntryOffset v))
      as Hfr.
    pose proof (len_bounds true _ Hi) as HL.
    destruct (copy true (Z.of_nat c) (data (pool v fpage)) (fEntryOffset v))
      as [d len].
    cbn [fst snd] in *. subst len.
    cbn [pool j k sum fEntryOffset nEntryOffset].
    rewrite toTwo_id, toFour_id by (unfold MAX_Two, sizeof_Two; lia).
    rewrite upd_same, upd_other by congruence.
    unfold sizeof_Two.
    change (total W (S c)) with (total W c + W (Z.of_nat c)).
    do 8 (split; [lia|]).
    split; [|split; [lia|]]; [|split; [|split; [|split]]].
    + intros _. cbn [set_hdr set_slot set_data slot].
      replace (j v + 1 - 1) with (j v) by lia. rewrite Z.eqb_refl. lia.
    + apply packed_append; [lia|now rewrite Hjc|exact HpF].
    + rewrite Hk0. split; [rewrite Hn0; reflexivity|]. split; intros; lia.
    + apply confined_append; [lia|lia|lia| |exact HcF].
      intros x Hx. apply Hfr; [exact Hi|exact Hx].
    + exact HcN.
  - apply Z.ltb_ge in Hsum.
    pose proof (copy_len false _ (data (pool v npage)) (nEntryOffset v) Hi)
      as El.
    pose proof (copy_frame false (Z.of_nat c) (data (pool v npage))
                  (nEntryOffset v))
      as Hfr.
    pose proof (len_bounds false _ Hi) as HL.
    destruct (copy false (Z.of_nat c) (data (pool v npage)) (nEntryOffset v))
      as [d len].
    cbn [fst snd] in *. subst len.
    cbn [pool j k sum fEntryOffset nEntryOffset].
    rewrite toTwo_id, toFour_id by (unfold MAX_Two, sizeof_Two; lia).
    rewrite upd_same, upd_other by congruence.
    unfold sizeof_Two.
    change (total W (S c)) with (total W c + W (Z.of_nat c)).
    do 7 (split; [lia|]).
    split; [|split; [exact Hlast|]]; [|split; [|split; [|split; [|split]]]].
    + intros HH _. destruct c as [|c'].
      * exfalso. assert (fEntryOffset v = 0).
        { destruct HpF as (E & _). rewrite E.
          replace (j v) with 0 by lia. reflexivity. }
        assert (k v = 0) by lia.
        assert (nEntryOffset v = 0).
        { destruct HpN as (E & _). rewrite E.
          replace (k v) with 0 by lia. reflexivity. }
        lia.
      * apply Hfirst; [exact HH|lia].
    + intros _. destruct (Z.eq_dec (k v) 0) as [E0|E0].
      * assert (nEntryOffset v = 0).
        { destruct HpN as (E & _). rewrite E, E0. reflexivity. }
        lia.
      * apply Hhalf. lia.
    + exact HpF.
    + apply (packed_append (pool v npage) (k v) (nEntryOffset v)
               (L false (Z.of_nat c)) (fun t => L false (j v + t)));
        [lia|f_equal; lia|exact HpN].
    + exact HcF.
    + apply confined_append; [lia|lia|lia| |exact HcN].
      intros x Hx. apply Hfr; [exact Hi|exact Hx].
Qed.

Lemma walk_layout (c : nat) :
  (c <= m)%nat -> layout_inv HALF fpage npage b L W c (walk c b).
Proof.
  intros Hc. induction c as [|c IH].
  - unfold layout_inv, packed, confined. simpl.
    do 7 (split; [lia|]). repeat split; intros; try lia; reflexivity.
  - unfold redistribute in *. cbn [for_loop].
    apply layout_inv_step; [lia|]. apply IH. lia.
Qed.

End WalkLayout.

Lemma total_plus_const (A : Z -> Z) (c : Z) (n : nat) :
  total (fun i => A i + c) n = total A n + c * Z.of_nat n.
Proof.
  induction n as [|n IH]; [simpl; lia|].
  cbn [total]. rewrite IH. lia.
Qed.

Section SplitLayout.

Variable cfg : Layout.
Local Abbreviation ALIGN := (ALIGN cfg).
Local Abbreviation BI_HALF := (BI_HALF cfg).
Local Abbreviation BL_HALF := (BL_HALF cfg).
Local Abbreviation sizeof_ObjectID := (sizeof_ObjectID cfg).
Local Abbreviation sizeof_InternalItem := (sizeof_InternalItem cfg).

Lemma maxLoop_of_valid (ps : PageStore) (b : BufferPool) (fpage : Z) :
  0 <= nSlots (hdr (b fpage)) < MAX_Two -> sibling ps <> fpage ->
  Z.to_nat (maxLoop_of ps b fpage) = Z.to_nat (nSlots (hdr (b fpage)) + 1).
Proof.
  intros Hn Hne. unfold maxLoop_of. rewrite upd_other by congruence.
  rewrite toTwo_id; [reflexivity|unfold MAX_Two in *; lia].
Qed.

Hypothesis ALIGN_pos : 0 < ALIGN.

Section Internal.

Variable ps : PageStore.
Variable b : BufferPool.
Variables fpage high : Z.
Variable item : Mem.
Hypothesis Hvalid : valid_internal_split cfg (b fpage) item high = true.
Hypothesis Hne : sibling ps <> fpage.

Local Abbreviation n := (nSlots (hdr (b fpage))).
Local Abbreviation v :=
  (SplitInternal_loop cfg ps b fpage high item
     (Z.to_nat (maxLoop_of ps b fpage))).

Lemma SplitInternal_layout :
  layout_inv BI_HALF fpage (sibling ps) (upd b (sibling ps) (fresh_page ps))
    (len_internal cfg (b fpage) item high)
    (width_internal cfg (b fpage) item high) (Z.to_nat (n + 1)) v.
Proof.
  pose proof (valid_internal_n cfg (b fpage) item high Hvalid) as Hn.
  rewrite (maxLoop_of_valid ps b fpage Hn Hne), SplitInternal_loop_walk.
  apply (walk_layout BI_HALF (copy_internal cfg (b fpage) item high)
           fpage (sibling ps) (upd b (sibling ps) (fresh_page ps))
           (Z.to_nat (n + 1))); try congruence.
  - unfold MAX_Two in *. lia.
  - now apply valid_internal_total.
  - intros. apply copy_internal_len.
  - intros. now apply copy_internal_frame.
  - intros s i Hi.
    pose proof (len_internal_bounds cfg ALIGN_pos (b fpage) item high
                  Hvalid s i Hi).
    pose proof (valid_internal_klen cfg (b fpage) item high Hvalid i Hi).
    lia.
  - lia.
Qed.

Lemma SplitInternal_content :
  walk_inv BI_HALF fpage (sibling ps) InternalEntry_at
    (width_internal cfg (b fpage) item high)
    (merged_internal (b fpage) item high) (Z.to_nat (n + 1)) v.
Proof.
  pose proof (valid_internal_n cfg (b fpage) item high Hvalid) as Hn.
  rewrite (maxLoop_of_valid ps b fpage Hn Hne), SplitInternal_loop_walk.
  apply (walk_content BI_HALF (copy_internal cfg (b fpage) item high)
           fpage (sibling ps) InternalEntry_at (Z.to_nat (n + 1))
           (len_internal cfg (b fpage) item high)); try congruence.
  - unfold MAX_Two in *. lia.
  - now apply valid_internal_total.
  - intros. apply copy_internal_len.
  - intros. now apply copy_internal_frame.
  - intros. now apply copy_internal_rd.
  - intros i d1 d2 off Hi. now apply internal_rd_local with (cfg := cfg).
  - intros s i Hi.
    rewrite (merged_internal_length cfg (b fpage) item high Hvalid i Hi).
    now apply len_internal_bounds.
  - lia.
Qed.

(** The entry lengths of a well-formed internal split: the unaligned
    length of the entry, and the aligned one for the new item when it goes
    to the page being split. *)
Lemma len_internal_valid (s : bool) (i : Z) :
  0 <= i < n + 1 ->
  len_internal cfg (b fpage) item high s i
  = Z.of_nat (length (merged_internal (b fpage) item high i))
    + (if (i + 1 =? high) && s
       then ALIGNED_LENGTH cfg (get_Two item IE_klen) - get_Two item IE_klen
       else 0).
Proof.
  intros Hi0.
  pose proof (valid_internal_n cfg (b fpage) item high Hvalid) as Hn.
  assert (Hi : 0 <= i < Z.of_nat (Z.to_nat (n + 1))) by lia.
  pose proof (len_internal_bounds cfg ALIGN_pos (b fpage) item high
                Hvalid s i Hi) as HL.
  pose proof (width_internal_bounds cfg ALIGN_pos (b fpage) item high
                Hvalid i Hi) as HW.
  pose proof (valid_internal_klen cfg (b fpage) item high Hvalid i Hi) as Hk.
  rewrite (merged_internal_length cfg (b fpage) item high Hvalid i Hi).
  rewrite len_internal_of_klen in *.
  unfold width_internal, sizeof_ShortPageID, sizeof_Two, MAX_Two in *.
  destruct ((i + 1 =? high) && s) eqn:E.
  - apply andb_true_iff in E. destruct E as (E & _).
    apply Z.eqb_eq in E.
    assert (Ek : merged_klen IE_klen IE_klen (b fpage) item high i
                 = get_Two item IE_klen).
    { unfold merged_klen. rewrite E, Z.ltb_irrefl, Z.eqb_refl. reflexivity. }
    rewrite Ek in *. rewrite toTwo_id by (unfold MAX_Two; lia). lia.
  - rewrite toTwo_id by (unfold MAX_Two; lia). lia.
Qed.

End Internal.

Hypothesis ObjectID_size : 0 <= sizeof_ObjectID.

Section Leaf.

Variable ps : PageStore.
Variable b : BufferPool.
Variables fpage high : Z.
Variable item : Mem.
Hypothesis Hvalid : valid_leaf_split cfg (b fpage) item high = true.
Hypothesis Hne : sibling ps <> fpage.

Local Abbreviation n := (nSlots (hdr (b fpage))).
Local Abbreviation v :=
  (SplitLeaf_loop cfg ps b fpage high item
     (Z.to_nat (maxLoop_of ps b fpage))).

Lemma SplitLeaf_layout :
  layout_inv BL_HALF fpage (sibling ps) (upd b (sibling ps) (fresh_page ps))
    (len_leaf cfg (b fpage) item high)
    (width_leaf cfg (b fpage) item high) (Z.to_nat (n + 1)) v.
Proof.
  pose proof (valid_leaf_n cfg (b fpage) item high Hvalid) as Hn.
  rewrite (maxLoop_of_valid ps b fpage Hn Hne), SplitLeaf_loop_walk.
  apply (walk_layout BL_HALF (copy_leaf cfg (b fpage) item high)
           fpage (sibling ps) (upd b (sibling ps) (fresh_page ps))
           (Z.to_nat (n + 1))); try congruence.
  - unfold MAX_Two in *. lia.
  - now apply valid_leaf_total.
  - intros. apply copy_leaf_len.
  - intros. now apply copy_leaf_frame.
  - intros s i Hi.
    rewrite (len_leaf_width cfg ALIGN_pos ObjectID_size (b fpage) item high
               Hvalid s i Hi).
    pose proof (width_leaf_bounds cfg ALIGN_pos ObjectID_size (b fpage) item
                  high Hvalid i Hi). lia.
  - lia.
Qed.

Lemma SplitLeaf_content :
  walk_inv BL_HALF fpage (sibling ps) (LeafEntry_at cfg)
    (width_leaf cfg (b fpage) item high)
    (merged_leaf cfg (b fpage) item high) (Z.to_nat (n + 1)) v.
Proof.
  pose proof (valid_leaf_n cfg (b fpage) item high Hvalid) as Hn.
  rewrite (maxLoop_of_valid ps b fpage Hn Hne), SplitLeaf_loop_walk.
  apply (walk_content BL_HALF (copy_leaf cfg (b fpage) item high)
           fpage (sibling ps) (LeafEntry_at cfg) (Z.to_nat (n + 1))
           (len_leaf cfg (b fpage) item high)); try congruence.
  - unfold MAX_Two in *. lia.
  - now apply valid_leaf_total.
  - intros. apply copy_leaf_len.
  - intros. now apply copy_leaf_frame.
  - intros. now apply copy_leaf_rd.
  - intros i d1 d2 off Hi. now apply leaf_rd_local.
  - intros s i Hi.
    rewrite (merged_leaf_length cfg ALIGN_pos ObjectID_size
               (b fpage) item high Hvalid i Hi).
    rewrite (len_leaf_width cfg ALIGN_pos ObjectID_size
               (b fpage) item high Hvalid s i Hi). lia.
  - lia.
Qed.

Lemma len_leaf_valid (s : bool) (i : Z) :
  0 <= i < n + 1 ->
  len_leaf cfg (b fpage) item high s i
  = Z.of_nat (length (merged_leaf cfg (b fpage) item high i)).
Proof.
  intros Hi0.
  pose proof (valid_leaf_n cfg (b fpage) item high Hvalid) as Hn.
  assert (Hi : 0 <= i < Z.of_nat (Z.to_nat (n + 1))) by lia.
  rewrite (merged_leaf_length cfg ALIGN_pos ObjectID_size
             (b fpage) item high Hvalid i Hi).
  now apply len_leaf_width.
Qed.

End Leaf.

End SplitLayout.

Lemma laid_out_ext (P : BtreePage) (Len Len' : Z -> Z) :
  (forall t, 0 <= t < nSlots (hdr P) -> Len' t = Len t) ->
  laid_out P Len -> laid_out P Len'.
Proof.
  unfold laid_out. intros E H Hn. destruct (H Hn) as (H0 & Hs & Hf).
  split; [exact H0|]. split.
  - intros t Ht. rewrite E by lia. now apply Hs.
  - rewrite E by lia. exact Hf.
Qed.

(** What the invariant says about the two pages once the slot counts are
    stored in their headers. *)
Lemma layout_inv_pages (HALF fpage npage : Z) (b : BufferPool)
    (L : bool -> Z -> Z) (W : Z -> Z) (c : nat) (v : SplitVars)
    (hF hN : BtreePageHdr) :
  layout_inv HALF fpage npage b L W c v ->
  nSlots hF = j v -> free hF = free (hdr (pool v fpage)) ->
  nSlots hN = k v -> free hN = free (hdr (pool v npage)) ->
  let F := set_hdr (pool v fpage) hF in
  let N := set_hdr (pool v npage) hN in
  nSlots hF + nSlots hN = Z.of_nat c /\ 0 <= nSlots hF /\ 0 <= nSlots hN /\
  laid_out F (L true) /\
  laid_out N (fun t => L false (nSlots hF + t)) /\
  (0 < HALF -> 0 < Z.of_nat c -> 0 < nSlots hF) /\
  (0 < nSlots hF ->
   slot F (nSlots hF - 1) + 2 * (nSlots hF - 1) < HALF) /\
  (0 < nSlots hN ->
   HALF <= total (fun i => L true i + 2) (Z.to_nat (nSlots hF))) /\
  (0 < nSlots hF -> 0 < nSlots hN -> HALF <= free hF + 2 * nSlots hF) /\
  confined F (b fpage) (nSlots hF) (if 0 <? nSlots hF then free hF else 0) /\
  confined N (b npage) (nSlots hN) (if 0 <? nSlots hN then free hN else 0).
Proof.
  intros (Hjk & Hj & Hk & Hf & Hn & Htot & Hs & Hfirst & Hlast & Hhalf
          & HpF & HpN & HcF & HcN) EjF EfF EkN EfN F N.
  assert (Hlay : forall (P : BtreePage) (h : BtreePageHdr) cnt off Len,
            0 <= cnt -> packed P cnt off Len -> nSlots h = cnt ->
            free h = free (hdr P) -> laid_out (set_hdr P h) Len).
  { intros P h cnt off Len Hcnt (Eoff & Efree & Eslot) En Ef Hpos.
    cbn [set_hdr hdr slot] in *. rewrite En in *.
    split; [|split].
    - rewrite Eslot by lia. reflexivity.
    - intros t Ht. rewrite !Eslot by lia. now apply total_succ.
    - rewrite Ef, Efree, Eoff, Eslot by lia.
      replace cnt with (cnt - 1 + 1) at 1 by lia.
      apply total_succ. lia. }
  assert (Hoff : forall cnt off (fr : Z),
            0 <= cnt -> (0 < cnt -> fr = off) -> (cnt = 0 -> off = 0) ->
            (if 0 <? cnt then fr else 0) = off).
  { intros cnt off fr Hc0 H1 H2. destruct (Z.ltb_spec 0 cnt); [auto|].
    symmetry. apply H2. lia. }
  rewrite EjF, EkN.
  split; [exact Hjk|]. split; [exact Hj|]. split; [exact Hk|].
  split; [apply (Hlay _ _ (j v) (fEntryOffset v)); assumption|].
  split; [apply (Hlay _ _ (k v) (nEntryOffset v)); assumption|].
  split; [exact Hfirst|]. split; [exact Hlast|].
  split.
  { intros Hk1. rewrite total_plus_const, Z2Nat.id by lia.
    destruct HpF as (E & _). rewrite <- E. specialize (Hhalf Hk1). lia. }
  split.
  { intros Hj1 Hk1. rewrite EfF. destruct HpF as (_ & E & _).
    rewrite E by lia. now apply Hhalf. }
  split.
  - subst F. unfold confined in *. cbn [set_hdr data slot].
    rewrite (Hoff (j v) (fEntryOffset v)); [exact HcF|lia| |].
    + intros H. rewrite EfF. destruct HpF as (_ & E & _). now apply E.
    + intros H. destruct HpF as (E & _). rewrite E, H. reflexivity.
  - subst N. unfold confined in *. cbn [set_hdr data slot].
    rewrite (Hoff (k v) (nEntryOffset v)); [exact HcN|lia| |].
    + intros H. rewrite EfN. destruct HpN as (_ & E & _). now apply E.
    + intros H. destruct HpN as (E & _). rewrite E, H. reflexivity.
Qed.

Lemma read_memcpy_shift (dst : Mem) (d : Z) (src : Mem) (s n a n' : Z) :
  0 <= a -> a + n' <= n ->
  read (memcpy dst d src s n) (d + a) n' = read src (s + a) n'.
Proof.
  intros Ha H. unfold read. apply map_ext_in. intros i Hi.
  apply in_seq in Hi. rewrite memcpy_in by lia. f_equal. lia.
Qed.

Lemma for_loop_ext_below {S : Type} (f g : Z -> S -> S) (n : nat) (s : S) :
  (forall i x, 0 <= i < Z.of_nat n -> f i x = g i x) ->
  for_loop f n s = for_loop g n s.
Proof.
  induction n as [|n IH]; intros H; simpl; [reflexivity|].
  rewrite IH by (intros; apply H; lia). apply H. lia.
Qed.

(* ================================================================== *)
(** * The layout of the two pages after a split *)

Section Layouts.

Variable cfg : Layout.
Local Abbreviation ALIGN := (ALIGN cfg).
Local Abbreviation BI_HALF := (BI_HALF cfg).
Local Abbreviation BL_HALF := (BL_HALF cfg).
Local Abbreviation sizeof_ObjectID := (sizeof_ObjectID cfg).
Local Abbreviation sizeof_InternalItem := (sizeof_InternalItem cfg).

(** The two pages of a well-formed internal split whose new page is
    pinned, with what the loop established about them. *)
Lemma SplitInternal_pages
    (ps : PageStore) (b : BufferPool) (fpage high : Z) (item ritem : Mem) :
  0 < ALIGN -> sibling_pinned ps -> sibling ps <> fpage ->
  valid_internal_split cfg (b fpage) item high = true ->
  let r := edubtm_SplitInternal cfg ps b fpage high item ritem in
  let F := pool_of r fpage in
  let N := pool_of r (sibling ps) in
  let n := nSlots (hdr (b fpage)) in
  let L := len_internal cfg (b fpage) item high in
  let M := merged_internal (b fpage) item high in
  (nSlots (hdr F) + nSlots (hdr N) = n + 1 /\
   0 <= nSlots (hdr F) /\ 0 <= nSlots (hdr N)) /\
  (laid_out F (L true) /\
   laid_out N (fun t => L false (nSlots (hdr F) + t))) /\
  ((0 < BI_HALF -> 0 < nSlots (hdr F)) /\
   (0 < nSlots (hdr F) ->
    slot F (nSlots (hdr F) - 1) + 2 * (nSlots (hdr F) - 1) < BI_HALF) /\
   (0 < nSlots (hdr N) ->
    BI_HALF <= total (fun i => L true i + 2) (Z.to_nat (nSlots (hdr F)))) /\
   (0 < nSlots (hdr F) -> 0 < nSlots (hdr N) ->
    BI_HALF <= free (hdr F) + 2 * nSlots (hdr F))) /\
  (written_within F (b fpage) /\ written_within N (fresh_page ps)) /\
  ((forall t, 0 <= t < nSlots (hdr F) ->
      InternalEntry_at (data F) (slot F t) = M t) /\
   (forall t, 0 <= t < nSlots (hdr N) ->
      InternalEntry_at (data N) (slot N t) = M (nSlots (hdr F) + t))).
Proof.
  intros HA Hpin Hne Hvalid r F N n L M.
  pose proof (valid_internal_n cfg (b fpage) item high Hvalid) as Hn.
  destruct (SplitInternal_result cfg ps b fpage high item ritem Hpin Hne)
    as (EF & EN & _).
  pose proof (SplitInternal_layout cfg HA ps b fpage high item Hvalid Hne)
    as HL.
  destruct (SplitInternal_content cfg HA ps b fpage high item Hvalid Hne)
    as (_ & _ & _ & _ & _ & _ & _ & _ & HsF & HsN).
  set (v := SplitInternal_loop cfg ps b fpage high item
              (Z.to_nat (maxLoop_of ps b fpage))) in *.
  fold r F in EF. fold r N in EN.
  destruct (layout_inv_pages _ _ _ _ _ _ _ _
              (with_nSlots (hdr (pool v fpage)) (j v))
              (with_nSlots
                 (with_p0 (hdr (pool v (sibling ps)))
                    (get_Four (data (pool v (sibling ps)))
                       (slot (pool v (sibling ps)) 0))) (k v))
              HL eq_refl eq_refl eq_refl eq_refl)
    as (H1 & H2 & H3 & H4 & H5 & H6 & H7 & H8 & H9 & H10 & H11).
  rewrite <- EF in H4, H7, H10. rewrite <- EN in H5, H11.
  assert (EjF : nSlots (hdr F) = j v) by (rewrite EF; reflexivity).
  assert (EkN : nSlots (hdr N) = k v) by (rewrite EN; reflexivity).
  assert (EfF : free (hdr F) = free (with_nSlots (hdr (pool v fpage)) (j v)))
    by (rewrite EF; reflexivity).
  assert (EfN : free (hdr N)
                = free (with_nSlots
                          (with_p0 (hdr (pool v (sibling ps)))
                             (get_Four (data (pool v (sibling ps)))
                                (slot (pool v (sibling ps)) 0))) (k v)))
    by (rewrite EN; reflexivity).
  cbn [with_nSlots nSlots] in H1, H2, H3, H4, H5, H6, H7, H8, H9, H10, H11.
  rewrite <- ?EjF, <- ?EkN, <- ?EfF, <- ?EfN in *.
  rewrite upd_other in H10 by congruence. rewrite upd_same in H11.
  split; [repeat split; lia|]. split; [split; assumption|].
  split; [repeat split; try assumption; intros; apply H6; lia|].
  split; [split; assumption|].
  split.
  - intros t Ht. rewrite EF. cbn [set_hdr data slot]. apply HsF. lia.
  - intros t Ht. rewrite EF, EN. cbn [set_hdr data slot hdr with_nSlots nSlots].
    apply (HsN t). lia.
Qed.

(** The same for a well-formed leaf split. *)
Lemma SplitLeaf_pages
    (ps : PageStore) (b : BufferPool) (fpage high : Z) (item ritem : Mem) :
  0 < ALIGN -> 0 <= sizeof_ObjectID ->
  sibling_pinned ps -> sibling ps <> fpage ->
  valid_leaf_split cfg (b fpage) item high = true ->
  let r := edubtm_SplitLeaf cfg ps b fpage high item ritem in
  let F := pool_of r fpage in
  let N := pool_of r (sibling ps) in
  let n := nSlots (hdr (b fpage)) in
  let L := len_leaf cfg (b fpage) item high in
  let M := merged_leaf cfg (b fpage) item high in
  (nSlots (hdr F) + nSlots (hdr N) = n + 1 /\
   0 <= nSlots (hdr F) /\ 0 <= nSlots (hdr N)) /\
  (laid_out F (L true) /\
   laid_out N (fun t => L false (nSlots (hdr F) + t))) /\
  ((0 < BL_HALF -> 0 < nSlots (hdr F)) /\
   (0 < nSlots (hdr F) ->
    slot F (nSlots (hdr F) - 1) + 2 * (nSlots (hdr F) - 1) < BL_HALF) /\
   (0 < nSlots (hdr N) ->
    BL_HALF <= total (fun i => L true i + 2) (Z.to_nat (nSlots (hdr F)))) /\
   (0 < nSlots (hdr F) -> 0 < nSlots (hdr N) ->
    BL_HALF <= free (hdr F) + 2 * nSlots (hdr F))) /\
  (written_within F (b fpage) /\ written_within N (fresh_page ps)) /\
  ((forall t, 0 <= t < nSlots (hdr F) ->
      LeafEntry_at cfg (data F) (slot F t) = M t) /\
   (forall t, 0 <= t < nSlots (hdr N) ->
      LeafEntry_at cfg (data N) (slot N t) = M (nSlots (hdr F) + t))).
Proof.
  intros HA HO Hpin Hne Hvalid r F N n L M.
  pose proof (valid_leaf_n cfg (b fpage) item high Hvalid) as Hn.
  destruct (SplitLeaf_result cfg ps b fpage high item ritem Hpin Hne)
    as (EF & EN & _).
  pose proof (SplitLeaf_layout cfg HA HO ps b fpage high item Hvalid Hne)
    as HL.
  destruct (SplitLeaf_content cfg HA HO ps b fpage high item Hvalid Hne)
    as (_ & _ & _ & _ & _ & _ & _ & _ & HsF & HsN).
  set (v := SplitLeaf_loop cfg ps b fpage high item
              (Z.to_nat (maxLoop_of ps b fpage))) in *.
  fold r F in EF. fold r N in EN.
  destruct (layout_inv_pages _ _ _ _ _ _ _ _
              (with_nextPage (with_nSlots (hdr (pool v fpage)) (j v))
                 (pageNo (pid (hdr (pool v (sibling ps))))))
              (with_nextPage
                 (with_prevPage
                    (with_nSlots (hdr (pool v (sibling ps))) (k v))
                    (pageNo (pid (hdr (pool v fpage)))))
                 (nextPage (hdr (pool v fpage))))
              HL eq_refl eq_refl eq_refl eq_refl)
    as (H1 & H2 & H3 & H4 & H5 & H6 & H7 & H8 & H9 & H10 & H11).
  rewrite <- EF in H4, H7, H10. rewrite <- EN in H5, H11.
  assert (EjF : nSlots (hdr F) = j v) by (rewrite EF; reflexivity).
  assert (EkN : nSlots (hdr N) = k v) by (rewrite EN; reflexivity).
  assert (EfF : free (hdr F)
                = free (with_nextPage
                          (with_nSlots (hdr (pool v fpage)) (j v))
                          (pageNo (pid (hdr (pool v (sibling ps)))))))
    by (rewrite EF; reflexivity).
  assert (EfN : free (hdr N)
                = free (with_nextPage
                          (with_prevPage
                             (with_nSlots (hdr (pool v (sibling ps))) (k v))
                             (pageNo (pid (hdr (pool v fpage)))))
                          (nextPage (hdr (pool v fpage)))))
    by (rewrite EN; reflexivity).
  cbn [with_nSlots with_nextPage with_prevPage nSlots]
    in H1, H2, H3, H4, H5, H6, H7, H8, H9, H10, H11.
  rewrite <- ?EjF, <- ?EkN, <- ?EfF, <- ?EfN in *.
  rewrite upd_other in H10 by congruence. rewrite upd_same in H11.
  split; [repeat split; lia|]. split; [split; assumption|].
  split; [repeat split; try assumption; intros; apply H6; lia|].
  split; [split; assumption|].
  split.
  - intros t Ht. rewrite EF. cbn [set_hdr data slot]. apply HsF. lia.
  - intros t Ht. rewrite EF, EN.
    cbn [set_hdr data slot hdr with_nSlots with_nextPage with_prevPage nSlots].
    apply (HsN t). lia.
Qed.

End Layouts.

Section Failures.

Variable cfg : Layout.

(** A call whose allocation, initialisation or pinning fails returns
    before it writes to the page being split or to [ritem]. *)
Lemma SplitInternal_early_return
    (ps : PageStore) (b : BufferPool) (fpage high : Z) (item ritem : Mem) :
  AllocPage_status ps < 0 \/ Init_status ps < 0 \/ GetTrain_status ps < 0 ->
  sibling ps <> fpage ->
  let r := edubtm_SplitInternal cfg ps b fpage high item ritem in
  pool_of r fpage = b fpage /\ ritem_of r = ritem.
Proof.
  intros Hfail Hne r. subst r. unfold sibling in Hne.
  unfold edubtm_SplitInternal, btm_AllocPage, edubtm_InitInternal,
    BfM_GetTrain, pool_of, ritem_of.
  cbv beta iota zeta.
  destruct (Z.ltb_spec (AllocPage_status ps) 0) as [Ha|Ha];
    [cbn [fst snd]; split; reflexivity|].
  destruct (Z.ltb_spec (Init_status ps) 0) as [Hi|Hi]; cbv beta iota zeta.
  { destruct (Z.ltb_spec (Init_status ps) 0); [|lia].
    cbn [fst snd]. rewrite upd_other by congruence. split; reflexivity. }
  destruct (Z.ltb_spec (Init_status ps) 0); [lia|].
  destruct (Z.ltb_spec (GetTrain_status ps) 0) as [Hg|Hg]; [|lia].
  cbn [fst snd]. rewrite upd_other by congruence. split; reflexivity.
Qed.

Lemma SplitLeaf_early_return
    (ps : PageStore) (b : BufferPool) (fpage high : Z) (item ritem : Mem) :
  AllocPage_status ps < 0 \/ Init_status ps < 0 \/ GetTrain_status ps < 0 ->
  sibling ps <> fpage ->
  let r := edubtm_SplitLeaf cfg ps b fpage high item ritem in
  pool_of r fpage = b fpage /\ ritem_of r = ritem.
Proof.
  intros Hfail Hne r. subst r. unfold sibling in Hne.
  unfold edubtm_SplitLeaf, btm_AllocPage, edubtm_InitLeaf,
    BfM_GetTrain, pool_of, ritem_of.
  cbv beta iota zeta.
  destruct (Z.ltb_spec (AllocPage_status ps) 0) as [Ha|Ha];
    [cbn [fst snd]; split; reflexivity|].
  destruct (Z.ltb_spec (Init_status ps) 0) as [Hi|Hi]; cbv beta iota zeta.
  { destruct (Z.ltb_spec (Init_status ps) 0); [|lia].
    cbn [fst snd]. rewrite upd_other by congruence. split; reflexivity. }
  destruct (Z.ltb_spec (Init_status ps) 0); [lia|].
  destruct (Z.ltb_spec (GetTrain_status ps) 0) as [Hg|Hg]; [|lia].
  cbn [fst snd]. rewrite upd_other by congruence. split; reflexivity.
Qed.

(** An item that no iteration reaches does not matter. *)
Lemma SplitInternal_pinned_past_end (b : BufferPool) (tpage : BtreeInternal)
    (fpage npage high : Z) (item item' ritem : Mem) :
  0 <= nSlots (hdr (b fpage)) < MAX_Two ->
  nSlots (hdr (b fpage)) + 1 < high ->
  SplitInternal_pinned cfg b tpage fpage npage high item ritem
  = SplitInternal_pinned cfg b tpage fpage npage high item' ritem.
Proof.
  intros Hn Hhigh. unfold SplitInternal_pinned.
  rewrite (for_loop_ext_below
             (SplitInternal_body cfg tpage item high fpage npage)
             (SplitInternal_body cfg tpage item' high fpage npage));
    [reflexivity|].
  intros i x Hi. rewrite toTwo_id in Hi by (unfold MAX_Two in *; lia).
  unfold SplitInternal_body.
  assert (E : (i + 1 <? high) = true) by (apply Z.ltb_lt; lia).
  rewrite E. reflexivity.
Qed.

Lemma SplitLeaf_pinned_past_end (b : BufferPool) (tpage : BtreeLeaf)
    (fpage npage high : Z) (item item' ritem : Mem) :
  0 <= nSlots (hdr (b fpage)) < MAX_Two ->
  nSlots (hdr (b fpage)) + 1 < high ->
  SplitLeaf_pinned cfg b tpage fpage npage high item ritem
  = SplitLeaf_pinned cfg b tpage fpage npage high item' ritem.
Proof.
  intros Hn Hhigh. unfold SplitLeaf_pinned.
  rewrite (for_loop_ext_below
             (SplitLeaf_body cfg tpage item high fpage npage)
             (SplitLeaf_body cfg tpage item' high fpage npage));
    [reflexivity|].
  intros i x Hi. rewrite toTwo_id in Hi by (unfold MAX_Two in *; lia).
  unfold SplitLeaf_body.
  assert (E : (i + 1 <? high) = true) by (apply Z.ltb_lt; lia).
  rewrite E. reflexivity.
Qed.

Lemma SplitInternal_loop_hdr (ps : PageStore) (b : BufferPool)
    (fpage high : Z) (item : Mem) (n : nat) (q : Z) :
  hdr_agree
    (hdr (upd b (sibling ps) (init_page ps (AllocPage_newPid ps)) q))
    (hdr (pool (SplitInternal_loop cfg ps b fpage high item n) q)).
Proof. rewrite SplitInternal_loop_walk. apply walk_hdr. Qed.

End Failures.

Lemma ALIGNED_LENGTH_pad (cfg : Layout) (x : Z) :
  0 < ALIGN cfg -> 0 <= ALIGNED_LENGTH cfg x - x < ALIGN cfg.
Proof.
  intros H. unfold ALIGNED_LENGTH.
  pose proof (Z.mod_pos_bound x (ALIGN cfg) H).
  destruct (Z.eqb_spec (x mod ALIGN cfg) 0); lia.
Qed.

Lemma ALIGNED_LENGTH_aligned (cfg : Layout) (x : Z) :
  x mod ALIGN cfg = 0 -> ALIGNED_LENGTH cfg x = x.
Proof. intros H. unfold ALIGNED_LENGTH. now rewrite H. Qed.

Lemma aligned_keys_klen (cfg : Layout) (tpage : BtreeInternal) (item : Mem)
    (high i : Z) :
  aligned_keys cfg tpage item high = true ->
  0 <= i < nSlots (hdr tpage) + 1 ->
  merged_klen IE_klen IE_klen tpage item high i mod ALIGN cfg = 0.
Proof.
  unfold aligned_keys. intros H Hi. rewrite forallb_forall in H.
  specialize (H (Z.to_nat i)). rewrite Z2Nat.id in H by lia.
  apply Z.eqb_eq. apply H. apply in_seq. lia.
Qed.

(* ================================================================== *)
(** * Order preservation and the reads behind the up-entry

    The two properties of the specification that rest on the layout of the
    pages. *)

Lemma head_Two_read (d : Mem) (off n : Z) :
  (2 <= length (read d off n))%nat -> head_Two (read d off n) = get_Two d off.
Proof.
  intros H. rewrite read_length in H.
  unfold head_Two, get_Two, sizeof_Two. f_equal. f_equal.
  replace n with (2 + (n - 2)) by lia.
  rewrite read_app by lia.
  assert (E : length (read d off 2) = 2%nat) by now rewrite read_length.
  rewrite firstn_app, E, Nat.sub_diag, firstn_O, app_nil_r.
  rewrite <- E at 1. apply firstn_all.
Qed.

Lemma head_Two_app (l1 l2 : list byte) :
  (2 <= length l1)%nat -> head_Two (l1 ++ l2) = head_Two l1.
Proof.
  intros H. unfold head_Two. rewrite firstn_app.
  replace (2 - length l1)%nat with 0%nat by lia.
  now rewrite firstn_O, app_nil_r.
Qed.

Section SpecEntries.

Variable cfg : Layout.
Local Abbreviation ALIGN := (ALIGN cfg).
Local Abbreviation BI_HALF := (BI_HALF cfg).
Local Abbreviation BL_HALF := (BL_HALF cfg).
Local Abbreviation sizeof_ObjectID := (sizeof_ObjectID cfg).
Local Abbreviation sizeof_InternalItem := (sizeof_InternalItem cfg).
Local Abbreviation LI_nObjects := (LI_nObjects cfg).

(** An entry that announces one object identifier is the entry that the
    code copies. *)
Lemma LeafEntry_spec_single (d : Mem) (off : Z) :
  get_Two d off = 1 -> LeafEntry_spec_at cfg d off = LeafEntry_at cfg d off.
Proof.
  intros H. unfold LeafEntry_spec_at, LeafEntry_at.
  now rewrite H, Z.mul_1_l.
Qed.

(** The number of objects that the entries of the merged sequence
    announce. *)
Lemma merged_leaf_head (tpage : BtreeLeaf) (item : Mem) (high i : Z) :
  0 < ALIGN -> 0 <= sizeof_ObjectID ->
  valid_leaf_split cfg tpage item high = true ->
  single_objects cfg tpage item = true ->
  0 <= i < nSlots (hdr tpage) + 1 ->
  head_Two (merged_leaf cfg tpage item high i) = 1.
Proof.
  intros HA HO Hvalid Hone Hi.
  pose proof (valid_leaf_n cfg tpage item high Hvalid) as Hn.
  pose proof (valid_leaf_high cfg tpage item high Hvalid) as Hh.
  pose proof (valid_leaf_klen cfg tpage item high Hvalid i ltac:(lia)) as Hk.
  unfold single_objects in Hone. apply andb_true_iff in Hone.
  destruct Hone as (Hold & Hitem). apply Z.eqb_eq in Hitem.
  rewrite forallb_forall in Hold.
  assert (Hslot : forall t, 0 <= t < nSlots (hdr tpage) ->
            get_Two (data tpage) (slot tpage t) = 1).
  { intros t Ht. specialize (Hold (Z.to_nat t)).
    rewrite Z2Nat.id in Hold by lia. apply Z.eqb_eq, Hold, in_seq. lia. }
  assert (Hat : forall t, 0 <= t < nSlots (hdr tpage) ->
            0 <= get_Two (data tpage) (slot tpage t + LE_klen) ->
            head_Two (LeafEntry_at cfg (data tpage) (slot tpage t)) = 1).
  { intros t Ht Hkt. unfold LeafEntry_at. rewrite head_Two_read.
    - now apply Hslot.
    - rewrite read_length.
      pose proof (ALIGNED_LENGTH_ge cfg
                    (get_Two (data tpage) (slot tpage t + LE_klen)) HA).
      unfold sizeof_Two. lia. }
  revert Hk. unfold merged_leaf, merged_klen.
  destruct (Z.ltb_spec (i + 1) high); [|destruct (Z.eqb_spec (i + 1) high)];
    intros Hk.
  - apply Hat; [lia|exact Hk].
  - unfold LeafEntry_of_item.
    pose proof (ALIGNED_LENGTH_ge cfg (get_Two item (LI_klen cfg)) HA).
    rewrite head_Two_app by (rewrite read_length; unfold sizeof_Two; lia).
    rewrite head_Two_read by (rewrite read_length; unfold sizeof_Two; lia).
    exact Hitem.
  - apply Hat; [lia|exact Hk].
Qed.

(** In a page whose entries are entries of the merged sequence, read as
    the code copies them, every entry announces one object identifier, and
    the entries read with all their object identifiers are the same. *)
Lemma entries_spec_copied (tpage : BtreeLeaf) (item : Mem) (high : Z)
    (P : BtreePage) (f : Z -> Z) :
  0 < ALIGN -> 0 <= sizeof_ObjectID ->
  valid_leaf_split cfg tpage item high = true ->
  single_objects cfg tpage item = true ->
  (forall t, 0 <= t < nSlots (hdr P) ->
     0 <= f t < nSlots (hdr tpage) + 1 /\
     LeafEntry_at cfg (data P) (slot P t)
     = merged_leaf cfg tpage item high (f t)) ->
  entries (LeafEntry_spec_at cfg) P = entries (LeafEntry_at cfg) P.
Proof.
  intros HA HO Hvalid Hone HP. unfold entries, entries_upto.
  apply map_ext_in. intros t Ht. apply in_seq in Ht.
  destruct (HP (Z.of_nat t) ltac:(lia)) as (Hf & E).
  apply LeafEntry_spec_single.
  pose proof (merged_leaf_length cfg HA HO tpage item high Hvalid
                (f (Z.of_nat t)) ltac:(lia)) as Hlen.
  pose proof (width_leaf_bounds cfg HA HO tpage item high Hvalid
                (f (Z.of_nat t)) ltac:(lia)) as (_ & Hw).
  assert (Hl : (2 <= length (LeafEntry_at cfg (data P)
                               (slot P (Z.of_nat t))))%nat)
    by (rewrite E; lia).
  rewrite <- (merged_leaf_head tpage item high (f (Z.of_nat t))
                HA HO Hvalid Hone Hf), <- E.
  symmetry. unfold LeafEntry_at in *. now apply head_Two_read.
Qed.

Lemma entries_spec_single (tpage : BtreeLeaf) (item : Mem) :
  single_objects cfg tpage item = true ->
  entries (LeafEntry_spec_at cfg) tpage = entries (LeafEntry_at cfg) tpage.
Proof.
  intros Hone. unfold single_objects in Hone. apply andb_true_iff in Hone.
  destruct Hone as (Hold & _). rewrite forallb_forall in Hold.
  unfold entries, entries_upto. apply map_ext_in. intros t Ht.
  apply LeafEntry_spec_single, Z.eqb_eq, Hold, Ht.
Qed.

End SpecEntries.

Section AmendedProperties.

Variable cfg : Layout.
Local Abbreviation ALIGN := (ALIGN cfg).
Local Abbreviation BI_HALF := (BI_HALF cfg).
Local Abbreviation BL_HALF := (BL_HALF cfg).
Local Abbreviation sizeof_ObjectID := (sizeof_ObjectID cfg).
Local Abbreviation sizeof_InternalItem := (sizeof_InternalItem cfg).

(** C3 (as amended). Order preservation: after a well-formed split whose
    new page is pinned, the entries of the page being split followed by the
    entries of the new page, both read in slot order, are the entries the
    page had on entry with the new item inserted in front of position
    [high - 1] (0-based).  For the leaf splitter the entries are read with
    all the object identifiers they announce, and the page and the item
    are required to announce one object identifier per entry. *)
Theorem split_order_preservation
    (ps : PageStore) (b : BufferPool) (fpage high : Z) (item ritem : Mem) :
  0 < ALIGN -> sibling_pinned ps -> sibling ps <> fpage ->
  let rI := edubtm_SplitInternal cfg ps b fpage high item ritem in
  let rL := edubtm_SplitLeaf cfg ps b fpage high item ritem in
  (valid_internal_split cfg (b fpage) item high = true ->
   entries InternalEntry_at (pool_of rI fpage)
   ++ entries InternalEntry_at (pool_of rI (sibling ps))
   = insert_at (Z.to_nat (high - 1)) (InternalEntry_at item 0)
       (entries InternalEntry_at (b fpage))) /\
  (0 <= sizeof_ObjectID ->
   valid_leaf_split cfg (b fpage) item high = true ->
   single_objects cfg (b fpage) item = true ->
   entries (LeafEntry_spec_at cfg) (pool_of rL fpage)
   ++ entries (LeafEntry_spec_at cfg) (pool_of rL (sibling ps))
   = insert_at (Z.to_nat (high - 1))
       (LeafEntry_of_item cfg item)
       (entries (LeafEntry_spec_at cfg) (b fpage))).
Proof.
  intros HA Hpin Hne rI rL.
  destruct (split_copied_entries cfg ps b fpage high item ritem HA Hpin Hne)
    as (HI & HL).
  fold rI in HI. fold rL in HL.
  split; [exact HI|]. intros HO Hvalid Hone.
  destruct (SplitLeaf_pages cfg ps b fpage high item ritem
              HA HO Hpin Hne Hvalid)
    as ((Hc & Hj & Hk) & _ & _ & _ & (HeF & HeN)).
  fold rL in Hc, Hj, Hk, HeF, HeN.
  rewrite (entries_spec_copied cfg (b fpage) item high (pool_of rL fpage)
             (fun t => t) HA HO Hvalid Hone)
    by (intros t Ht; split; [lia|now apply HeF]).
  rewrite (entries_spec_copied cfg (b fpage) item high
             (pool_of rL (sibling ps))
             (fun t => nSlots (hdr (pool_of rL fpage)) + t)
             HA HO Hvalid Hone)
    by (intros t Ht; split; [lia|now apply HeN]).
  rewrite (entries_spec_single cfg (b fpage) item Hone).
  exact (HL HO Hvalid).
Qed.

(** C10 (as amended). When the running size exceeds the half-fill
    threshold after an iteration [c] that is not the last one, at least
    one entry is copied to the new page ([k >= 1]), the stored slot count
    of the new page is that [k], and slot 0 of the new page holds the
    offset 0 at which the loop copied the first of them.  For a well-formed
    split the entry at slot 0, from which the leftmost pointer and the key
    of the up-entry are read, is entry number [j] of the merged sequence
    and lies below the free offset of the new page.  The copy that forms
    the up-entry goes on beyond that entry for the size of an InternalItem:
    what it takes from the free offset of the new page on are the bytes
    that the fresh buffer held, and [ritem] receives them as they are. *)
Theorem split_sibling_nonempty
    (ps : PageStore) (b : BufferPool) (fpage high : Z) (item ritem : Mem)
    (c : nat) :
  sibling_pinned ps -> sibling ps <> fpage ->
  (S c < Z.to_nat (maxLoop_of ps b fpage))%nat ->
  let vI := SplitInternal_loop cfg ps b fpage high item
              (Z.to_nat (maxLoop_of ps b fpage)) in
  let rI := edubtm_SplitInternal cfg ps b fpage high item ritem in
  let NI := pool_of rI (sibling ps) in
  let vL := SplitLeaf_loop cfg ps b fpage high item
              (Z.to_nat (maxLoop_of ps b fpage)) in
  let rL := edubtm_SplitLeaf cfg ps b fpage high item ritem in
  let NL := pool_of rL (sibling ps) in
  (BI_HALF < sum (SplitInternal_loop cfg ps b fpage high item (S c)) ->
   1 <= k vI /\ nSlots (hdr NI) = k vI /\ slot NI 0 = 0 /\
   (0 < ALIGN -> valid_internal_split cfg (b fpage) item high = true ->
    InternalEntry_at (data NI) (slot NI 0)
    = merged_internal (b fpage) item high (j vI) /\
    within_entries NI (slot NI 0)
      (Z.of_nat (length (InternalEntry_at (data NI) (slot NI 0)))) /\
    forall x, free (hdr NI) <= x < sizeof_InternalItem ->
              ritem_of rI x = Init_data ps x)) /\
  (BL_HALF < sum (SplitLeaf_loop cfg ps b fpage high item (S c)) ->
   1 <= k vL /\ nSlots (hdr NL) = k vL /\ slot NL 0 = 0 /\
   (0 < ALIGN -> 0 <= sizeof_ObjectID ->
    valid_leaf_split cfg (b fpage) item high = true ->
    LeafEntry_at cfg (data NL) (slot NL 0)
    = merged_leaf cfg (b fpage) item high (j vL) /\
    within_entries NL (slot NL 0)
      (Z.of_nat (length (LeafEntry_at cfg (data NL) (slot NL 0)))) /\
    forall x, free (hdr NL) + (IE_klen - LE_klen) <= x < sizeof_InternalItem ->
              ritem_of rL x = Init_data ps (x - (IE_klen - LE_klen)))).
Proof.
  intros Hpin Hne Hc vI rI NI vL rL NL.
  destruct (sibling_first_entry cfg ps b fpage high item ritem c Hpin Hne Hc)
    as (HI & HL).
  fold vI rI in HI. fold NI in HI. fold vL rL in HL. fold NL in HL.
  split.
  - intros Hsum. destruct (HI Hsum) as (Hk & Hn & Hs & He).
    split; [exact Hk|]. split; [exact Hn|]. split; [exact Hs|].
    intros HA Hvalid. specialize (He HA Hvalid).
    destruct (SplitInternal_result cfg ps b fpage high item ritem Hpin Hne)
      as (_ & EN & ER).
    fold vI rI in EN, ER. fold NI in EN.
    destruct (SplitInternal_content cfg HA ps b fpage high item Hvalid Hne)
      as (_ & _ & _ & _ & _ & Hoff & _ & _ & _ & HsN).
    destruct (SplitInternal_layout cfg HA ps b fpage high item Hvalid Hne)
      as (_ & _ & _ & _ & _ & _ & _ & _ & _ & _ & _ & HpN & _ & HcN).
    fold vI in Hoff, HsN, HpN, HcN.
    destruct HpN as (_ & Hfree & _). specialize (Hfree ltac:(lia)).
    destruct HcN as (Hd & _). rewrite upd_same in Hd.
    destruct (HsN 0 ltac:(lia)) as (Hend & _).
    replace (j vI + 0) with (j vI) in Hend by lia.
    assert (Ef : free (hdr NI) = nEntryOffset vI)
      by (rewrite EN; exact Hfree).
    assert (Es : slot (pool vI (sibling ps)) 0 = 0)
      by (rewrite EN in Hs; exact Hs).
    split; [exact He|]. split.
    + unfold within_entries. rewrite He, Hs, Ef. rewrite Es in Hend. lia.
    + intros x Hx. rewrite ER, Es, memcpy_in by lia.
      rewrite Hd by lia. cbn [fresh_page init_page data]. f_equal. lia.
  - intros Hsum. destruct (HL Hsum) as (Hk & Hn & Hs & He).
    split; [exact Hk|]. split; [exact Hn|]. split; [exact Hs|].
    intros HA HO Hvalid. specialize (He HA HO Hvalid).
    pose proof (valid_leaf_n cfg (b fpage) item high Hvalid) as Hn0.
    destruct (SplitLeaf_result cfg ps b fpage high item ritem Hpin Hne)
      as (_ & EN & ER).
    fold vL rL in EN, ER. fold NL in EN.
    destruct (SplitLeaf_content cfg HA HO ps b fpage high item Hvalid Hne)
      as (Hjk & Hj0 & _ & _ & _ & Hoff & _ & _ & _ & HsN).
    destruct (SplitLeaf_layout cfg HA HO ps b fpage high item Hvalid Hne)
      as (_ & _ & _ & _ & _ & _ & _ & _ & _ & _ & _ & HpN & _ & HcN).
    fold vL in Hjk, Hj0, Hoff, HsN, HpN, HcN.
    destruct HpN as (_ & Hfree & _). specialize (Hfree ltac:(lia)).
    destruct HcN as (Hd & _). rewrite upd_same in Hd.
    destruct (HsN 0 ltac:(lia)) as (Hend & _).
    replace (j vL + 0) with (j vL) in Hend by lia.
    assert (Ef : free (hdr NL) = nEntryOffset vL)
      by (rewrite EN; exact Hfree).
    assert (Es : slot (pool vL (sibling ps)) 0 = 0)
      by (rewrite EN in Hs; exact Hs).
    pose proof (merged_leaf_length cfg HA HO (b fpage) item high Hvalid
                  (j vL) ltac:(lia)) as Hlen.
    pose proof (width_leaf_bounds cfg HA HO (b fpage) item high Hvalid
                  (j vL) ltac:(lia)) as (_ & Hw).
    rewrite Es in Hend.
    split; [exact He|]. split.
    + unfold within_entries. rewrite He, Hs, Ef. lia.
    + intros x Hx. unfold IE_klen, LE_klen, sizeof_ShortPageID, sizeof_Two in *.
      rewrite ER, Es. unfold IE_klen, LE_klen, sizeof_ShortPageID, sizeof_Two.
      rewrite memcpy_in by lia.
      rewrite Hd by lia. cbn [fresh_page init_page data]. f_equal. lia.
Qed.

End AmendedProperties.

(** C3 (as stated), refuted: the first entry of leaf 1 carries the key 10
    with the two objects 1010 and 2010.  The call is well formed and
    succeeds, but the split copies one object identifier per entry: read
    with the two object identifiers that it still announces, the first
    entry of the page now ends with the first 12 bytes of the entry for
    key 20 instead of object 2010, and the entries of the two pages are no
    longer the entries the page had with the item inserted. *)
Lemma SplitLeaf_drops_further_objects :
  let r := edubtm_SplitLeaf ex_cfg ex_store ex_leaf_two_pool 1 3
             ex_leaf_item no_item in
  valid_leaf_split ex_cfg (ex_leaf_two_pool 1) ex_leaf_item 3 = true /\
  status_of r = eNOERROR /\
  nth 0 (entries (LeafEntry_spec_at ex_cfg) (ex_leaf_two_pool 1)) []
  = leaf_image 2 4 (key4 10) (ex_oid 1010 ++ ex_oid 2010) /\
  nth 0 (entries (LeafEntry_spec_at ex_cfg) (pool_of r 1)) []
  = leaf_image 2 4 (key4 10)
      (ex_oid 1010 ++ firstn 12 (leaf_image 1 4 (key4 20) (ex_oid 1020))) /\
  ~ (entries (LeafEntry_spec_at ex_cfg) (pool_of r 1)
     ++ entries (LeafEntry_spec_at ex_cfg) (pool_of r (sibling ex_store))
     = insert_at (Z.to_nat (3 - 1)) (LeafEntry_of_item ex_cfg ex_leaf_item)
         (entries (LeafEntry_spec_at ex_cfg) (ex_leaf_two_pool 1))).
Proof.
  vm_compute. repeat split. intros H. discriminate H.
Qed.

(** C10 (as stated), refuted: in the splits of the two scenarios the
    running size exceeds the threshold after the third of five iterations
    and the new page 9 receives three entries, which take 30 bytes of an
    internal page and 60 bytes of a leaf.  The copy that forms the up-entry
    takes the 264 bytes of an InternalItem from the entry at slot 0 on (260
    bytes from its key length on for a leaf), so it reads beyond the free
    offset of the new page: from offset 30 on (62 for a leaf) [ritem] holds
    what the fresh buffer happened to contain, 0xff with one page store and
    0x55 with another. *)
Lemma split_up_entry_reads_beyond_free :
  let rI := edubtm_SplitInternal ex_cfg ex_store ex_internal_pool 1 3
              ex_internal_item no_item in
  let rI' := edubtm_SplitInternal ex_cfg ex_store_junk ex_internal_pool 1 3
               ex_internal_item no_item in
  let rL := edubtm_SplitLeaf ex_cfg ex_store ex_leaf_pool 1 3
              ex_leaf_item no_item in
  let rL' := edubtm_SplitLeaf ex_cfg ex_store_junk ex_leaf_pool 1 3
               ex_leaf_item no_item in
  ((3 < Z.to_nat (maxLoop_of ex_store ex_internal_pool 1))%nat /\
   BI_HALF ex_cfg < sum (SplitInternal_loop ex_cfg ex_store
                           ex_internal_pool 1 3 ex_internal_item 3) /\
   free (hdr (pool_of rI 9)) = 30 /\
   ~ within_entries (pool_of rI 9) (slot (pool_of rI 9) 0)
       (sizeof_InternalItem ex_cfg) /\
   ritem_of rI 30 = Byte.xff /\ ritem_of rI' 30 = Byte.x55) /\
  ((3 < Z.to_nat (maxLoop_of ex_store ex_leaf_pool 1))%nat /\
   BL_HALF ex_cfg < sum (SplitLeaf_loop ex_cfg ex_store
                           ex_leaf_pool 1 3 ex_leaf_item 3) /\
   free (hdr (pool_of rL 9)) = 60 /\
   ~ within_entries (pool_of rL 9) (slot (pool_of rL 9) 0 + LE_klen)
       (sizeof_InternalItem ex_cfg - sizeof_ShortPageID) /\
   ritem_of rL 62 = Byte.xff /\ ritem_of rL' 62 = Byte.x55).
Proof.
  intros rI rI' rL rL'. unfold within_entries.
  repeat split; try (vm_compute; reflexivity);
    try (vm_compute; repeat constructor; fail);
    intros [_ H]; vm_compute in H; apply H; reflexivity.
Qed.

Lemma split_order_preservation_witness :
  valid_internal_split ex_cfg (ex_internal_pool 1) ex_internal_item 3 = true /\
  valid_leaf_split ex_cfg (ex_leaf_pool 1) ex_leaf_item 3 = true /\
  single_objects ex_cfg (ex_leaf_pool 1) ex_leaf_item = true /\
  entries InternalEntry_at
    (pool_of (edubtm_SplitInternal ex_cfg
                ex_store ex_internal_pool 1 3 ex_internal_item no_item) 1)
  ++ entries InternalEntry_at
       (pool_of (edubtm_SplitInternal ex_cfg ex_store ex_internal_pool 1 3
                   ex_internal_item no_item) (sibling ex_store))
  = insert_at (Z.to_nat (3 - 1)) (InternalEntry_at ex_internal_item 0)
      (entries InternalEntry_at (ex_internal_pool 1)) /\
  entries (LeafEntry_spec_at ex_cfg)
    (pool_of (edubtm_SplitLeaf ex_cfg ex_store ex_leaf_pool 1 3
                ex_leaf_item no_item) 1)
  ++ entries (LeafEntry_spec_at ex_cfg)
       (pool_of (edubtm_SplitLeaf ex_cfg ex_store ex_leaf_pool 1 3
                   ex_leaf_item no_item) (sibling ex_store))
  = insert_at (Z.to_nat (3 - 1))
      (LeafEntry_of_item ex_cfg ex_leaf_item)
      (entries (LeafEntry_spec_at ex_cfg) (ex_leaf_pool 1)).
Proof.
  assert (Hne : sibling ex_store <> 1) by discriminate.
  assert (VI : valid_internal_split ex_cfg (ex_internal_pool 1)
                 ex_internal_item 3 = true) by (vm_compute; reflexivity).
  assert (VL : valid_leaf_split ex_cfg (ex_leaf_pool 1)
                 ex_leaf_item 3 = true) by (vm_compute; reflexivity).
  assert (SO : single_objects ex_cfg (ex_leaf_pool 1) ex_leaf_item = true)
    by (vm_compute; reflexivity).
  split; [exact VI|]. split; [exact VL|]. split; [exact SO|]. split.
  - exact (proj1 (split_order_preservation ex_cfg ex_store
                    ex_internal_pool 1 3 ex_internal_item no_item
                    ex_ALIGN_pos ex_store_pinned Hne) VI).
  - exact (proj2 (split_order_preservation ex_cfg ex_store
                    ex_leaf_pool 1 3 ex_leaf_item no_item
                    ex_ALIGN_pos ex_store_pinned Hne) ex_ObjectID_size VL SO).
Defined.

Lemma split_sibling_nonempty_witness :
  (3 < Z.to_nat (maxLoop_of ex_store ex_internal_pool 1))%nat /\
  BI_HALF ex_cfg < sum (SplitInternal_loop ex_cfg ex_store
                      ex_internal_pool 1 3 ex_internal_item 3) /\
  BL_HALF ex_cfg < sum (SplitLeaf_loop ex_cfg
                      ex_store ex_leaf_pool 1 3 ex_leaf_item 3) /\
  valid_internal_split ex_cfg (ex_internal_pool 1) ex_internal_item 3 = true /\
  valid_leaf_split ex_cfg (ex_leaf_pool 1) ex_leaf_item 3 = true /\
  1 <= k (SplitInternal_loop ex_cfg ex_store ex_internal_pool
            1 3 ex_internal_item
            (Z.to_nat (maxLoop_of ex_store ex_internal_pool 1))) /\
  ritem_of (edubtm_SplitInternal ex_cfg ex_store ex_internal_pool 1 3
              ex_internal_item no_item) 30 = Init_data ex_store 30 /\
  1 <= k (SplitLeaf_loop ex_cfg ex_store
            ex_leaf_pool 1 3 ex_leaf_item
            (Z.to_nat (maxLoop_of ex_store ex_leaf_pool 1))) /\
  ritem_of (edubtm_SplitLeaf ex_cfg ex_store ex_leaf_pool 1 3
              ex_leaf_item no_item) 62
  = Init_data ex_store (62 - (IE_klen - LE_klen)).
Proof.
  assert (Hne : sibling ex_store <> 1) by discriminate.
  assert (HcI : (3 < Z.to_nat (maxLoop_of ex_store ex_internal_pool 1))%nat)
    by (vm_compute; repeat constructor).
  assert (HcL : (3 < Z.to_nat (maxLoop_of ex_store ex_leaf_pool 1))%nat)
    by (vm_compute; repeat constructor).
  assert (HsI : BI_HALF ex_cfg < sum (SplitInternal_loop ex_cfg
                  ex_store ex_internal_pool 1 3 ex_internal_item 3))
    by (vm_compute; reflexivity).
  assert (HsL : BL_HALF ex_cfg
                < sum (SplitLeaf_loop ex_cfg ex_store ex_leaf_pool 1 3
                         ex_leaf_item 3))
    by (vm_compute; reflexivity).
  assert (VI : valid_internal_split ex_cfg (ex_internal_pool 1)
                 ex_internal_item 3 = true) by (vm_compute; reflexivity).
  assert (VL : valid_leaf_split ex_cfg (ex_leaf_pool 1)
                 ex_leaf_item 3 = true) by (vm_compute; reflexivity).
  assert (HxI : free (hdr (pool_of (edubtm_SplitInternal ex_cfg ex_store
                                      ex_internal_pool 1 3 ex_internal_item
                                      no_item) (sibling ex_store)))
                <= 30 < sizeof_InternalItem ex_cfg)
    by (vm_compute; split; [discriminate|reflexivity]).
  assert (HxL : free (hdr (pool_of (edubtm_SplitLeaf ex_cfg ex_store
                                      ex_leaf_pool 1 3 ex_leaf_item
                                      no_item) (sibling ex_store)))
                + (IE_klen - LE_klen) <= 62 < sizeof_InternalItem ex_cfg)
    by (vm_compute; split; [discriminate|reflexivity]).
  pose proof (proj1 (split_sibling_nonempty ex_cfg ex_store ex_internal_pool
                       1 3 ex_internal_item no_item 2
                       ex_store_pinned Hne HcI) HsI) as HI.
  pose proof (proj2 (split_sibling_nonempty ex_cfg ex_store ex_leaf_pool
                       1 3 ex_leaf_item no_item 2
                       ex_store_pinned Hne HcL) HsL) as HL.
  split; [exact HcI|]. split; [exact HsI|]. split; [exact HsL|].
  split; [exact VI|]. split; [exact VL|].
  split; [exact (proj1 HI)|]. split.
  - exact (proj2 (proj2 (proj2 (proj2 (proj2 HI)) ex_ALIGN_pos VI)) 30 HxI).
  - split; [exact (proj1 HL)|].
    exact (proj2 (proj2 (proj2 (proj2 (proj2 HL)) ex_ALIGN_pos
                                  ex_ObjectID_size VL)) 62 HxL).
Defined.

(* ================================================================== *)
(** * Further properties of the two splitters *)

Section MoreProperties.

Variable cfg : Layout.
Local Abbreviation ALIGN := (ALIGN cfg).
Local Abbreviation BI_HALF := (BI_HALF cfg).
Local Abbreviation BL_HALF := (BL_HALF cfg).
Local Abbreviation sizeof_ObjectID := (sizeof_ObjectID cfg).
Local Abbreviation sizeof_InternalItem := (sizeof_InternalItem cfg).

(** X1. After a well-formed leaf split whose new page is pinned, both
    pages are compact: slot 0 holds offset 0, every further slot holds the
    offset at which the entry of the slot before ends, and the free offset
    of the header is where the last entry ends. *)
Theorem SplitLeaf_pages_compact
    (ps : PageStore) (b : BufferPool) (fpage high : Z) (item ritem : Mem) :
  0 < ALIGN -> 0 <= sizeof_ObjectID ->
  sibling_pinned ps -> sibling ps <> fpage ->
  valid_leaf_split cfg (b fpage) item high = true ->
  let r := edubtm_SplitLeaf cfg ps b fpage high item ritem in
  compact (LeafEntry_at cfg) (pool_of r fpage) /\
  compact (LeafEntry_at cfg) (pool_of r (sibling ps)).
Proof.
  intros HA HO Hpin Hne Hvalid r.
  destruct (SplitLeaf_pages cfg ps b fpage high item ritem
              HA HO Hpin Hne Hvalid)
    as ((Hc & Hj & Hk) & (HlF & HlN) & _ & _ & (HeF & HeN)).
  fold r in Hc, Hj, Hk, HlF, HlN, HeF, HeN.
  unfold compact. split.
  - eapply laid_out_ext; [|exact HlF]. intros t Ht. cbv beta.
    rewrite HeF by lia. symmetry.
    apply (len_leaf_valid cfg HA HO b fpage high item Hvalid). lia.
  - eapply laid_out_ext; [|exact HlN]. intros t Ht. cbv beta.
    rewrite HeN by lia. symmetry.
    apply (len_leaf_valid cfg HA HO b fpage high item Hvalid). lia.
Qed.

(** X2. After a well-formed internal split whose new page is pinned, the
    new page is compact, and so is the page being split but for one gap:
    when the new item went to the page being split, the entry that follows
    it (or the free offset) lies beyond the end of its key by the padding
    that aligns the key length, which is less than one alignment unit. *)
Theorem SplitInternal_pages_laid_out
    (ps : PageStore) (b : BufferPool) (fpage high : Z) (item ritem : Mem) :
  0 < ALIGN -> sibling_pinned ps -> sibling ps <> fpage ->
  valid_internal_split cfg (b fpage) item high = true ->
  let r := edubtm_SplitInternal cfg ps b fpage high item ritem in
  let F := pool_of r fpage in
  let pad := ALIGNED_LENGTH cfg (get_Two item IE_klen)
             - get_Two item IE_klen in
  laid_out F (fun t =>
                Z.of_nat (length (InternalEntry_at (data F) (slot F t)))
                + (if t + 1 =? high then pad else 0)) /\
  compact InternalEntry_at (pool_of r (sibling ps)) /\
  0 <= pad < ALIGN.
Proof.
  intros HA Hpin Hne Hvalid r F pad.
  destruct (SplitInternal_pages cfg ps b fpage high item ritem
              HA Hpin Hne Hvalid)
    as ((Hc & Hj & Hk) & (HlF & HlN) & _ & _ & (HeF & HeN)).
  fold r in Hc, Hj, Hk, HlF, HlN, HeF, HeN.
  fold F in Hc, Hj, HlF, HlN, HeF, HeN.
  split; [|split].
  - eapply laid_out_ext; [|exact HlF]. intros t Ht. cbv beta.
    rewrite HeF by lia.
    rewrite (len_internal_valid cfg HA b fpage high item Hvalid) by lia.
    now rewrite andb_true_r.
  - unfold compact. eapply laid_out_ext; [|exact HlN]. intros t Ht. cbv beta.
    rewrite HeN by lia.
    rewrite (len_internal_valid cfg HA b fpage high item Hvalid) by lia.
    rewrite andb_false_r. lia.
  - now apply ALIGNED_LENGTH_pad.
Qed.

(** X3. The threshold rule, read off the two pages after a well-formed
    split whose new page is pinned: the page being split is not empty when
    the threshold is positive; the offset of its last entry plus one slot
    for each entry before it is below the threshold; and when the new page
    received an entry, the free offset of the page being split plus one
    slot per entry has reached the threshold. *)
Theorem split_threshold_rule
    (ps : PageStore) (b : BufferPool) (fpage high : Z) (item ritem : Mem) :
  0 < ALIGN -> sibling_pinned ps -> sibling ps <> fpage ->
  let rI := edubtm_SplitInternal cfg ps b fpage high item ritem in
  let rL := edubtm_SplitLeaf cfg ps b fpage high item ritem in
  (valid_internal_split cfg (b fpage) item high = true ->
   half_filled BI_HALF (pool_of rI fpage) (pool_of rI (sibling ps))) /\
  (0 <= sizeof_ObjectID ->
   valid_leaf_split cfg (b fpage) item high = true ->
   half_filled BL_HALF (pool_of rL fpage) (pool_of rL (sibling ps))).
Proof.
  intros HA Hpin Hne rI rL. split.
  - intros Hvalid.
    destruct (SplitInternal_pages cfg ps b fpage high item ritem
                HA Hpin Hne Hvalid)
      as (_ & _ & (H1 & H2 & _ & H3) & _).
    fold rI in H1, H2, H3. unfold half_filled, sizeof_Two.
    split; [intros; apply H1 in H; lia|].
    split; intros; [apply H2|apply H3]; lia.
  - intros HO Hvalid.
    destruct (SplitLeaf_pages cfg ps b fpage high item ritem
                HA HO Hpin Hne Hvalid)
      as (_ & _ & (H1 & H2 & _ & H3) & _).
    fold rL in H1, H2, H3. unfold half_filled, sizeof_Two.
    split; [intros; apply H1 in H; lia|].
    split; intros; [apply H2|apply H3]; lia.
Qed.

(** X4. A well-formed split whose new page is pinned writes nowhere but
    below the free offsets and below the slot counts it leaves: the bytes
    of the page being split from its free offset on and its slots from its
    slot count on are those the page had on entry, and the bytes and slots
    of the new page beyond its free offset and slot count are those of the
    freshly initialised page. *)
Theorem split_writes_confined
    (ps : PageStore) (b : BufferPool) (fpage high : Z) (item ritem : Mem) :
  0 < ALIGN -> sibling_pinned ps -> sibling ps <> fpage ->
  let rI := edubtm_SplitInternal cfg ps b fpage high item ritem in
  let rL := edubtm_SplitLeaf cfg ps b fpage high item ritem in
  (valid_internal_split cfg (b fpage) item high = true ->
   written_within (pool_of rI fpage) (b fpage) /\
   written_within (pool_of rI (sibling ps)) (fresh_page ps)) /\
  (0 <= sizeof_ObjectID ->
   valid_leaf_split cfg (b fpage) item high = true ->
   written_within (pool_of rL fpage) (b fpage) /\
   written_within (pool_of rL (sibling ps)) (fresh_page ps)).
Proof.
  intros HA Hpin Hne rI rL. split.
  - intros Hvalid.
    destruct (SplitInternal_pages cfg ps b fpage high item ritem
                HA Hpin Hne Hvalid) as (_ & _ & _ & H & _).
    exact H.
  - intros HO Hvalid.
    destruct (SplitLeaf_pages cfg ps b fpage high item ritem
                HA HO Hpin Hne Hvalid) as (_ & _ & _ & H & _).
    exact H.
Qed.

(** X5. The key of the up-entry: whenever the new page is pinned, the key
    length and the key bytes that a splitter returns in [ritem] are those
    found in the entry at slot 0 of the new page, provided that key fits an
    InternalItem. *)
Theorem split_up_entry_key
    (ps : PageStore) (b : BufferPool) (fpage high : Z) (item ritem : Mem) :
  sibling_pinned ps -> sibling ps <> fpage -> 6 <= sizeof_InternalItem ->
  let rI := edubtm_SplitInternal cfg ps b fpage high item ritem in
  let NI := pool_of rI (sibling ps) in
  let rL := edubtm_SplitLeaf cfg ps b fpage high item ritem in
  let NL := pool_of rL (sibling ps) in
  (6 + get_Two (data NI) (slot NI 0 + IE_klen) <= sizeof_InternalItem ->
   get_Two (ritem_of rI) IE_klen = get_Two (data NI) (slot NI 0 + IE_klen) /\
   key_at (ritem_of rI) IE_klen = key_at (data NI) (slot NI 0 + IE_klen)) /\
  (6 + get_Two (data NL) (slot NL 0 + LE_klen) <= sizeof_InternalItem ->
   get_Two (ritem_of rL) IE_klen = get_Two (data NL) (slot NL 0 + LE_klen) /\
   key_at (ritem_of rL) IE_klen = key_at (data NL) (slot NL 0 + LE_klen)).
Proof.
  intros Hpin Hne Hsz rI NI rL NL. split.
  - destruct (SplitInternal_result cfg ps b fpage high item ritem Hpin Hne)
      as (_ & EN & ER).
    fold rI in EN, ER. fold NI in EN. subst NI. rewrite EN, ER.
    cbn [set_hdr data slot].
    set (N := pool _ (sibling ps)). intros Hfit.
    assert (E : get_Two (memcpy ritem 0 (data N) (slot N 0)
                           sizeof_InternalItem) IE_klen
                = get_Two (data N) (slot N 0 + IE_klen)).
    { unfold get_Two. f_equal. f_equal.
      change IE_klen with (0 + 4) at 1.
      rewrite read_memcpy_shift by (unfold sizeof_Two; lia). reflexivity. }
    split; [exact E|]. unfold key_at. rewrite E.
    change (IE_klen + sizeof_Two) with (0 + 6).
    rewrite read_memcpy_shift by lia.
    f_equal. unfold IE_klen, sizeof_ShortPageID, sizeof_Two. lia.
  - destruct (SplitLeaf_result cfg ps b fpage high item ritem Hpin Hne)
      as (_ & EN & ER).
    fold rL in EN, ER. fold NL in EN. subst NL. rewrite EN, ER.
    cbn [set_hdr data slot].
    set (N := pool _ (sibling ps)).
    intros Hfit. unfold sizeof_ShortPageID in *.
    set (R := put_Four ritem 0 (pageNo (pid (hdr N)))).
    assert (E : get_Two (memcpy R IE_klen (data N) (slot N 0 + LE_klen)
                           (sizeof_InternalItem - 4)) IE_klen
                = get_Two (data N) (slot N 0 + LE_klen)).
    { unfold get_Two. f_equal. f_equal.
      replace IE_klen with (IE_klen + 0) at 2 by lia.
      rewrite read_memcpy_shift by (unfold sizeof_Two; lia).
      f_equal. lia. }
    split; [exact E|]. unfold key_at. rewrite E.
    rewrite read_memcpy_shift by (unfold sizeof_Two; lia). reflexivity.
Qed.

(** X6. When the entries of the page and the new item, with one slot each,
    stay below the threshold up to the last but one, no entry reaches the
    new page: the page being split keeps all [n + 1] entries, the slot
    count of the new page is 0, and the up-entry, as well as the leftmost
    pointer of a new internal page, is read from whatever slot 0 and the
    entry area of the freshly initialised page hold. *)
Theorem split_below_threshold_sibling_empty
    (ps : PageStore) (b : BufferPool) (fpage high : Z) (item ritem : Mem) :
  0 < ALIGN -> sibling_pinned ps -> sibling ps <> fpage ->
  let n := nSlots (hdr (b fpage)) in
  let N0 := fresh_page ps in
  let rI := edubtm_SplitInternal cfg ps b fpage high item ritem in
  let rL := edubtm_SplitLeaf cfg ps b fpage high item ritem in
  (valid_internal_split cfg (b fpage) item high = true ->
   source_fill cfg false (b fpage) item high (Z.to_nat n) < BI_HALF ->
   nSlots (hdr (pool_of rI fpage)) = n + 1 /\
   nSlots (hdr (pool_of rI (sibling ps))) = 0 /\
   p0 (hdr (pool_of rI (sibling ps))) = get_Four (data N0) (slot N0 0) /\
   forall x, ritem_of rI x
             = memcpy ritem 0 (data N0) (slot N0 0) sizeof_InternalItem x) /\
  (0 <= sizeof_ObjectID ->
   valid_leaf_split cfg (b fpage) item high = true ->
   source_fill cfg true (b fpage) item high (Z.to_nat n) < BL_HALF ->
   nSlots (hdr (pool_of rL fpage)) = n + 1 /\
   nSlots (hdr (pool_of rL (sibling ps))) = 0 /\
   forall x, ritem_of rL x
             = memcpy (put_Four ritem 0 (sibling ps)) IE_klen
                 (data N0) (slot N0 0 + LE_klen)
                 (sizeof_InternalItem - sizeof_ShortPageID) x).
Proof.
  intros HA Hpin Hne n N0 rI rL. split.
  - intros Hvalid Hfill.
    pose proof (valid_internal_n cfg (b fpage) item high Hvalid) as Hn.
    fold n in Hn.
    destruct (SplitInternal_pages cfg ps b fpage high item ritem
                HA Hpin Hne Hvalid)
      as ((Hc & Hj & Hk) & _ & (_ & _ & H3 & _) & (_ & HwN) & _).
    fold rI n in Hc, Hj, Hk, H3, HwN.
    assert (Hk0 : nSlots (hdr (pool_of rI (sibling ps))) = 0).
    { destruct (Z.eq_dec (nSlots (hdr (pool_of rI (sibling ps)))) 0)
        as [E|E]; [exact E|exfalso].
      specialize (H3 ltac:(lia)). unfold source_fill, sizeof_Two in Hfill.
      assert (Hmono : total (fun i => len_internal cfg (b fpage) item high
                                        true i + 2)
                        (Z.to_nat (nSlots (hdr (pool_of rI fpage))))
                      <= total (fun i => len_internal cfg (b fpage) item high
                                           true i + 2) (Z.to_nat n)).
      { apply total_mono; [|lia]. intros i Hi.
        pose proof (len_internal_bounds cfg HA (b fpage) item high Hvalid
                      true i ltac:(fold n; lia)).
        pose proof (valid_internal_klen cfg (b fpage) item high Hvalid i
                      ltac:(fold n; lia)). lia. }
      lia. }
    split; [lia|]. split; [exact Hk0|].
    unfold written_within in HwN. rewrite Hk0 in HwN.
    destruct HwN as (Hd & Hs). cbn [Z.ltb Z.compare] in Hd.
    destruct (SplitInternal_result cfg ps b fpage high item ritem Hpin Hne)
      as (_ & EN & ER).
    fold rI in EN, ER. rewrite EN in Hd, Hs |- *. rewrite ER.
    cbn [set_hdr hdr data slot with_nSlots with_p0 p0] in *.
    fold N0 in Hd, Hs.
    rewrite (Hs 0) by lia. split.
    + unfold get_Four. f_equal. f_equal. apply read_ext. intros; apply Hd.
      destruct (Z_lt_le_dec x 0); [left|right]; assumption.
    + intros x. unfold memcpy.
      destruct ((0 <=? x) && (x <? 0 + sizeof_InternalItem)); [|reflexivity].
      apply Hd. lia.
  - intros HO Hvalid Hfill.
    pose proof (valid_leaf_n cfg (b fpage) item high Hvalid) as Hn.
    fold n in Hn.
    destruct (SplitLeaf_pages cfg ps b fpage high item ritem
                HA HO Hpin Hne Hvalid)
      as ((Hc & Hj & Hk) & _ & (_ & _ & H3 & _) & (_ & HwN) & _).
    fold rL n in Hc, Hj, Hk, H3, HwN.
    assert (Hk0 : nSlots (hdr (pool_of rL (sibling ps))) = 0).
    { destruct (Z.eq_dec (nSlots (hdr (pool_of rL (sibling ps)))) 0)
        as [E|E]; [exact E|exfalso].
      specialize (H3 ltac:(lia)). unfold source_fill, sizeof_Two in Hfill.
      assert (Hmono : total (fun i => len_leaf cfg (b fpage) item high
                                        true i + 2)
                        (Z.to_nat (nSlots (hdr (pool_of rL fpage))))
                      <= total (fun i => len_leaf cfg (b fpage) item high
                                           true i + 2) (Z.to_nat n)).
      { apply total_mono; [|lia]. intros i Hi.
        rewrite (len_leaf_width cfg HA HO (b fpage) item high Hvalid true i)
          by (fold n; lia).
        pose proof (width_leaf_bounds cfg HA HO (b fpage) item high Hvalid i
                      ltac:(fold n; lia)). lia. }
      lia. }
    split; [lia|]. split; [exact Hk0|].
    unfold written_within in HwN. rewrite Hk0 in HwN.
    destruct HwN as (Hd & Hs). cbn [Z.ltb Z.compare] in Hd.
    destruct (SplitLeaf_result cfg ps b fpage high item ritem Hpin Hne)
      as (_ & EN & ER).
    fold rL in EN, ER. rewrite EN in Hd, Hs. rewrite ER.
    cbn [set_hdr hdr data slot] in *.
    fold N0 in Hd, Hs.
    pose proof (SplitLeaf_loop_hdr cfg ps b fpage
                  high item (Z.to_nat (maxLoop_of ps b fpage)) (sibling ps))
      as HN.
    rewrite upd_same in HN. destruct HN as (HNpid & _). rewrite HNpid.
    cbn [init_page hdr pid].
    change (pageNo (AllocPage_newPid ps)) with (sibling ps).
    rewrite (Hs 0) by lia.
    intros x. unfold memcpy.
    destruct ((IE_klen <=? x)
              && (x <? IE_klen + (sizeof_InternalItem - sizeof_ShortPageID)));
      [|reflexivity].
    apply Hd. lia.
Qed.

End MoreProperties.

Section MoreProperties2.

Variable cfg : Layout.
Local Abbreviation ALIGN := (ALIGN cfg).
Local Abbreviation BI_HALF := (BI_HALF cfg).
Local Abbreviation BL_HALF := (BL_HALF cfg).
Local Abbreviation sizeof_ObjectID := (sizeof_ObjectID cfg).
Local Abbreviation sizeof_InternalItem := (sizeof_InternalItem cfg).

(** X7. A failure of BfM_FreeTrain comes after the split: when the three
    preparatory calls succeed and BfM_FreeTrain fails, both splitters
    return its status, and the buffer pool and [ritem] are exactly those of
    the call that succeeds. *)
Theorem split_unpin_failure_after_split
    (ps : PageStore) (b : BufferPool) (fpage high : Z) (item ritem : Mem) :
  sibling_pinned ps -> FreeTrain_status ps < 0 ->
  let ok := with_FreeTrain_status ps 0 in
  let rI := edubtm_SplitInternal cfg ps b fpage high item ritem in
  let rI' := edubtm_SplitInternal cfg ok b fpage high item ritem in
  let rL := edubtm_SplitLeaf cfg ps b fpage high item ritem in
  let rL' := edubtm_SplitLeaf cfg ok b fpage high item ritem in
  (status_of rI = FreeTrain_status ps /\ status_of rI' = eNOERROR /\
   pool_of rI = pool_of rI' /\ ritem_of rI = ritem_of rI') /\
  (status_of rL = FreeTrain_status ps /\ status_of rL' = eNOERROR /\
   pool_of rL = pool_of rL' /\ ritem_of rL = ritem_of rL').
Proof.
  intros Hpin Hfail ok rI rI' rL rL'.
  assert (Hpin' : sibling_pinned ok) by exact Hpin.
  assert (E : (FreeTrain_status ps <? 0) = true) by (apply Z.ltb_lt; lia).
  subst rI rI' rL rL'.
  rewrite (SplitInternal_reaches_walk cfg ps b fpage high item ritem Hpin),
    (SplitInternal_reaches_walk cfg ok b fpage high item ritem Hpin'),
    (SplitLeaf_reaches_walk cfg ps b fpage high item ritem Hpin),
    (SplitLeaf_reaches_walk cfg ok b fpage high item ritem Hpin').
  unfold status_of, pool_of, ritem_of. cbn [fst snd]. rewrite E.
  repeat split.
Qed.

(** X8. The page being split keeps its identity, after a call that fails
    before the new page is pinned and after a well-formed call that pins
    it: edubtm_SplitInternal leaves its page identifier, its leftmost
    pointer [p0] and its two page links as they were, and edubtm_SplitLeaf
    leaves its page identifier, [p0] and its previous-page link as they
    were. *)
Theorem split_keeps_source_identity
    (ps : PageStore) (b : BufferPool) (fpage high : Z) (item ritem : Mem) :
  0 < ALIGN -> 0 <= sizeof_ObjectID -> sibling ps <> fpage ->
  let h := hdr (b fpage) in
  let hI := hdr (pool_of (edubtm_SplitInternal cfg ps b fpage high item
                            ritem) fpage) in
  let hL := hdr (pool_of (edubtm_SplitLeaf cfg ps b fpage high item
                            ritem) fpage) in
  ((sibling_pinned ps ->
    valid_internal_split cfg (b fpage) item high = true) ->
   pid hI = pid h /\ p0 hI = p0 h /\
   prevPage hI = prevPage h /\ nextPage hI = nextPage h) /\
  ((sibling_pinned ps ->
    valid_leaf_split cfg (b fpage) item high = true) ->
   pid hL = pid h /\ p0 hL = p0 h /\ prevPage hL = prevPage h).
Proof.
  intros _ _ Hne h hI hL.
  cut ((pid hI = pid h /\ p0 hI = p0 h /\
        prevPage hI = prevPage h /\ nextPage hI = nextPage h) /\
       (pid hL = pid h /\ p0 hL = p0 h /\ prevPage hL = prevPage h)).
  { intros (HI & HL). split; intros _; assumption. }
  assert (Hcase : sibling_pinned ps \/
                  (AllocPage_status ps < 0 \/ Init_status ps < 0 \/
                   GetTrain_status ps < 0))
    by (unfold sibling_pinned; lia).
  destruct Hcase as [Hpin|Hfail].
  - destruct (SplitInternal_result cfg ps b fpage high item ritem Hpin Hne)
      as (EI & _).
    destruct (SplitLeaf_result cfg ps b fpage high item ritem Hpin Hne)
      as (EL & _).
    subst hI hL. rewrite EI, EL.
    cbn [set_hdr hdr with_nSlots with_nextPage pid p0 prevPage nextPage].
    pose proof (SplitInternal_loop_hdr cfg ps b fpage high item
                  (Z.to_nat (maxLoop_of ps b fpage)) fpage) as HI.
    pose proof (SplitLeaf_loop_hdr cfg ps b fpage high item
                  (Z.to_nat (maxLoop_of ps b fpage)) fpage) as HL.
    rewrite upd_other in HI, HL by congruence.
    destruct HI as (I1 & I2 & _ & I3 & I4).
    destruct HL as (L1 & L2 & _ & L3 & _).
    fold h in I1, I2, I3, I4, L1, L2, L3. repeat split; assumption.
  - destruct (SplitInternal_early_return cfg ps b fpage high item ritem
                Hfail Hne) as (EI & _).
    destruct (SplitLeaf_early_return cfg ps b fpage high item ritem
                Hfail Hne) as (EL & _).
    subst hI hL. rewrite EI, EL. repeat split.
Qed.

(** X9. The target slot is not checked: for a [high] beyond
    [nSlots + 1] no iteration copies the new item, and the whole outcome of
    the call, status, pages and [ritem], is the same for every item. *)
Theorem split_high_past_end_ignores_item
    (ps : PageStore) (b : BufferPool) (fpage high : Z)
    (item item' ritem : Mem) :
  sibling ps <> fpage ->
  0 <= nSlots (hdr (b fpage)) < MAX_Two ->
  nSlots (hdr (b fpage)) + 1 < high ->
  edubtm_SplitInternal cfg ps b fpage high item ritem
  = edubtm_SplitInternal cfg ps b fpage high item' ritem /\
  edubtm_SplitLeaf cfg ps b fpage high item ritem
  = edubtm_SplitLeaf cfg ps b fpage high item' ritem.
Proof.
  intros Hne Hn Hhigh. unfold sibling in Hne.
  unfold edubtm_SplitInternal, edubtm_SplitLeaf, btm_AllocPage,
    edubtm_InitInternal, edubtm_InitLeaf, BfM_GetTrain, BfM_FreeTrain.
  cbv beta iota zeta.
  destruct (AllocPage_status ps <? 0); [split; reflexivity|].
  destruct (Init_status ps <? 0) eqn:Ei; cbv beta iota zeta; rewrite Ei;
    [split; reflexivity|].
  destruct (GetTrain_status ps <? 0); [split; reflexivity|].
  cbn [fst snd].
  rewrite (SplitInternal_pinned_past_end cfg _ _ _ _ _ item item')
    by (rewrite upd_other by congruence; assumption).
  rewrite (SplitLeaf_pinned_past_end cfg _ _ _ _ _ item item')
    by (rewrite upd_other by congruence; assumption).
  split; reflexivity.
Qed.

(** X10. When every key length, of the entries of the page and of the new
    item, is a multiple of the alignment unit, a well-formed internal split
    whose new page is pinned lays out both pages as the entry format
    prescribes: each entry takes 4 + 2 + ALIGNED_LENGTH(klen) bytes and the
    next one starts where it ends. *)
Theorem SplitInternal_aligned_keys_conform
    (ps : PageStore) (b : BufferPool) (fpage high : Z) (item ritem : Mem) :
  0 < ALIGN -> sibling_pinned ps -> sibling ps <> fpage ->
  valid_internal_split cfg (b fpage) item high = true ->
  aligned_keys cfg (b fpage) item high = true ->
  let r := edubtm_SplitInternal cfg ps b fpage high item ritem in
  let F := pool_of r fpage in
  let N := pool_of r (sibling ps) in
  laid_out F (fun t => sizeof_ShortPageID + sizeof_Two
                       + ALIGNED_LENGTH cfg
                           (get_Two (data F) (slot F t + IE_klen))) /\
  laid_out N (fun t => sizeof_ShortPageID + sizeof_Two
                       + ALIGNED_LENGTH cfg
                           (get_Two (data N) (slot N t + IE_klen))).
Proof.
  intros HA Hpin Hne Hvalid Hal r F N.
  pose proof (valid_internal_n cfg (b fpage) item high Hvalid) as Hn.
  destruct (SplitInternal_pages cfg ps b fpage high item ritem
              HA Hpin Hne Hvalid)
    as ((Hc & Hj & Hk) & (HlF & HlN) & _ & _ & (HeF & HeN)).
  fold r in Hc, Hj, Hk, HlF, HlN, HeF, HeN.
  fold F in Hc, Hj, HlF, HlN, HeF, HeN. fold N in Hc, Hk, HlN, HeN.
  assert (Hlen : forall s i, 0 <= i < nSlots (hdr (b fpage)) + 1 ->
            len_internal cfg (b fpage) item high s i
            = 6 + merged_klen IE_klen IE_klen (b fpage) item high i /\
            ALIGNED_LENGTH cfg
              (merged_klen IE_klen IE_klen (b fpage) item high i)
            = merged_klen IE_klen IE_klen (b fpage) item high i /\
            0 <= merged_klen IE_klen IE_klen (b fpage) item high i /\
            Z.of_nat (length (merged_internal (b fpage) item high i))
            = 6 + merged_klen IE_klen IE_klen (b fpage) item high i).
  { intros s i Hi.
    pose proof (aligned_keys_klen cfg (b fpage) item high i Hal Hi) as Hmod.
    pose proof (valid_internal_klen cfg (b fpage) item high Hvalid i
                  ltac:(lia)) as Hk0.
    pose proof (merged_internal_length cfg (b fpage) item high Hvalid i
                  ltac:(lia)) as Hml.
    rewrite (len_internal_valid cfg HA b fpage high item Hvalid) by lia.
    rewrite (ALIGNED_LENGTH_aligned cfg _ Hmod).
    repeat split; try assumption.
    destruct ((i + 1 =? high) && s) eqn:E; [|lia].
    apply andb_true_iff in E. destruct E as (E & _). apply Z.eqb_eq in E.
    assert (Ek : merged_klen IE_klen IE_klen (b fpage) item high i
                 = get_Two item IE_klen).
    { unfold merged_klen. rewrite E, Z.ltb_irrefl, Z.eqb_refl. reflexivity. }
    rewrite <- Ek, (ALIGNED_LENGTH_aligned cfg _ Hmod). lia. }
  unfold sizeof_ShortPageID, sizeof_Two. split.
  - eapply laid_out_ext; [|exact HlF]. intros t Ht. cbv beta.
    destruct (Hlen true t ltac:(lia)) as (E1 & E2 & E3 & E4).
    rewrite (InternalEntry_at_klen _ _ _ (HeF t Ht)) by lia.
    rewrite E1, E4.
    replace (6 + merged_klen IE_klen IE_klen (b fpage) item high t - 6)
      with (merged_klen IE_klen IE_klen (b fpage) item high t) by lia.
    rewrite E2. lia.
  - eapply laid_out_ext; [|exact HlN]. intros t Ht. cbv beta.
    destruct (Hlen false (nSlots (hdr F) + t) ltac:(lia))
      as (E1 & E2 & E3 & E4).
    rewrite (InternalEntry_at_klen _ _ _ (HeN t Ht)) by lia.
    rewrite E1, E4.
    replace (6 + merged_klen IE_klen IE_klen (b fpage) item high
                   (nSlots (hdr F) + t) - 6)
      with (merged_klen IE_klen IE_klen (b fpage) item high
              (nSlots (hdr F) + t)) by lia.
    rewrite E2. lia.
Qed.

End MoreProperties2.

Section MoreProperties3.

Variable cfg : Layout.
Local Abbreviation ALIGN := (ALIGN cfg).
Local Abbreviation sizeof_ObjectID := (sizeof_ObjectID cfg).
Local Abbreviation sizeof_InternalItem := (sizeof_InternalItem cfg).

(** The links and identifiers that a leaf split with a pinned new page
    leaves in the two pages. *)
Lemma SplitLeaf_links
    (ps : PageStore) (b : BufferPool) (fpage high : Z) (item ritem : Mem) :
  sibling_pinned ps -> sibling ps <> fpage ->
  let r := edubtm_SplitLeaf cfg ps b fpage high item ritem in
  prevPage (hdr (pool_of r (sibling ps))) = pageNo (pid (hdr (b fpage))) /\
  nextPage (hdr (pool_of r (sibling ps))) = nextPage (hdr (b fpage)) /\
  nextPage (hdr (pool_of r fpage)) = sibling ps /\
  pid (hdr (pool_of r fpage)) = pid (hdr (b fpage)).
Proof.
  intros Hpin Hne r.
  destruct (SplitLeaf_result cfg ps b fpage high item ritem Hpin Hne)
    as (EF & EN & _).
  fold r in EF, EN. rewrite EF, EN.
  cbn [set_hdr hdr with_nextPage with_prevPage with_nSlots
       prevPage nextPage pid].
  pose proof (SplitLeaf_loop_hdr cfg ps b fpage
                high item (Z.to_nat (maxLoop_of ps b fpage)) fpage) as HF.
  pose proof (SplitLeaf_loop_hdr cfg ps b fpage
                high item (Z.to_nat (maxLoop_of ps b fpage)) (sibling ps))
    as HN.
  rewrite upd_other in HF by congruence. rewrite upd_same in HN.
  destruct HF as (HFpid & _ & _ & _ & HFnext).
  destruct HN as (HNpid & _).
  rewrite HFpid, HFnext, HNpid. repeat split.
Qed.

(** X11. Two well-formed leaf splits of the same page, one after the
    other, each with its new page pinned: the next-page links lead from the
    page to the newer of the two new pages, from there to the older one and
    from there to the leaf that followed the page at the start; the
    previous-page links of both new pages name the page being split, the
    second split leaving the link of the older new page as the first split
    set it. *)
Theorem SplitLeaf_twice_chain
    (ps1 ps2 : PageStore) (b : BufferPool) (fpage high1 high2 : Z)
    (item1 item2 ritem1 ritem2 : Mem) :
  0 < ALIGN -> 0 <= sizeof_ObjectID ->
  sibling_pinned ps1 -> sibling_pinned ps2 ->
  sibling ps1 <> fpage -> sibling ps2 <> fpage ->
  sibling ps2 <> sibling ps1 ->
  valid_leaf_split cfg (b fpage) item1 high1 = true ->
  let r1 := edubtm_SplitLeaf cfg ps1 b fpage high1 item1 ritem1 in
  valid_leaf_split cfg (pool_of r1 fpage) item2 high2 = true ->
  let r2 := edubtm_SplitLeaf cfg ps2 (pool_of r1) fpage high2 item2 ritem2 in
  nextPage (hdr (pool_of r2 fpage)) = sibling ps2 /\
  nextPage (hdr (pool_of r2 (sibling ps2))) = sibling ps1 /\
  nextPage (hdr (pool_of r2 (sibling ps1))) = nextPage (hdr (b fpage)) /\
  prevPage (hdr (pool_of r2 (sibling ps2))) = pageNo (pid (hdr (b fpage))) /\
  prevPage (hdr (pool_of r2 (sibling ps1))) = pageNo (pid (hdr (b fpage))).
Proof.
  intros _ _ Hp1 Hp2 Hn1 Hn2 Hn12 _ r1 _ r2.
  destruct (SplitLeaf_links ps1 b fpage high1 item1 ritem1 Hp1 Hn1)
    as (A1 & A2 & A3 & A4).
  destruct (SplitLeaf_links ps2 (pool_of r1) fpage high2 item2 ritem2 Hp2 Hn2)
    as (B1 & B2 & B3 & B4).
  fold r1 in A1, A2, A3, A4, B1, B2, B3, B4. fold r2 in B1, B2, B3, B4.
  assert (Fr : pool_of r2 (sibling ps1) = pool_of r1 (sibling ps1)).
  { apply SplitLeaf_frame; congruence. }
  rewrite Fr, B1, B2, B3, A1, A2, A3, A4. repeat split.
Qed.

(** X12. The page pointer of the up-entry, whenever the new page is
    pinned: a well-formed call of edubtm_SplitLeaf returns the page number
    of the new page in [ritem->spid], the number the header of the new page
    still carries; edubtm_SplitInternal returns there the child pointer of
    the entry at slot 0 of the new page, the value it also stores as the
    leftmost pointer [p0] of the new page. *)
Theorem split_up_entry_spid
    (ps : PageStore) (b : BufferPool) (fpage high : Z) (item ritem : Mem) :
  0 < ALIGN -> 0 <= sizeof_ObjectID ->
  sibling_pinned ps -> sibling ps <> fpage ->
  4 <= sizeof_InternalItem ->
  -2147483648 <= sibling ps <= 2147483647 ->
  let rI := edubtm_SplitInternal cfg ps b fpage high item ritem in
  let NI := pool_of rI (sibling ps) in
  let rL := edubtm_SplitLeaf cfg ps b fpage high item ritem in
  let NL := pool_of rL (sibling ps) in
  (valid_leaf_split cfg (b fpage) item high = true ->
   get_Four (ritem_of rL) 0 = sibling ps /\
   pageNo (pid (hdr NL)) = sibling ps) /\
  (get_Four (ritem_of rI) 0 = get_Four (data NI) (slot NI 0) /\
   get_Four (ritem_of rI) 0 = p0 (hdr NI)).
Proof.
  intros _ _ Hpin Hne Hsz Hrange rI NI rL NL.
  split; [intros _|]; split.
  - now apply SplitLeaf_up_entry_spid.
  - destruct (SplitLeaf_result cfg ps b fpage high item ritem Hpin Hne)
      as (_ & EN & _).
    fold rL NL in EN. rewrite EN.
    cbn [set_hdr hdr with_nextPage with_prevPage with_nSlots pid].
    pose proof (SplitLeaf_loop_hdr cfg ps b fpage
                  high item (Z.to_nat (maxLoop_of ps b fpage)) (sibling ps))
      as HN.
    rewrite upd_same in HN. destruct HN as (HNpid & _). now rewrite HNpid.
  - now apply SplitInternal_up_entry_spid.
  - now apply SplitInternal_up_entry_spid.
Qed.

End MoreProperties3.

Section MoreProperties4.

Variable cfg : Layout.
Local Abbreviation ALIGN := (ALIGN cfg).
Local Abbreviation sizeof_ObjectID := (sizeof_ObjectID cfg).
Local Abbreviation sizeof_InternalItem := (sizeof_InternalItem cfg).

(** X13. Where the new item is after a well-formed split whose new page is
    pinned: its entry is read at slot [high - 1] of the page being split
    when that page received at least [high] entries, and otherwise at slot
    [high - 1 - j] of the new page, [j] being the slot count of the page
    being split; the entries in front of it that stayed in the page being
    split are read at the slots they had on entry. *)
Theorem split_item_position
    (ps : PageStore) (b : BufferPool) (fpage high : Z) (item ritem : Mem) :
  0 < ALIGN -> sibling_pinned ps -> sibling ps <> fpage ->
  let rI := edubtm_SplitInternal cfg ps b fpage high item ritem in
  let rL := edubtm_SplitLeaf cfg ps b fpage high item ritem in
  (valid_internal_split cfg (b fpage) item high = true ->
   item_placed InternalEntry_at (pool_of rI fpage) (pool_of rI (sibling ps))
     (b fpage) high (InternalEntry_at item 0)) /\
  (0 <= sizeof_ObjectID ->
   valid_leaf_split cfg (b fpage) item high = true ->
   item_placed (LeafEntry_at cfg) (pool_of rL fpage)
     (pool_of rL (sibling ps)) (b fpage) high (LeafEntry_of_item cfg item)).
Proof.
  intros HA Hpin Hne rI rL. split.
  - intros Hvalid.
    pose proof (valid_internal_high cfg (b fpage) item high Hvalid) as Hh.
    destruct (SplitInternal_pages cfg ps b fpage high item ritem
                HA Hpin Hne Hvalid)
      as ((Hc & Hj & Hk) & _ & _ & _ & (HeF & HeN)).
    fold rI in Hc, Hj, Hk, HeF, HeN.
    assert (Ei : merged_internal (b fpage) item high (high - 1)
                 = InternalEntry_at item 0).
    { unfold merged_internal.
      replace (high - 1 + 1) with high by lia.
      now rewrite Z.ltb_irrefl, Z.eqb_refl. }
    unfold item_placed. split; [|split].
    + intros H. rewrite HeF by lia. exact Ei.
    + intros H. rewrite HeN by lia. rewrite <- Ei. f_equal. lia.
    + intros t Ht Htj. rewrite HeF by lia. unfold merged_internal.
      assert (E : (t + 1 <? high) = true) by (apply Z.ltb_lt; lia).
      now rewrite E.
  - intros HO Hvalid.
    pose proof (valid_leaf_high cfg (b fpage) item high Hvalid) as Hh.
    destruct (SplitLeaf_pages cfg ps b fpage high item ritem
                HA HO Hpin Hne Hvalid)
      as ((Hc & Hj & Hk) & _ & _ & _ & (HeF & HeN)).
    fold rL in Hc, Hj, Hk, HeF, HeN.
    assert (Ei : merged_leaf cfg (b fpage) item high (high - 1)
                 = LeafEntry_of_item cfg item).
    { unfold merged_leaf.
      replace (high - 1 + 1) with high by lia.
      now rewrite Z.ltb_irrefl, Z.eqb_refl. }
    unfold item_placed. split; [|split].
    + intros H. rewrite HeF by lia. exact Ei.
    + intros H. rewrite HeN by lia. rewrite <- Ei. f_equal. lia.
    + intros t Ht Htj. rewrite HeF by lia. unfold merged_leaf.
      assert (E : (t + 1 <? high) = true) by (apply Z.ltb_lt; lia).
      now rewrite E.
Qed.

(** X14. The splitters write to [ritem] inside the InternalItem only,
    whatever the outcome of the call: every byte in front of offset 0 and
    from offset sizeof(InternalItem) on is left as it was (for
    edubtm_SplitLeaf, whose first write is the 4-byte [spid], when an
    InternalItem has room for it). *)
Theorem split_ritem_bounds
    (ps : PageStore) (b : BufferPool) (fpage high : Z) (item ritem : Mem)
    (x : Z) :
  sibling ps <> fpage -> x < 0 \/ sizeof_InternalItem <= x ->
  ritem_of (edubtm_SplitInternal cfg ps b fpage high item ritem) x = ritem x /\
  (4 <= sizeof_InternalItem ->
   ritem_of (edubtm_SplitLeaf cfg ps b fpage high item ritem) x = ritem x).
Proof.
  intros Hne Hx.
  assert (Hcase : sibling_pinned ps \/
                  (AllocPage_status ps < 0 \/ Init_status ps < 0 \/
                   GetTrain_status ps < 0))
    by (unfold sibling_pinned; lia).
  destruct Hcase as [Hpin|Hfail].
  - destruct (SplitInternal_result cfg ps b fpage high item ritem Hpin Hne)
      as (_ & _ & EI).
    destruct (SplitLeaf_result cfg ps b fpage high item ritem Hpin Hne)
      as (_ & _ & EL).
    rewrite EI, EL. split.
    + apply memcpy_out. lia.
    + intros Hsz. rewrite memcpy_out
        by (unfold IE_klen, sizeof_ShortPageID; lia).
      unfold put_Four.
      destruct (Z.leb_spec 0 x); destruct (Z.ltb_spec x (0 + 4));
        cbn [andb]; try reflexivity. lia.
  - destruct (SplitInternal_early_return cfg ps b fpage high item ritem
                Hfail Hne) as (_ & EI).
    destruct (SplitLeaf_early_return cfg ps b fpage high item ritem
                Hfail Hne) as (_ & EL).
    rewrite EI, EL. split; [reflexivity|intros _; reflexivity].
Qed.

End MoreProperties4.

(* ------------------------------------------------------------------ *)
(** ** The further properties at the pages of the examples *)

Lemma ex_short_ALIGN_pos : 0 < ALIGN ex_cfg_short.
Proof. reflexivity. Defined.

Lemma ex_roomy_ALIGN_pos : 0 < ALIGN ex_cfg_roomy.
Proof. reflexivity. Defined.

Lemma ex_store_unpin_pinned : sibling_pinned ex_store_unpin.
Proof. unfold sibling_pinned. cbn. lia. Defined.

Lemma SplitLeaf_pages_compact_witness :
  valid_leaf_split ex_cfg (ex_leaf_pool 1) ex_leaf_item 3 = true /\
  compact (LeafEntry_at ex_cfg)
    (pool_of (edubtm_SplitLeaf ex_cfg ex_store ex_leaf_pool 1 3
                ex_leaf_item no_item) 1) /\
  compact (LeafEntry_at ex_cfg)
    (pool_of (edubtm_SplitLeaf ex_cfg ex_store ex_leaf_pool 1 3
                ex_leaf_item no_item) (sibling ex_store)).
Proof.
  assert (Hne : sibling ex_store <> 1) by discriminate.
  assert (VL : valid_leaf_split ex_cfg (ex_leaf_pool 1)
                 ex_leaf_item 3 = true) by (vm_compute; reflexivity).
  split; [exact VL|].
  exact (SplitLeaf_pages_compact ex_cfg ex_store ex_leaf_pool 1 3
           ex_leaf_item no_item ex_ALIGN_pos ex_ObjectID_size
           ex_store_pinned Hne VL).
Defined.

Lemma SplitInternal_pages_laid_out_witness :
  valid_internal_split ex_cfg_short (ex_short_pool 1) ex_short_item 1
  = true /\
  compact InternalEntry_at
    (pool_of (edubtm_SplitInternal ex_cfg_short ex_store ex_short_pool 1 1
                ex_short_item no_item) (sibling ex_store)) /\
  0 <= ALIGNED_LENGTH ex_cfg_short (get_Two ex_short_item IE_klen)
       - get_Two ex_short_item IE_klen < ALIGN ex_cfg_short.
Proof.
  assert (Hne : sibling ex_store <> 1) by discriminate.
  assert (VI : valid_internal_split ex_cfg_short (ex_short_pool 1)
                 ex_short_item 1 = true) by (vm_compute; reflexivity).
  split; [exact VI|].
  exact (proj2 (SplitInternal_pages_laid_out ex_cfg_short ex_store
                  ex_short_pool 1 1 ex_short_item no_item
                  ex_short_ALIGN_pos ex_store_pinned Hne VI)).
Defined.

Lemma split_threshold_rule_witness :
  valid_internal_split ex_cfg (ex_internal_pool 1) ex_internal_item 3 = true /\
  valid_leaf_split ex_cfg (ex_leaf_pool 1) ex_leaf_item 3 = true /\
  half_filled (BI_HALF ex_cfg)
    (pool_of (edubtm_SplitInternal ex_cfg ex_store ex_internal_pool 1 3
                ex_internal_item no_item) 1)
    (pool_of (edubtm_SplitInternal ex_cfg ex_store ex_internal_pool 1 3
                ex_internal_item no_item) (sibling ex_store)) /\
  half_filled (BL_HALF ex_cfg)
    (pool_of (edubtm_SplitLeaf ex_cfg ex_store ex_leaf_pool 1 3
                ex_leaf_item no_item) 1)
    (pool_of (edubtm_SplitLeaf ex_cfg ex_store ex_leaf_pool 1 3
                ex_leaf_item no_item) (sibling ex_store)).
Proof.
  assert (Hne : sibling ex_store <> 1) by discriminate.
  assert (VI : valid_internal_split ex_cfg (ex_internal_pool 1)
                 ex_internal_item 3 = true) by (vm_compute; reflexivity).
  assert (VL : valid_leaf_split ex_cfg (ex_leaf_pool 1)
                 ex_leaf_item 3 = true) by (vm_compute; reflexivity).
  split; [exact VI|]. split; [exact VL|]. split.
  - exact (proj1 (split_threshold_rule ex_cfg ex_store ex_internal_pool 1 3
                    ex_internal_item no_item ex_ALIGN_pos ex_store_pinned
                    Hne) VI).
  - exact (proj2 (split_threshold_rule ex_cfg ex_store ex_leaf_pool 1 3
                    ex_leaf_item no_item ex_ALIGN_pos ex_store_pinned
                    Hne) ex_ObjectID_size VL).
Defined.

Lemma split_writes_confined_witness :
  valid_internal_split ex_cfg (ex_internal_pool 1) ex_internal_item 3 = true /\
  valid_leaf_split ex_cfg (ex_leaf_pool 1) ex_leaf_item 3 = true /\
  written_within
    (pool_of (edubtm_SplitInternal ex_cfg ex_store ex_internal_pool 1 3
                ex_internal_item no_item) 1) (ex_internal_pool 1) /\
  written_within
    (pool_of (edubtm_SplitLeaf ex_cfg ex_store ex_leaf_pool 1 3
                ex_leaf_item no_item) (sibling ex_store))
    (fresh_page ex_store).
Proof.
  assert (Hne : sibling ex_store <> 1) by discriminate.
  assert (VI : valid_internal_split ex_cfg (ex_internal_pool 1)
                 ex_internal_item 3 = true) by (vm_compute; reflexivity).
  assert (VL : valid_leaf_split ex_cfg (ex_leaf_pool 1)
                 ex_leaf_item 3 = true) by (vm_compute; reflexivity).
  split; [exact VI|]. split; [exact VL|]. split.
  - exact (proj1 (proj1 (split_writes_confined ex_cfg ex_store
                           ex_internal_pool 1 3 ex_internal_item no_item
                           ex_ALIGN_pos ex_store_pinned Hne) VI)).
  - exact (proj2 (proj2 (split_writes_confined ex_cfg ex_store
                           ex_leaf_pool 1 3 ex_leaf_item no_item
                           ex_ALIGN_pos ex_store_pinned Hne)
                    ex_ObjectID_size VL)).
Defined.

Lemma split_up_entry_key_witness :
  6 <= sizeof_InternalItem ex_cfg /\
  key_at (ritem_of (edubtm_SplitInternal ex_cfg ex_store ex_internal_pool
                      1 3 ex_internal_item no_item)) IE_klen
  = key_at (data (pool_of (edubtm_SplitInternal ex_cfg ex_store
                             ex_internal_pool 1 3 ex_internal_item no_item)
                    (sibling ex_store)))
      (slot (pool_of (edubtm_SplitInternal ex_cfg ex_store
                        ex_internal_pool 1 3 ex_internal_item no_item)
               (sibling ex_store)) 0 + IE_klen) /\
  key_at (ritem_of (edubtm_SplitLeaf ex_cfg ex_store ex_leaf_pool
                      1 3 ex_leaf_item no_item)) IE_klen
  = key_at (data (pool_of (edubtm_SplitLeaf ex_cfg ex_store
                             ex_leaf_pool 1 3 ex_leaf_item no_item)
                    (sibling ex_store)))
      (slot (pool_of (edubtm_SplitLeaf ex_cfg ex_store
                        ex_leaf_pool 1 3 ex_leaf_item no_item)
               (sibling ex_store)) 0 + LE_klen).
Proof.
  assert (Hne : sibling ex_store <> 1) by discriminate.
  assert (Hsz : 6 <= sizeof_InternalItem ex_cfg) by discriminate.
  assert (HI : 6 + get_Two
                 (data (pool_of (edubtm_SplitInternal ex_cfg ex_store
                                   ex_internal_pool 1 3 ex_internal_item
                                   no_item) (sibling ex_store)))
                 (slot (pool_of (edubtm_SplitInternal ex_cfg ex_store
                                   ex_internal_pool 1 3 ex_internal_item
                                   no_item) (sibling ex_store)) 0 + IE_klen)
               <= sizeof_InternalItem ex_cfg)
    by (vm_compute; discriminate).
  assert (HL : 6 + get_Two
                 (data (pool_of (edubtm_SplitLeaf ex_cfg ex_store
                                   ex_leaf_pool 1 3 ex_leaf_item
                                   no_item) (sibling ex_store)))
                 (slot (pool_of (edubtm_SplitLeaf ex_cfg ex_store
                                   ex_leaf_pool 1 3 ex_leaf_item
                                   no_item) (sibling ex_store)) 0 + LE_klen)
               <= sizeof_InternalItem ex_cfg)
    by (vm_compute; discriminate).
  split; [exact Hsz|]. split.
  - exact (proj2 (proj1 (split_up_entry_key ex_cfg ex_store ex_internal_pool
                           1 3 ex_internal_item no_item ex_store_pinned Hne
                           Hsz) HI)).
  - exact (proj2 (proj2 (split_up_entry_key ex_cfg ex_store ex_leaf_pool
                           1 3 ex_leaf_item no_item ex_store_pinned Hne
                           Hsz) HL)).
Defined.

Lemma split_below_threshold_sibling_empty_witness :
  source_fill ex_cfg_roomy false (ex_internal_pool 1) ex_internal_item 3
    (Z.to_nat (nSlots (hdr (ex_internal_pool 1)))) < BI_HALF ex_cfg_roomy /\
  source_fill ex_cfg_roomy true (ex_leaf_pool 1) ex_leaf_item 3
    (Z.to_nat (nSlots (hdr (ex_leaf_pool 1)))) < BL_HALF ex_cfg_roomy /\
  nSlots (hdr (pool_of (edubtm_SplitInternal ex_cfg_roomy ex_store
                          ex_internal_pool 1 3 ex_internal_item no_item)
                 (sibling ex_store))) = 0 /\
  nSlots (hdr (pool_of (edubtm_SplitLeaf ex_cfg_roomy ex_store
                          ex_leaf_pool 1 3 ex_leaf_item no_item)
                 (sibling ex_store))) = 0.
Proof.
  assert (Hne : sibling ex_store <> 1) by discriminate.
  assert (VI : valid_internal_split ex_cfg_roomy (ex_internal_pool 1)
                 ex_internal_item 3 = true) by (vm_compute; reflexivity).
  assert (VL : valid_leaf_split ex_cfg_roomy (ex_leaf_pool 1)
                 ex_leaf_item 3 = true) by (vm_compute; reflexivity).
  assert (FI : source_fill ex_cfg_roomy false (ex_internal_pool 1)
                 ex_internal_item 3
                 (Z.to_nat (nSlots (hdr (ex_internal_pool 1))))
               < BI_HALF ex_cfg_roomy) by (vm_compute; reflexivity).
  assert (FL : source_fill ex_cfg_roomy true (ex_leaf_pool 1)
                 ex_leaf_item 3 (Z.to_nat (nSlots (hdr (ex_leaf_pool 1))))
               < BL_HALF ex_cfg_roomy) by (vm_compute; reflexivity).
  split; [exact FI|]. split; [exact FL|]. split.
  - exact (proj1 (proj2 (proj1 (split_below_threshold_sibling_empty
                                  ex_cfg_roomy ex_store ex_internal_pool 1 3
                                  ex_internal_item no_item
                                  ex_roomy_ALIGN_pos ex_store_pinned Hne)
                           VI FI))).
  - exact (proj1 (proj2 (proj2 (split_below_threshold_sibling_empty
                                  ex_cfg_roomy ex_store ex_leaf_pool 1 3
                                  ex_leaf_item no_item
                                  ex_roomy_ALIGN_pos ex_store_pinned Hne)
                           ex_ObjectID_size VL FL))).
Defined.

Lemma split_unpin_failure_after_split_witness :
  FreeTrain_status ex_store_unpin < 0 /\
  status_of (edubtm_SplitInternal ex_cfg ex_store_unpin ex_internal_pool
               1 3 ex_internal_item no_item)
  = FreeTrain_status ex_store_unpin /\
  pool_of (edubtm_SplitLeaf ex_cfg ex_store_unpin ex_leaf_pool
             1 3 ex_leaf_item no_item)
  = pool_of (edubtm_SplitLeaf ex_cfg (with_FreeTrain_status ex_store_unpin 0)
               ex_leaf_pool 1 3 ex_leaf_item no_item).
Proof.
  assert (Hf : FreeTrain_status ex_store_unpin < 0) by reflexivity.
  split; [exact Hf|]. split.
  - exact (proj1 (proj1 (split_unpin_failure_after_split ex_cfg
                           ex_store_unpin ex_internal_pool 1 3
                           ex_internal_item no_item
                           ex_store_unpin_pinned Hf))).
  - exact (proj1 (proj2 (proj2 (proj2 (split_unpin_failure_after_split
                                         ex_cfg ex_store_unpin ex_leaf_pool
                                         1 3 ex_leaf_item no_item
                                         ex_store_unpin_pinned Hf))))).
Defined.

Lemma split_keeps_source_identity_witness :
  sibling ex_store <> 1 /\
  valid_internal_split ex_cfg (ex_internal_pool 1) ex_internal_item 3 = true /\
  (sibling_pinned ex_store_full ->
   valid_leaf_split ex_cfg (ex_leaf_pool 1) ex_leaf_item 0 = true) /\
  p0 (hdr (pool_of (edubtm_SplitInternal ex_cfg ex_store ex_internal_pool
                      1 3 ex_internal_item no_item) 1))
  = p0 (hdr (ex_internal_pool 1)) /\
  prevPage (hdr (pool_of (edubtm_SplitLeaf ex_cfg ex_store_full ex_leaf_pool
                            1 0 ex_leaf_item no_item) 1))
  = prevPage (hdr (ex_leaf_pool 1)).
Proof.
  assert (Hne : sibling ex_store <> 1) by discriminate.
  assert (Hne' : sibling ex_store_full <> 1) by discriminate.
  assert (VI : valid_internal_split ex_cfg (ex_internal_pool 1)
                 ex_internal_item 3 = true) by (vm_compute; reflexivity).
  assert (VL : sibling_pinned ex_store_full ->
               valid_leaf_split ex_cfg (ex_leaf_pool 1) ex_leaf_item 0 = true).
  { intros (H & _). exfalso. apply H. reflexivity. }
  split; [exact Hne|]. split; [exact VI|]. split; [exact VL|]. split.
  - exact (proj1 (proj2 (proj1 (split_keeps_source_identity ex_cfg ex_store
                                  ex_internal_pool 1 3 ex_internal_item
                                  no_item ex_ALIGN_pos ex_ObjectID_size Hne)
                           (fun _ => VI)))).
  - exact (proj2 (proj2 (proj2 (split_keeps_source_identity ex_cfg
                                  ex_store_full ex_leaf_pool 1 0
                                  ex_leaf_item no_item
                                  ex_ALIGN_pos ex_ObjectID_size Hne') VL))).
Defined.

Lemma split_high_past_end_ignores_item_witness :
  nSlots (hdr (ex_internal_pool 1)) + 1 < 6 /\
  edubtm_SplitInternal ex_cfg ex_store ex_internal_pool 1 6
    ex_internal_item no_item
  = edubtm_SplitInternal ex_cfg ex_store ex_internal_pool 1 6
      ex_internal_item' no_item /\
  edubtm_SplitLeaf ex_cfg ex_store ex_leaf_pool 1 6 ex_leaf_item no_item
  = edubtm_SplitLeaf ex_cfg ex_store ex_leaf_pool 1 6 ex_leaf_item' no_item.
Proof.
  assert (Hne : sibling ex_store <> 1) by discriminate.
  assert (HnI : 0 <= nSlots (hdr (ex_internal_pool 1)) < MAX_Two)
    by (split; [discriminate|reflexivity]).
  assert (HnL : 0 <= nSlots (hdr (ex_leaf_pool 1)) < MAX_Two)
    by (split; [discriminate|reflexivity]).
  assert (HhI : nSlots (hdr (ex_internal_pool 1)) + 1 < 6) by reflexivity.
  assert (HhL : nSlots (hdr (ex_leaf_pool 1)) + 1 < 6) by reflexivity.
  split; [exact HhI|]. split.
  - exact (proj1 (split_high_past_end_ignores_item ex_cfg ex_store
                    ex_internal_pool 1 6 ex_internal_item ex_internal_item'
                    no_item Hne HnI HhI)).
  - exact (proj2 (split_high_past_end_ignores_item ex_cfg ex_store
                    ex_leaf_pool 1 6 ex_leaf_item ex_leaf_item'
                    no_item Hne HnL HhL)).
Defined.

Lemma SplitInternal_aligned_keys_conform_witness :
  valid_internal_split ex_cfg (ex_internal_pool 1) ex_internal_item 3 = true /\
  aligned_keys ex_cfg (ex_internal_pool 1) ex_internal_item 3 = true /\
  laid_out
    (pool_of (edubtm_SplitInternal ex_cfg ex_store ex_internal_pool 1 3
                ex_internal_item no_item) 1)
    (fun t => sizeof_ShortPageID + sizeof_Two
              + ALIGNED_LENGTH ex_cfg
                  (get_Two
                     (data (pool_of (edubtm_SplitInternal ex_cfg ex_store
                                       ex_internal_pool 1 3 ex_internal_item
                                       no_item) 1))
                     (slot (pool_of (edubtm_SplitInternal ex_cfg ex_store
                                       ex_internal_pool 1 3 ex_internal_item
                                       no_item) 1) t + IE_klen))).
Proof.
  assert (Hne : sibling ex_store <> 1) by discriminate.
  assert (VI : valid_internal_split ex_cfg (ex_internal_pool 1)
                 ex_internal_item 3 = true) by (vm_compute; reflexivity).
  assert (AK : aligned_keys ex_cfg (ex_internal_pool 1)
                 ex_internal_item 3 = true) by (vm_compute; reflexivity).
  split; [exact VI|]. split; [exact AK|].
  exact (proj1 (SplitInternal_aligned_keys_conform ex_cfg ex_store
                  ex_internal_pool 1 3 ex_internal_item no_item
                  ex_ALIGN_pos ex_store_pinned Hne VI AK)).
Defined.

Lemma SplitLeaf_twice_chain_witness :
  sibling ex_store' <> sibling ex_store /\
  valid_leaf_split ex_cfg (ex_leaf_pool 1) ex_leaf_item 3 = true /\
  valid_leaf_split ex_cfg
    (pool_of (edubtm_SplitLeaf ex_cfg ex_store ex_leaf_pool 1 3 ex_leaf_item
                no_item) 1) ex_leaf_item15 2 = true /\
  nextPage (hdr (pool_of (edubtm_SplitLeaf ex_cfg ex_store'
                            (pool_of (edubtm_SplitLeaf ex_cfg ex_store
                                        ex_leaf_pool 1 3 ex_leaf_item
                                        no_item))
                            1 2 ex_leaf_item15 no_item) 1))
  = sibling ex_store' /\
  nextPage (hdr (pool_of (edubtm_SplitLeaf ex_cfg ex_store'
                            (pool_of (edubtm_SplitLeaf ex_cfg ex_store
                                        ex_leaf_pool 1 3 ex_leaf_item
                                        no_item))
                            1 2 ex_leaf_item15 no_item) (sibling ex_store')))
  = sibling ex_store.
Proof.
  assert (N1 : sibling ex_store <> 1) by discriminate.
  assert (N2 : sibling ex_store' <> 1) by discriminate.
  assert (N12 : sibling ex_store' <> sibling ex_store) by discriminate.
  assert (V1 : valid_leaf_split ex_cfg (ex_leaf_pool 1) ex_leaf_item 3 = true)
    by (vm_compute; reflexivity).
  assert (V2 : valid_leaf_split ex_cfg
                 (pool_of (edubtm_SplitLeaf ex_cfg ex_store ex_leaf_pool 1 3
                             ex_leaf_item no_item) 1) ex_leaf_item15 2 = true)
    by (vm_compute; reflexivity).
  split; [exact N12|]. split; [exact V1|]. split; [exact V2|].
  pose proof (SplitLeaf_twice_chain ex_cfg ex_store ex_store' ex_leaf_pool
                1 3 2 ex_leaf_item ex_leaf_item15 no_item no_item
                ex_ALIGN_pos ex_ObjectID_size
                ex_store_pinned ex_store'_pinned N1 N2 N12 V1 V2) as H.
  exact (conj (proj1 H) (proj1 (proj2 H))).
Defined.

Lemma split_up_entry_spid_witness :
  -2147483648 <= sibling ex_store <= 2147483647 /\
  valid_leaf_split ex_cfg (ex_leaf_pool 1) ex_leaf_item 3 = true /\
  get_Four (ritem_of (edubtm_SplitLeaf ex_cfg ex_store ex_leaf_pool
                        1 3 ex_leaf_item no_item)) 0
  = sibling ex_store /\
  get_Four (ritem_of (edubtm_SplitInternal ex_cfg ex_store ex_internal_pool
                        1 3 ex_internal_item no_item)) 0
  = p0 (hdr (pool_of (edubtm_SplitInternal ex_cfg ex_store ex_internal_pool
                        1 3 ex_internal_item no_item) (sibling ex_store))).
Proof.
  assert (Hne : sibling ex_store <> 1) by discriminate.
  assert (Hsz : 4 <= sizeof_InternalItem ex_cfg) by discriminate.
  assert (Hr : -2147483648 <= sibling ex_store <= 2147483647)
    by (split; discriminate).
  assert (VL : valid_leaf_split ex_cfg (ex_leaf_pool 1) ex_leaf_item 3 = true)
    by (vm_compute; reflexivity).
  split; [exact Hr|]. split; [exact VL|]. split.
  - exact (proj1 (proj1 (split_up_entry_spid ex_cfg ex_store ex_leaf_pool
                           1 3 ex_leaf_item no_item
                           ex_ALIGN_pos ex_ObjectID_size ex_store_pinned Hne
                           Hsz Hr) VL)).
  - exact (proj2 (proj2 (split_up_entry_spid ex_cfg ex_store
                           ex_internal_pool 1 3 ex_internal_item no_item
                           ex_ALIGN_pos ex_ObjectID_size
                           ex_store_pinned Hne Hsz Hr))).
Defined.

Lemma split_item_position_witness :
  valid_internal_split ex_cfg (ex_internal_pool 1) ex_internal_item 3 = true /\
  valid_leaf_split ex_cfg (ex_leaf_pool 1) ex_leaf_item 3 = true /\
  item_placed InternalEntry_at
    (pool_of (edubtm_SplitInternal ex_cfg ex_store ex_internal_pool 1 3
                ex_internal_item no_item) 1)
    (pool_of (edubtm_SplitInternal ex_cfg ex_store ex_internal_pool 1 3
                ex_internal_item no_item) (sibling ex_store))
    (ex_internal_pool 1) 3 (InternalEntry_at ex_internal_item 0) /\
  item_placed (LeafEntry_at ex_cfg)
    (pool_of (edubtm_SplitLeaf ex_cfg ex_store ex_leaf_pool 1 3
                ex_leaf_item no_item) 1)
    (pool_of (edubtm_SplitLeaf ex_cfg ex_store ex_leaf_pool 1 3
                ex_leaf_item no_item) (sibling ex_store))
    (ex_leaf_pool 1) 3 (LeafEntry_of_item ex_cfg ex_leaf_item).
Proof.
  assert (Hne : sibling ex_store <> 1) by discriminate.
  assert (VI : valid_internal_split ex_cfg (ex_internal_pool 1)
                 ex_internal_item 3 = true) by (vm_compute; reflexivity).
  assert (VL : valid_leaf_split ex_cfg (ex_leaf_pool 1)
                 ex_leaf_item 3 = true) by (vm_compute; reflexivity).
  split; [exact VI|]. split; [exact VL|]. split.
  - exact (proj1 (split_item_position ex_cfg ex_store ex_internal_pool 1 3
                    ex_internal_item no_item ex_ALIGN_pos ex_store_pinned
                    Hne) VI).
  - exact (proj2 (split_item_position ex_cfg ex_store ex_leaf_pool 1 3
                    ex_leaf_item no_item ex_ALIGN_pos ex_store_pinned
                    Hne) ex_ObjectID_size VL).
Defined.

Lemma split_ritem_bounds_witness :
  sibling ex_store <> 1 /\ 4 <= sizeof_InternalItem ex_cfg /\
  ritem_of (edubtm_SplitInternal ex_cfg ex_store ex_internal_pool 1 3
              ex_internal_item no_item) 264 = no_item 264 /\
  ritem_of (edubtm_SplitLeaf ex_cfg ex_store ex_leaf_pool 1 3
              ex_leaf_item no_item) 264 = no_item 264.
Proof.
  assert (Hne : sibling ex_store <> 1) by discriminate.
  assert (Hsz : 4 <= sizeof_InternalItem ex_cfg) by discriminate.
  assert (Hx : 264 < 0 \/ sizeof_InternalItem ex_cfg <= 264)
    by (right; discriminate).
  split; [exact Hne|]. split; [exact Hsz|]. split.
  - exact (proj1 (split_ritem_bounds ex_cfg ex_store ex_internal_pool 1 3
                    ex_internal_item no_item 264 Hne Hx)).
  - exact (proj2 (split_ritem_bounds ex_cfg ex_store ex_leaf_pool 1 3
                    ex_leaf_item no_item 264 Hne Hx) Hsz).
Defined.

(* ================================================================== *)
(** * The k-d tree *)

Section KDTreeFacts.

Variable N : Z.
Variable ElemType : Type.

Local Abbreviation Node := (KDTree.Node ElemType).
Local Abbreviation Head := (KDTree.Head ElemType).
Local Abbreviation NULL := (@KDTree.NULL ElemType).
Local Abbreviation node := (@KDTree.node ElemType).
Local Abbreviation Point_eqb := (KDTree.Point_eqb N).
Local Abbreviation findNode := (@KDTree.findNode N ElemType).
Local Abbreviation insertNode := (@KDTree.insertNode N ElemType).
Local Abbreviation insert := (@KDTree.insert N ElemType).
Local Abbreviation contains := (@KDTree.contains N ElemType).
Local Abbreviation at_point := (@KDTree.at_point N ElemType).
Local Abbreviation subscript := (@KDTree.subscript N ElemType).
Local Abbreviation count := (@KDTree.count ElemType).
Local Abbreviation points := (@KDTree.points ElemType).
Local Abbreviation ordered := (@KDTree.ordered N ElemType).
Local Abbreviation apart := (@KDTree.apart N ElemType).
Local Abbreviation value_of := (@KDTree.value_of ElemType).
Local Abbreviation has_nan := (KDTree.has_nan N).
Local Abbreviation size := (@KDTree.size ElemType).
Local Abbreviation root := (@KDTree.root ElemType).

(** What one call of insertNode does, in one statement: it returns, the
    node it returns carries [value], [head.size] grows by one exactly when
    findNode finds nothing, by as much as the number of nodes, and a
    search for a point that equals itself then finds the returned node. *)
Lemma insertNode_spec (t : Node) (point : KDTree.Point) (value : ElemType)
    (depth sz : Z) :
  t <> NULL ->
  exists t' ret,
    insertNode t point value depth sz
    = Some (t', sz + (match findNode t point depth with
                      | KDTree.NULL => 1
                      | _ => 0
                      end), ret) /\
    (exists p l r, ret = node p value l r) /\
    count t' = count t + (match findNode t point depth with
                          | KDTree.NULL => 1
                          | _ => 0
                          end) /\
    t' <> NULL /\
    (Point_eqb point point = true -> findNode t' point depth = ret).
Proof.
  revert depth. induction t as [|p v l IHl r IHr]; intros depth Hnz;
    [congruence|].
  cbn [KDTree.insertNode KDTree.findNode].
  destruct (Point_eqb p point) eqn:Ep.
  - exists (node p value l r), (node p value l r).
    split; [now rewrite Z.add_0_r|]. split; [now exists p, l, r|].
    split; [cbn [KDTree.count]; lia|]. split; [discriminate|].
    intros _. cbn [KDTree.findNode]. now rewrite Ep.
  - destruct (PrimFloat.ltb (KDTree.coord point (depth mod N))
                            (KDTree.coord p (depth mod N))) eqn:El.
    + destruct l as [|lp lv ll lr].
      * exists (node p v (node point value NULL NULL) r),
          (node point value NULL NULL).
        cbn [KDTree.findNode KDTree.count].
        split; [reflexivity|]. split; [now exists point, NULL, NULL|].
        split; [lia|]. split; [discriminate|].
        intros Hpp. rewrite Ep, El, Hpp. reflexivity.
      * destruct (IHl (depth + 1) ltac:(discriminate))
          as (l' & ret & E & Hret & Hc & Hn & Hf).
        rewrite E. exists (node p v l' r), ret.
        split; [reflexivity|]. split; [exact Hret|].
        split; [cbn [KDTree.count] in *; lia|]. split; [discriminate|].
        intros Hpp. cbn [KDTree.findNode]. rewrite Ep, El. now apply Hf.
    + destruct r as [|rp rv rl rr].
      * exists (node p v l (node point value NULL NULL)),
          (node point value NULL NULL).
        cbn [KDTree.findNode KDTree.count].
        split; [reflexivity|]. split; [now exists point, NULL, NULL|].
        split; [lia|]. split; [discriminate|].
        intros Hpp. rewrite Ep, El, Hpp. reflexivity.
      * destruct (IHr (depth + 1) ltac:(discriminate))
          as (r' & ret & E & Hret & Hc & Hn & Hf).
        rewrite E. exists (node p v l r'), ret.
        split; [reflexivity|]. split; [exact Hret|].
        split; [cbn [KDTree.count] in *; lia|]. split; [discriminate|].
        intros Hpp. cbn [KDTree.findNode]. rewrite Ep, El. now apply Hf.
Qed.

Lemma at_point_value_of (head : Head) (point : KDTree.Point) :
  at_point head point
  = value_of (findNode (root head) point 0).
Proof.
  unfold KDTree.at_point. destruct (root head); reflexivity.
Qed.

Lemma contains_value_of (head : Head) (point : KDTree.Point) :
  contains head point
  = match value_of (findNode (root head) point 0) with
    | Some _ => true
    | None => false
    end.
Proof.
  unfold KDTree.contains. destruct (root head) as [|p v l r]; [reflexivity|].
  destruct (findNode (node p v l r) point 0); reflexivity.
Qed.

Lemma findNode_NULL_value (t : Node) :
  match t with KDTree.NULL => 1 | _ => 0 end
  = match value_of t with Some _ => 0 | None => 1 end.
Proof. destruct t; reflexivity. Qed.

(** The points of the tree after insertNode, and its search order. *)
Lemma insertNode_points (t : Node) (point : KDTree.Point) (value : ElemType)
    (depth sz : Z) (t' : Node) (sz' : Z) (ret : Node) :
  insertNode t point value depth sz = Some (t', sz', ret) ->
  (forall q, In q (points t') -> q = point \/ In q (points t)) /\
  (ordered t depth = true -> ordered t' depth = true).
Proof.
  revert depth t' sz' ret.
  induction t as [|p v l IHl r IHr]; intros depth t' sz' ret;
    [discriminate|].
  cbn [KDTree.insertNode].
  destruct (Point_eqb p point) eqn:Ep.
  - intros E. inversion E; subst. split; [intros q Hq; now right|].
    intros H; exact H.
  - destruct (PrimFloat.ltb (KDTree.coord point (depth mod N))
                            (KDTree.coord p (depth mod N))) eqn:El.
    + assert (Hgen : forall l',
                (forall q, In q (points l') -> q = point \/ In q (points l)) ->
                (ordered l (depth + 1) = true ->
                 ordered l' (depth + 1) = true) ->
                (forall q, In q (points (node p v l' r)) ->
                   q = point \/ In q (points (node p v l r))) /\
                (ordered (node p v l r) depth = true ->
                 ordered (node p v l' r) depth = true)).
      { intros l' Hp Ho. split.
        - intros q Hq. cbn [KDTree.points] in *.
          destruct Hq as [Hq|Hq]; [right; now left|].
          apply in_app_or in Hq. destruct Hq as [Hq|Hq].
          + destruct (Hp q Hq) as [->|Hq']; [now left|].
            right. right. apply in_or_app. now left.
          + right. right. apply in_or_app. now right.
        - cbn [KDTree.ordered]. rewrite !andb_true_iff.
          intros (((H1 & H2) & H3) & H4).
          repeat split; try assumption; [|now apply Ho].
          apply forallb_forall. intros q Hq.
          destruct (Hp q Hq) as [->|Hq']; [exact El|].
          rewrite forallb_forall in H1. now apply H1. }
      destruct l as [|lp lv ll lr].
      * intros E. inversion E; subst. apply Hgen.
        -- intros q Hq. cbn [KDTree.points app] in Hq.
           destruct Hq as [Hq|[]]. now left.
        -- intros _. reflexivity.
      * destruct (insertNode (node lp lv ll lr) point value (depth + 1) sz)
          as [[[l' s'] rt]|] eqn:E'; [|discriminate].
        intros E. inversion E; subst.
        destruct (IHl _ _ _ _ E') as (Hp & Ho). now apply Hgen.
    + assert (Hgen : forall r',
                (forall q, In q (points r') -> q = point \/ In q (points r)) ->
                (ordered r (depth + 1) = true ->
                 ordered r' (depth + 1) = true) ->
                (forall q, In q (points (node p v l r')) ->
                   q = point \/ In q (points (node p v l r))) /\
                (ordered (node p v l r) depth = true ->
                 ordered (node p v l r') depth = true)).
      { intros r' Hp Ho. split.
        - intros q Hq. cbn [KDTree.points] in *.
          destruct Hq as [Hq|Hq]; [right; now left|].
          apply in_app_or in Hq. destruct Hq as [Hq|Hq].
          + right. right. apply in_or_app. now left.
          + destruct (Hp q Hq) as [->|Hq']; [now left|].
            right. right. apply in_or_app. now right.
        - cbn [KDTree.ordered]. rewrite !andb_true_iff.
          intros (((H1 & H2) & H3) & H4).
          repeat split; try assumption; [|now apply Ho].
          apply forallb_forall. intros q Hq.
          destruct (Hp q Hq) as [->|Hq']; [now rewrite El|].
          rewrite forallb_forall in H2. now apply H2. }
      destruct r as [|rp rv rl rr].
      * intros E. inversion E; subst. apply Hgen.
        -- intros q Hq. cbn [KDTree.points app] in Hq.
           destruct Hq as [Hq|[]]. now left.
        -- intros _. reflexivity.
      * destruct (insertNode (node rp rv rl rr) point value (depth + 1) sz)
          as [[[r' s'] rt]|] eqn:E'; [|discriminate].
        intros E. inversion E; subst.
        destruct (IHr _ _ _ _ E') as (Hp & Ho). now apply Hgen.
Qed.

(** A search for [q] after insertNode of a point that is apart from [q]. *)
Lemma insertNode_other (t : Node) (point q : KDTree.Point) (value : ElemType)
    (depth sz : Z) (t' : Node) (sz' : Z) (ret : Node) :
  insertNode t point value depth sz = Some (t', sz', ret) ->
  Point_eqb point q = false ->
  (forall r, In r (points t) -> Point_eqb r q = true ->
             Point_eqb r point = false) ->
  value_of (findNode t' q depth) = value_of (findNode t q depth).
Proof.
  revert depth t' sz' ret.
  induction t as [|p v l IHl r IHr]; intros depth t' sz' ret;
    [discriminate|].
  intros E Hpq Hap. cbn [KDTree.insertNode] in E.
  assert (Hl : forall x, In x (points l) -> In x (points (node p v l r))).
  { intros x Hx. cbn [KDTree.points]. right. apply in_or_app. now left. }
  assert (Hr : forall x, In x (points r) -> In x (points (node p v l r))).
  { intros x Hx. cbn [KDTree.points]. right. apply in_or_app. now right. }
  assert (Hfresh : forall d,
            findNode (node point value NULL NULL) q d = NULL).
  { intros d. cbn [KDTree.findNode]. rewrite Hpq.
    destruct (PrimFloat.ltb (KDTree.coord q (d mod N))
                            (KDTree.coord point (d mod N))); reflexivity. }
  destruct (Point_eqb p point) eqn:Ep.
  - inversion E; subst. cbn [KDTree.findNode].
    destruct (Point_eqb p q) eqn:Eq; [|reflexivity].
    rewrite (Hap p) in Ep; [discriminate|now left|exact Eq].
  - destruct (PrimFloat.ltb (KDTree.coord point (depth mod N))
                            (KDTree.coord p (depth mod N))) eqn:El.
    + destruct l as [|lp lv ll lr].
      * inversion E; subst. cbn [KDTree.findNode].
        destruct (Point_eqb p q); [reflexivity|].
        destruct (PrimFloat.ltb (KDTree.coord q (depth mod N))
                                (KDTree.coord p (depth mod N)));
          [|reflexivity].
        fold (findNode (node point value NULL NULL) q (depth + 1)).
        now rewrite Hfresh.
      * destruct (insertNode (node lp lv ll lr) point value (depth + 1) sz)
          as [[[l' s'] rt]|] eqn:E'; [|discriminate].
        inversion E; subst.
        change (findNode (node p v l' r) q depth)
          with (if Point_eqb p q then node p v l' r
                else if PrimFloat.ltb (KDTree.coord q (depth mod N))
                                      (KDTree.coord p (depth mod N))
                     then findNode l' q (depth + 1)
                     else findNode r q (depth + 1)).
        change (findNode (node p v (node lp lv ll lr) r) q depth)
          with (if Point_eqb p q then node p v (node lp lv ll lr) r
                else if PrimFloat.ltb (KDTree.coord q (depth mod N))
                                      (KDTree.coord p (depth mod N))
                     then findNode (node lp lv ll lr) q (depth + 1)
                     else findNode r q (depth + 1)).
        destruct (Point_eqb p q); [reflexivity|].
        destruct (PrimFloat.ltb (KDTree.coord q (depth mod N))
                                (KDTree.coord p (depth mod N)));
          [|reflexivity].
        apply (IHl _ _ _ _ E' Hpq). intros x Hx. apply Hap. now apply Hl.
    + destruct r as [|rp rv rl rr].
      * inversion E; subst. cbn [KDTree.findNode].
        destruct (Point_eqb p q); [reflexivity|].
        destruct (PrimFloat.ltb (KDTree.coord q (depth mod N))
                                (KDTree.coord p (depth mod N)));
          [reflexivity|].
        fold (findNode (node point value NULL NULL) q (depth + 1)).
        now rewrite Hfresh.
      * destruct (insertNode (node rp rv rl rr) point value (depth + 1) sz)
          as [[[r' s'] rt]|] eqn:E'; [|discriminate].
        inversion E; subst.
        change (findNode (node p v l r') q depth)
          with (if Point_eqb p q then node p v l r'
                else if PrimFloat.ltb (KDTree.coord q (depth mod N))
                                      (KDTree.coord p (depth mod N))
                     then findNode l q (depth + 1)
                     else findNode r' q (depth + 1)).
        change (findNode (node p v l (node rp rv rl rr)) q depth)
          with (if Point_eqb p q then node p v l (node rp rv rl rr)
                else if PrimFloat.ltb (KDTree.coord q (depth mod N))
                                      (KDTree.coord p (depth mod N))
                     then findNode l q (depth + 1)
                     else findNode (node rp rv rl rr) q (depth + 1)).
        destruct (Point_eqb p q); [reflexivity|].
        destruct (PrimFloat.ltb (KDTree.coord q (depth mod N))
                                (KDTree.coord p (depth mod N)));
          [reflexivity|].
        apply (IHr _ _ _ _ E' Hpq). intros x Hx. apply Hap. now apply Hr.
Qed.

(** In a tree in search order a search finds every stored point that
    equals itself. *)
Lemma findNode_stored (t : Node) (q : KDTree.Point) (depth : Z) :
  ordered t depth = true -> In q (points t) -> Point_eqb q q = true ->
  findNode t q depth <> NULL.
Proof.
  revert depth. induction t as [|p v l IHl r IHr]; intros depth Ho Hin Hqq;
    [destruct Hin|].
  cbn [KDTree.ordered] in Ho. rewrite !andb_true_iff in Ho.
  destruct Ho as (((H1 & H2) & H3) & H4).
  rewrite forallb_forall in H1, H2.
  cbn [KDTree.findNode].
  destruct (Point_eqb p q) eqn:Ep; [discriminate|].
  cbn [KDTree.points] in Hin. destruct Hin as [->|Hin]; [congruence|].
  apply in_app_or in Hin. destruct Hin as [Hin|Hin].
  - rewrite (H1 q Hin). now apply IHl.
  - specialize (H2 q Hin). apply negb_true_iff in H2. rewrite H2.
    now apply IHr.
Qed.

(** No float compares equal to a NaN. *)
Lemma eqb_nan (x y : KDTree.double) :
  PrimFloat.is_nan y = true -> PrimFloat.eqb x y = false.
Proof.
  intros H. rewrite FloatAxioms.eqb_spec.
  unfold FloatOps.Prim2SF at 2. rewrite H.
  unfold SpecFloat.SFeqb. now destruct (FloatOps.Prim2SF x).
Qed.

Lemma has_nan_never_equal (point r : KDTree.Point) :
  has_nan point = true -> Point_eqb r point = false.
Proof.
  unfold KDTree.has_nan, KDTree.Point_eqb. intros H.
  apply existsb_exists in H. destruct H as (i & Hi & Hnan).
  destruct (forallb _ _) eqn:E; [|reflexivity].
  rewrite forallb_forall in E. specialize (E i Hi).
  now rewrite (eqb_nan _ _ Hnan) in E.
Qed.

Lemma findNode_nan (t : Node) (point : KDTree.Point) (depth : Z) :
  has_nan point = true -> findNode t point depth = NULL.
Proof.
  intros H. revert depth. induction t as [|p v l IHl r IHr]; intros depth;
    [reflexivity|].
  cbn [KDTree.findNode]. rewrite (has_nan_never_equal point p H).
  destruct (PrimFloat.ltb _ _); auto.
Qed.

(** What a search finds stays found after insertNode. *)
Lemma insertNode_keeps_found (t : Node) (point q : KDTree.Point)
    (value : ElemType) (depth sz : Z) (t' : Node) (sz' : Z) (ret : Node) :
  insertNode t point value depth sz = Some (t', sz', ret) ->
  findNode t q depth <> NULL -> findNode t' q depth <> NULL.
Proof.
  revert depth t' sz' ret.
  induction t as [|p v l IHl r IHr]; intros depth t' sz' ret;
    [discriminate|].
  intros E. cbn [KDTree.insertNode] in E.
  destruct (Point_eqb p point) eqn:Ep.
  - inversion E; subst. cbn [KDTree.findNode].
    destruct (Point_eqb p q); [discriminate|]. auto.
  - destruct (PrimFloat.ltb (KDTree.coord point (depth mod N))
                            (KDTree.coord p (depth mod N))) eqn:El.
    + destruct l as [|lp lv ll lr].
      * inversion E; subst. cbn [KDTree.findNode].
        destruct (Point_eqb p q); [discriminate|].
        destruct (PrimFloat.ltb (KDTree.coord q (depth mod N))
                                (KDTree.coord p (depth mod N)));
          [congruence|auto].
      * destruct (insertNode (node lp lv ll lr) point value (depth + 1) sz)
          as [[[l' s'] rt]|] eqn:E'; [|discriminate].
        inversion E; subst.
        change (findNode (node p v l' r) q depth)
          with (if Point_eqb p q then node p v l' r
                else if PrimFloat.ltb (KDTree.coord q (depth mod N))
                                      (KDTree.coord p (depth mod N))
                     then findNode l' q (depth + 1)
                     else findNode r q (depth + 1)).
        change (findNode (node p v (node lp lv ll lr) r) q depth)
          with (if Point_eqb p q then node p v (node lp lv ll lr) r
                else if PrimFloat.ltb (KDTree.coord q (depth mod N))
                                      (KDTree.coord p (depth mod N))
                     then findNode (node lp lv ll lr) q (depth + 1)
                     else findNode r q (depth + 1)).
        destruct (Point_eqb p q); [discriminate|].
        destruct (PrimFloat.ltb (KDTree.coord q (depth mod N))
                                (KDTree.coord p (depth mod N)));
          [|auto].
        now apply (IHl _ _ _ _ E').
    + destruct r as [|rp rv rl rr].
      * inversion E; subst. cbn [KDTree.findNode].
        destruct (Point_eqb p q); [discriminate|].
        destruct (PrimFloat.ltb (KDTree.coord q (depth mod N))
                                (KDTree.coord p (depth mod N)));
          [auto|congruence].
      * destruct (insertNode (node rp rv rl rr) point value (depth + 1) sz)
          as [[[r' s'] rt]|] eqn:E'; [|discriminate].
        inversion E; subst.
        change (findNode (node p v l r') q depth)
          with (if Point_eqb p q then node p v l r'
                else if PrimFloat.ltb (KDTree.coord q (depth mod N))
                                      (KDTree.coord p (depth mod N))
                     then findNode l q (depth + 1)
                     else findNode r' q (depth + 1)).
        change (findNode (node p v l (node rp rv rl rr)) q depth)
          with (if Point_eqb p q then node p v l (node rp rv rl rr)
                else if PrimFloat.ltb (KDTree.coord q (depth mod N))
                                      (KDTree.coord p (depth mod N))
                     then findNode l q (depth + 1)
                     else findNode (node rp rv rl rr) q (depth + 1)).
        destruct (Point_eqb p q); [discriminate|].
        destruct (PrimFloat.ltb (KDTree.coord q (depth mod N))
                                (KDTree.coord p (depth mod N)));
          [auto|].
        now apply (IHr _ _ _ _ E').
Qed.

End KDTreeFacts.

Section KDTreeProperties.

Variable N : Z.
Variable ElemType : Type.

Local Abbreviation Head := (KDTree.Head ElemType).
Local Abbreviation NULL := (@KDTree.NULL ElemType).
Local Abbreviation node := (@KDTree.node ElemType).
Local Abbreviation Point_eqb := (KDTree.Point_eqb N).
Local Abbreviation findNode := (@KDTree.findNode N ElemType).
Local Abbreviation insertNode := (@KDTree.insertNode N ElemType).
Local Abbreviation insert := (@KDTree.insert N ElemType).
Local Abbreviation contains := (@KDTree.contains N ElemType).
Local Abbreviation at_point := (@KDTree.at_point N ElemType).
Local Abbreviation subscript := (@KDTree.subscript N ElemType).
Local Abbreviation count := (@KDTree.count ElemType).
Local Abbreviation points := (@KDTree.points ElemType).
Local Abbreviation ordered := (@KDTree.ordered N ElemType).
Local Abbreviation apart := (@KDTree.apart N ElemType).
Local Abbreviation value_of := (@KDTree.value_of ElemType).
Local Abbreviation has_nan := (KDTree.has_nan N).
Local Abbreviation insert_all := (@KDTree.insert_all N ElemType).
Local Abbreviation size := (@KDTree.size ElemType).
Local Abbreviation root := (@KDTree.root ElemType).

Lemma if_found (o : option ElemType) :
  (if match o with Some _ => true | None => false end then 0 else 1)
  = match o with Some _ => 0 | None => 1 end.
Proof. destruct o; reflexivity. Qed.

(** [insert] in terms of insertNode and findNode. *)
Lemma insert_spec (head : Head) (point : KDTree.Point) (value : ElemType) :
  exists t,
    insert head point value
    = Some {| KDTree.size := size head
                             + (if contains head point then 0 else 1);
              KDTree.root := t |} /\
    count t = count (root head) + (if contains head point then 0 else 1) /\
    (Point_eqb point point = true ->
     value_of (findNode t point 0) = Some value) /\
    (forall q, In q (points t) -> q = point \/ In q (points (root head))) /\
    (ordered (root head) 0 = true -> ordered t 0 = true) /\
    (forall q, apart (root head) point q = true ->
       value_of (findNode t q 0) = value_of (findNode (root head) q 0)).
Proof.
  rewrite contains_value_of, if_found. unfold KDTree.insert.
  destruct (root head) as [|p v l r] eqn:Er.
  - exists (node point value NULL NULL). cbn [KDTree.findNode KDTree.value_of].
    split; [reflexivity|]. split; [reflexivity|]. split.
    { intros H. cbn [KDTree.findNode]. now rewrite H. }
    split.
    { intros q [Hq|[]]. now left. }
    split; [reflexivity|].
    intros q Hq. unfold KDTree.apart in Hq. apply andb_true_iff in Hq.
    destruct Hq as (Hq & _). apply negb_true_iff in Hq.
    cbn [KDTree.findNode]. rewrite Hq.
    destruct (PrimFloat.ltb _ _); reflexivity.
  - destruct (insertNode_spec N ElemType (node p v l r) point value 0
                (size head) ltac:(discriminate))
      as (t' & ret & E & (rp & rl & rr & Hret) & Hc & Hn & Hf).
    rewrite findNode_NULL_value in E, Hc.
    rewrite E. exists t'. split; [reflexivity|]. split; [exact Hc|].
    destruct (insertNode_points N ElemType _ _ _ _ _ _ _ _ E) as (Hp & Ho).
    split; [intros H; rewrite (Hf H), Hret; reflexivity|].
    split; [exact Hp|]. split; [exact Ho|].
    intros q Hq. unfold KDTree.apart in Hq. apply andb_true_iff in Hq.
    destruct Hq as (Hq1 & Hq2). apply negb_true_iff in Hq1.
    rewrite forallb_forall in Hq2.
    apply (insertNode_other N ElemType _ _ _ _ _ _ _ _ _ E Hq1).
    intros x Hx Hxq. specialize (Hq2 x Hx). rewrite Hxq in Hq2.
    apply negb_true_iff in Hq2. exact Hq2.
Qed.

(** X15. insert then look up: after [insert(point, value)] of a point that
    equals itself (no NaN coordinate), [at(point)] returns [value] and
    [contains(point)] is true; the call always returns. *)
Theorem kd_insert_then_at
    (head : Head) (point : KDTree.Point) (value : ElemType) :
  Point_eqb point point = true ->
  exists head',
    insert head point value = Some head' /\
    at_point head' point = Some value /\
    contains head' point = true.
Proof.
  intros Hpp.
  destruct (insert_spec head point value) as (t & E & _ & Hf & _).
  set (h' := {| KDTree.size := _; KDTree.root := t |}) in E.
  exists h'. split; [exact E|].
  rewrite (at_point_value_of N ElemType h'), (contains_value_of N ElemType h').
  cbn [KDTree.root h']. rewrite (Hf Hpp). split; reflexivity.
Qed.

(** X16. [insert] and [size]: the call always returns; [head.size] and the
    number of nodes both grow by one when [contains(point)] was false and
    stay as they are when it was true, so a [size] that counts the nodes
    still does. *)
Theorem kd_insert_size
    (head : Head) (point : KDTree.Point) (value : ElemType) :
  exists head',
    insert head point value = Some head' /\
    size head' = size head + (if contains head point then 0 else 1) /\
    count (root head')
    = count (root head) + (if contains head point then 0 else 1).
Proof.
  destruct (insert_spec head point value) as (t & E & Hc & _).
  eexists. split; [exact E|]. cbn [KDTree.size KDTree.root].
  split; [reflexivity|exact Hc].
Qed.

(** X17. [insert] keeps the search order: in a tree where the points of
    every left subtree are below the point of the node in the coordinate
    of its depth and those of every right subtree are not, the tree after
    [insert] has the same property, and stores no other points than those
    it stored and [point]. *)
Theorem kd_insert_keeps_order
    (head : Head) (point : KDTree.Point) (value : ElemType) :
  ordered (root head) 0 = true ->
  exists head',
    insert head point value = Some head' /\
    ordered (root head') 0 = true /\
    forall q, In q (points (root head')) ->
              q = point \/ In q (points (root head)).
Proof.
  intros Ho.
  destruct (insert_spec head point value) as (t & E & _ & _ & Hp & Hord & _).
  eexists. split; [exact E|]. cbn [KDTree.root].
  split; [now apply Hord|exact Hp].
Qed.

(** X18. In a tree in search order every stored point that equals itself
    is found: [contains] is true for it and [at] returns an element. *)
Theorem kd_stored_points_found (head : Head) (q : KDTree.Point) :
  ordered (root head) 0 = true -> In q (points (root head)) ->
  Point_eqb q q = true ->
  contains head q = true /\ exists v, at_point head q = Some v.
Proof.
  intros Ho Hin Hqq.
  pose proof (findNode_stored N ElemType _ _ _ Ho Hin Hqq) as Hf.
  rewrite at_point_value_of, contains_value_of.
  destruct (findNode (root head) q 0) as [|p v l r]; [congruence|].
  cbn [KDTree.value_of]. split; [reflexivity|now exists v].
Qed.

(** X19. [insert] leaves the other points alone: for a point [q] that does
    not compare equal to [point], when no stored point compares equal to
    both, [at(q)] and [contains(q)] answer after [insert(point, value)]
    what they answered before. *)
Theorem kd_insert_keeps_others
    (head : Head) (point q : KDTree.Point) (value : ElemType) :
  apart (root head) point q = true ->
  exists head',
    insert head point value = Some head' /\
    at_point head' q = at_point head q /\
    contains head' q = contains head q.
Proof.
  intros Hap.
  destruct (insert_spec head point value) as (t & E & _ & _ & _ & _ & Hq).
  set (h' := {| KDTree.size := _; KDTree.root := t |}) in E.
  exists h'. split; [exact E|].
  rewrite (at_point_value_of N ElemType h'), (contains_value_of N ElemType h'),
    (at_point_value_of N ElemType head), (contains_value_of N ElemType head).
  cbn [KDTree.root h']. rewrite (Hq q Hap). split; reflexivity.
Qed.

(** X20. [operator[]]: for a point that [at] finds, it returns the stored
    element and leaves the tree as it is; for a point that [contains] does
    not find, it does what [insert(point, ElemType())] does and returns
    that default element. *)
Theorem kd_subscript (dflt : ElemType) (head : Head) (point : KDTree.Point) :
  (forall w, at_point head point = Some w ->
             subscript dflt head point = Some (head, w)) /\
  (contains head point = false ->
   exists head',
     insert head point dflt = Some head' /\
     subscript dflt head point = Some (head', dflt)).
Proof.
  split.
  - intros w. rewrite at_point_value_of. unfold KDTree.subscript.
    destruct (findNode (root head) point 0); cbn [KDTree.value_of];
      [discriminate|]. intros E. now inversion E.
  - rewrite contains_value_of. unfold KDTree.subscript, KDTree.insert.
    destruct (findNode (root head) point 0) eqn:Ef; cbn [KDTree.value_of];
      [|discriminate]. intros _.
    destruct (root head) as [|p v l r] eqn:Er.
    + eexists. split; reflexivity.
    + destruct (insertNode_spec N ElemType (node p v l r) point dflt 0
                  (size head) ltac:(discriminate))
        as (t' & ret & E & (rp & rl & rr & Hret) & _).
      rewrite E, Hret. eexists. split; reflexivity.
Qed.

(** X21. A point with a NaN coordinate is never found: [contains] is false
    for it in every tree, and every [insert] of it adds a node and leaves
    [contains] false. *)
Theorem kd_nan_point_never_found
    (head : Head) (point : KDTree.Point) (value : ElemType) :
  has_nan point = true ->
  contains head point = false /\
  exists head',
    insert head point value = Some head' /\
    size head' = size head + 1 /\
    contains head' point = false.
Proof.
  intros Hnan.
  assert (Hc : forall h : Head, contains h point = false).
  { intros h. rewrite contains_value_of.
    now rewrite (findNode_nan N ElemType _ _ _ Hnan). }
  split; [apply Hc|].
  destruct (insert_spec head point value) as (t & E & _).
  rewrite Hc in E. eexists. split; [exact E|].
  split; [reflexivity|apply Hc].
Qed.

(** What [contains] finds, it still finds after [insert]. *)
Lemma insert_keeps_contains
    (head head' : Head) (point q : KDTree.Point) (value : ElemType) :
  insert head point value = Some head' ->
  contains head q = true -> contains head' q = true.
Proof.
  unfold KDTree.insert, KDTree.contains.
  destruct (root head) as [|p v l r] eqn:Er; [discriminate|].
  destruct (insertNode (node p v l r) point value 0 (size head))
    as [[[t sz] ret]|] eqn:E; [|discriminate].
  intros E' Hc. inversion E'; subst. cbn [KDTree.root].
  pose proof (insertNode_keeps_found N ElemType _ point q _ _ _ _ _ _ E) as H.
  destruct (findNode (node p v l r) q 0) eqn:Ef; [discriminate|].
  specialize (H ltac:(discriminate)).
  destruct t as [|tp tv tl tr]; [cbn [KDTree.findNode] in H; congruence|].
  destruct (findNode (node tp tv tl tr) q 0) eqn:Ef'; congruence.
Qed.

(** The invariants of a run of [insert] calls. *)
Lemma insert_all_spec (l : list (KDTree.Point * ElemType)) (head : Head) :
  ordered (root head) 0 = true -> size head = count (root head) ->
  exists head',
    insert_all head l = Some head' /\
    ordered (root head') 0 = true /\
    size head' = count (root head') /\
    count (root head) <= count (root head')
      <= count (root head) + Z.of_nat (length l) /\
    (forall q, contains head q = true -> contains head' q = true) /\
    (forall point value, In (point, value) l ->
       Point_eqb point point = true -> contains head' point = true).
Proof.
  revert head. induction l as [|[point value] l IH]; intros head Ho Hs.
  - exists head. cbn [KDTree.insert_all length].
    repeat split; auto; try lia; try (intros ? ? []).
  - destruct (insert_spec head point value)
      as (t & E & Hc & Hf & _ & Hord & _).
    set (h1 := {| KDTree.size := _; KDTree.root := t |}) in E.
    destruct (IH h1) as (h2 & E2 & Ho2 & Hs2 & Hcnt & Hkeep & Hin).
    + now apply Hord.
    + subst h1. cbn [KDTree.size KDTree.root]. rewrite Hc, Hs. reflexivity.
    + exists h2. cbn [KDTree.insert_all]. rewrite E.
      split; [exact E2|]. split; [exact Ho2|]. split; [exact Hs2|].
      assert (Hb : 0 <= (if contains head point then 0 else 1) <= 1)
        by (destruct (contains head point); lia).
      cbn [KDTree.root h1] in Hcnt.
      split; [cbn [length]; lia|]. split.
      * intros q Hq. apply Hkeep.
        now apply (insert_keeps_contains head h1 point q value E).
      * intros p' v' [Heq|Hin'] Hpp.
        -- inversion Heq; subst. apply Hkeep.
           rewrite (contains_value_of N ElemType h1). cbn [KDTree.root h1].
           now rewrite (Hf Hpp).
        -- now apply (Hin p' v').
Qed.

(** X22. A tree built from the empty tree by a run of [insert] calls:
    every call returns; the tree is in search order; [size] is the number
    of its nodes, at most the number of calls; after one call or more
    [empty] is false; and [contains] is true for every inserted point that
    equals itself (no NaN coordinate). *)
Theorem kd_insert_all (l : list (KDTree.Point * ElemType)) :
  exists head,
    insert_all KDTree.empty_tree l = Some head /\
    ordered (root head) 0 = true /\
    size head = count (root head) /\
    0 <= size head <= Z.of_nat (length l) /\
    (l <> [] -> KDTree.empty head = false) /\
    forall point value, In (point, value) l ->
      Point_eqb point point = true -> contains head point = true.
Proof.
  destruct (insert_all_spec l KDTree.empty_tree eq_refl eq_refl)
    as (h & E & Ho & Hs & Hc & _ & Hin).
  exists h. cbn [KDTree.empty_tree KDTree.root KDTree.count] in Hc.
  split; [exact E|]. split; [exact Ho|]. split; [exact Hs|].
  split; [lia|]. split; [|exact Hin].
  intros Hl. unfold KDTree.empty. apply Z.eqb_neq.
  destruct l as [|[point value] l']; [congruence|].
  cbn [KDTree.insert_all] in E.
  destruct (insert_spec KDTree.empty_tree point value)
    as (t1 & E1 & Hc1 & _ & _ & Hord1 & _).
  rewrite E1 in E.
  set (h1 := {| KDTree.size := _; KDTree.root := t1 |}) in E.
  destruct (insert_all_spec l' h1) as (h2 & E2 & _ & _ & Hc2 & _).
  - now apply Hord1.
  - subst h1. cbn [KDTree.size KDTree.root]. rewrite Hc1. reflexivity.
  - rewrite E2 in E. inversion E; subst h2.
    cbn [KDTree.root h1] in Hc2. rewrite Hc1 in Hc2.
    cbn [KDTree.empty_tree KDTree.root KDTree.count KDTree.contains] in Hc2.
    lia.
Qed.

(** X23. [insert] never loses a point: a point for which [contains] is
    true is still found after the [insert] of any point with any value. *)
Theorem kd_insert_keeps_contains
    (head head' : Head) (point q : KDTree.Point) (value : ElemType) :
  contains head q = true -> insert head point value = Some head' ->
  contains head' q = true.
Proof.
  intros Hc E. exact (insert_keeps_contains head head' point q value E Hc).
Qed.

End KDTreeProperties.

(* ------------------------------------------------------------------ *)
(** ** The properties of the k-d tree at the tree of the examples *)

Lemma kd_insert_then_at_witness :
  KDTree.Point_eqb 2 KDExamples.p44 KDExamples.p44 = true /\
  exists head',
    KDTree.insert 2 KDExamples.ex_kd KDExamples.p44 9 = Some head' /\
    KDTree.at_point 2 head' KDExamples.p44 = Some 9 /\
    KDTree.contains 2 head' KDExamples.p44 = true.
Proof.
  assert (H : KDTree.Point_eqb 2 KDExamples.p44 KDExamples.p44 = true)
    by (vm_compute; reflexivity).
  split; [exact H|].
  exact (kd_insert_then_at 2 Z KDExamples.ex_kd KDExamples.p44 9 H).
Defined.

Lemma kd_insert_keeps_order_witness :
  KDTree.ordered 2 (KDTree.root KDExamples.ex_kd) 0 = true /\
  exists head',
    KDTree.insert 2 KDExamples.ex_kd KDExamples.p44 9 = Some head' /\
    KDTree.ordered 2 (KDTree.root head') 0 = true /\
    forall q, In q (KDTree.points (KDTree.root head')) ->
              q = KDExamples.p44 \/
              In q (KDTree.points (KDTree.root KDExamples.ex_kd)).
Proof.
  assert (H : KDTree.ordered 2 (KDTree.root KDExamples.ex_kd) 0 = true)
    by (vm_compute; reflexivity).
  split; [exact H|].
  exact (kd_insert_keeps_order 2 Z KDExamples.ex_kd KDExamples.p44 9 H).
Defined.

Lemma kd_stored_points_found_witness :
  KDTree.ordered 2 (KDTree.root KDExamples.ex_kd) 0 = true /\
  In KDExamples.p72 (KDTree.points (KDTree.root KDExamples.ex_kd)) /\
  KDTree.Point_eqb 2 KDExamples.p72 KDExamples.p72 = true /\
  KDTree.contains 2 KDExamples.ex_kd KDExamples.p72 = true.
Proof.
  assert (H : KDTree.ordered 2 (KDTree.root KDExamples.ex_kd) 0 = true)
    by (vm_compute; reflexivity).
  assert (Hin : In KDExamples.p72
                  (KDTree.points (KDTree.root KDExamples.ex_kd)))
    by (simpl; auto).
  assert (Hqq : KDTree.Point_eqb 2 KDExamples.p72 KDExamples.p72 = true)
    by (vm_compute; reflexivity).
  split; [exact H|]. split; [exact Hin|]. split; [exact Hqq|].
  exact (proj1 (kd_stored_points_found 2 Z KDExamples.ex_kd KDExamples.p72
                  H Hin Hqq)).
Defined.

Lemma kd_insert_keeps_others_witness :
  KDTree.apart 2 (KDTree.root KDExamples.ex_kd)
    KDExamples.p44 KDExamples.p72 = true /\
  exists head',
    KDTree.insert 2 KDExamples.ex_kd KDExamples.p44 9 = Some head' /\
    KDTree.at_point 2 head' KDExamples.p72
    = KDTree.at_point 2 KDExamples.ex_kd KDExamples.p72 /\
    KDTree.contains 2 head' KDExamples.p72
    = KDTree.contains 2 KDExamples.ex_kd KDExamples.p72.
Proof.
  assert (H : KDTree.apart 2 (KDTree.root KDExamples.ex_kd)
                KDExamples.p44 KDExamples.p72 = true)
    by (vm_compute; reflexivity).
  split; [exact H|].
  exact (kd_insert_keeps_others 2 Z KDExamples.ex_kd
           KDExamples.p44 KDExamples.p72 9 H).
Defined.

Lemma kd_subscript_witness :
  KDTree.at_point 2 KDExamples.ex_kd KDExamples.p15 = Some 2 /\
  KDTree.contains 2 KDExamples.ex_kd KDExamples.p44 = false /\
  KDTree.subscript 2 0 KDExamples.ex_kd KDExamples.p15
  = Some (KDExamples.ex_kd, 2) /\
  exists head',
    KDTree.insert 2 KDExamples.ex_kd KDExamples.p44 0 = Some head' /\
    KDTree.subscript 2 0 KDExamples.ex_kd KDExamples.p44 = Some (head', 0).
Proof.
  assert (H1 : KDTree.at_point 2 KDExamples.ex_kd KDExamples.p15 = Some 2)
    by (vm_compute; reflexivity).
  assert (H2 : KDTree.contains 2 KDExamples.ex_kd KDExamples.p44 = false)
    by (vm_compute; reflexivity).
  split; [exact H1|]. split; [exact H2|]. split.
  - exact (proj1 (kd_subscript 2 Z 0 KDExamples.ex_kd KDExamples.p15) 2 H1).
  - exact (proj2 (kd_subscript 2 Z 0 KDExamples.ex_kd KDExamples.p44) H2).
Defined.

Lemma kd_nan_point_never_found_witness :
  KDTree.has_nan 2 KDExamples.pnan = true /\
  KDTree.contains 2 KDExamples.ex_kd KDExamples.pnan = false /\
  exists head',
    KDTree.insert 2 KDExamples.ex_kd KDExamples.pnan 9 = Some head' /\
    KDTree.size head' = KDTree.size KDExamples.ex_kd + 1 /\
    KDTree.contains 2 head' KDExamples.pnan = false.
Proof.
  assert (H : KDTree.has_nan 2 KDExamples.pnan = true)
    by (vm_compute; reflexivity).
  split; [exact H|].
  exact (kd_nan_point_never_found 2 Z KDExamples.ex_kd KDExamples.pnan 9 H).
Defined.

Lemma kd_insert_keeps_contains_witness :
  KDTree.contains 2 KDExamples.ex_kd KDExamples.p15 = true /\
  KDTree.insert 2 KDExamples.ex_kd KDExamples.p44 9
  = Some {| KDTree.size := 4;
            KDTree.root :=
              KDTree.node KDExamples.p34 1
                (KDTree.node KDExamples.p15 2 KDTree.NULL KDTree.NULL)
                (KDTree.node KDExamples.p72 3 KDTree.NULL
                   (KDTree.node KDExamples.p44 9 KDTree.NULL KDTree.NULL))
         |} /\
  KDTree.contains 2
    {| KDTree.size := 4;
       KDTree.root :=
         KDTree.node KDExamples.p34 1
           (KDTree.node KDExamples.p15 2 KDTree.NULL KDTree.NULL)
           (KDTree.node KDExamples.p72 3 KDTree.NULL
              (KDTree.node KDExamples.p44 9 KDTree.NULL KDTree.NULL)) |}
    KDExamples.p15 = true.
Proof.
  assert (Hc : KDTree.contains 2 KDExamples.ex_kd KDExamples.p15 = true)
    by (vm_compute; reflexivity).
  assert (E : KDTree.insert 2 KDExamples.ex_kd KDExamples.p44 9
              = Some {| KDTree.size := 4;
                        KDTree.root :=
                          KDTree.node KDExamples.p34 1
                            (KDTree.node KDExamples.p15 2
                               KDTree.NULL KDTree.NULL)
                            (KDTree.node KDExamples.p72 3 KDTree.NULL
                               (KDTree.node KDExamples.p44 9
                                  KDTree.NULL KDTree.NULL)) |})
    by (vm_compute; reflexivity).
  split; [exact Hc|]. split; [exact E|].
  exact (kd_insert_keeps_contains 2 Z KDExamples.ex_kd _
           KDExamples.p44 KDExamples.p15 9 Hc E).
Defined.
